(** * Products microservice: entity, Prisma repository and CQRS handlers

    A shallow embedding of the command/query pipeline of the products
    microservice (NestJS + Prisma over SQLite):

    - [Product] (product.entity.ts): constructor, [updateDetails],
      [markAsUnavailable];
    - [PrismaProductRepository] (prisma-product.repository.ts): the six
      operations of [ProductRepositoryPort];
    - the six handlers, the bus that dispatches to them, and the global
      exception filter.

    Asynchronous code is sequential between awaits, so every method is a
    computation in a state-and-exception monad [M] over a [World]: the
    [Product] table, a script of storage outages, and the log of Prisma
    calls.  A write made before an exception is thrown stays in the world,
    exactly as a committed SQL statement does.

    Logging is left out.  Numbers: a price is a rational (the code stores
    prices and compares them with zero, and [@IsNumber] lets neither NaN
    nor an infinity in); what the REAL column does to a number it cannot
    hold exactly is outside the model, and the properties of an updated
    price say no more than its sign and that it is the one read back.
    [page], [limit] and the counts are integers; the arithmetic of the
    code on them is exact up to [Number.MAX_SAFE_INTEGER], the range in
    which the properties of the listing are stated. *)

From Stdlib Require Import List String Ascii Bool Arith ZArith QArith Lia.
From Stdlib Require Import Permutation Sorted.
Import ListNotations.

Local Close Scope Q_scope.
Local Open Scope string_scope.
Local Open Scope Z_scope.

Set Implicit Arguments.

(** ** JavaScript values used by the code *)

Module Js.

(** Strings are sequences of code units; the model covers code units
    below 256, for which [String.prototype.trim] strips TAB, LF, VT, FF,
    CR, SPACE and NBSP. *)
Definition isWhiteSpace (c : ascii) : bool :=
  let n := nat_of_ascii c in
  ((9 <=? n)%nat && (n <=? 13)%nat) || (n =? 32)%nat || (n =? 160)%nat.

Fixpoint trimStart (s : string) : string :=
  match s with
  | String c s' => if isWhiteSpace c then trimStart s' else s
  | EmptyString => EmptyString
  end.

(** [trimEnd] keeps a character when it is not white space or when
    something is left after it. *)
Fixpoint trimEnd (s : string) : string :=
  match s with
  | String c s' =>
      match trimEnd s' with
      | EmptyString => if isWhiteSpace c then EmptyString else String c EmptyString
      | t => String c t
      end
  | EmptyString => EmptyString
  end.

Definition trim (s : string) : string := trimEnd (trimStart s).

(** [!s] on a string: only the empty string is falsy. *)
Definition falsy (s : string) : bool :=
  match s with EmptyString => true | _ => false end.

(** [a || b] on strings. *)
Definition or_else (a b : string) : string := if falsy a then b else a.

(** [arr.includes(x)] on an array of strings. *)
Definition includes (arr : list string) (x : string) : bool :=
  existsb (String.eqb x) arr.

(** [arr.join(sep)]. *)
Fixpoint join (sep : string) (arr : list string) : string :=
  match arr with
  | [] => ""
  | [x] => x
  | x :: rest => x ++ sep ++ join sep rest
  end.

(** [Set.prototype.add]: a value already present leaves the set as it
    is, a new one goes to the end of the insertion order. *)
Definition Set_add (s : list string) (x : string) : list string :=
  if includes s x then s else s ++ [x].

(** [Array.from(new Set(ids))]: the distinct values in order of first
    occurrence. *)
Definition Array_from_Set (ids : list string) : list string :=
  fold_left Set_add ids [].

(** Numbers that [Math.ceil(total / limit)] can produce from integers:
    an integer, [Infinity] (n / 0 with n > 0) or [NaN] (0 / 0).  The sign
    of zero is not tracked. *)
Inductive number : Type :=
| Int (z : Z)
| Infinity
| NaN.

(** [Math.ceil(total / limit)] for an integer [limit] and a count
    [total >= 0].  [Z.div] rounds down for either sign of the divisor, and
    ceil x = - floor (- x). *)
Definition Math_ceil_div (total limit : Z) : number :=
  if limit =? 0 then (if total =? 0 then NaN else Infinity)
  else Int (- ((- total) / limit)).

End Js.

(** ** Exceptions and the monad of the asynchronous code *)

(** Prisma "known request" error codes the code can meet: unique
    constraint (P2002), record not found (P2025), and any other failure
    of the storage engine. *)
Inductive PrismaCode : Type := P2002 | P2025 | POther.

Inductive exn : Type :=
| RpcException (status : Z) (message : string) (* new RpcException({ status, message }) *)
| JsError (message : string)                   (* new Error(message) *)
| PrismaError (code : PrismaCode).            (* thrown by the Prisma client *)

Inductive Result (A : Type) : Type :=
| Ok (a : A)
| Throw (e : exn).
Arguments Ok {A} a.
Arguments Throw {A} e.

Definition instanceof_RpcException (e : exn) : bool :=
  match e with RpcException _ _ => true | _ => false end.

(** [error.code === 'P2025'] *)
Definition code_is_P2025 (e : exn) : bool :=
  match e with PrismaError P2025 => true | _ => false end.

(** [error.message].  [RpcException] copies the [message] of its payload;
    Prisma's messages only ever reach the logger, so the model keeps the
    code in their place. *)
Definition exn_message (e : exn) : string :=
  match e with
  | RpcException _ m => m
  | JsError m => m
  | PrismaError P2002 => "P2002"
  | PrismaError P2025 => "P2025"
  | PrismaError POther => "P1000"
  end.

(** [error.status] and [error.response?.status]: [RpcException] keeps its
    payload in the private field [error], and neither [Error] nor Prisma's
    errors have such properties: both are [undefined] on every exception
    the code can catch. *)
Definition exn_status (e : exn) : option Z :=
  match e with
  | RpcException _ _ => None
  | JsError _ => None
  | PrismaError _ => None
  end.

Definition exn_response_status (e : exn) : option Z :=
  match e with
  | RpcException _ _ => None
  | JsError _ => None
  | PrismaError _ => None
  end.

(** [a || b] where [a] may be [undefined] or a number ([0] is falsy). *)
Definition num_or (a : option Z) (b : Z) : Z :=
  match a with
  | Some z => if z =? 0 then b else z
  | None => b
  end.

(** The handlers' fallback:
    [new RpcException({ status: error.status || error.response?.status || 500,
                        message: error.message || error.response?.message || dflt })]. *)
Definition rewrap (dflt : string) (error : exn) : exn :=
  RpcException (num_or (exn_status error) (num_or (exn_response_status error) 500))
               (Js.or_else (exn_message error) dflt).

(** ** The world: table, outages, call log *)

(** A record of the [Product] table (migration.sql).  [createdAt] and
    [updatedAt] are never read by the code and are left out. *)
Record Row : Type := mkRow {
  row_id : string;          (* TEXT NOT NULL PRIMARY KEY *)
  row_name : string;        (* TEXT NOT NULL *)
  row_price : Q;            (* REAL NOT NULL *)
  row_available : bool      (* BOOLEAN NOT NULL DEFAULT true *)
}.

(** The Prisma client calls the repository makes. *)
Inductive Call : Type :=
| call_create
| call_findFirst
| call_transaction
| call_update
| call_findMany.

Definition is_write (c : Call) : bool :=
  match c with
  | call_create | call_update => true
  | _ => false
  end.

(** [table] lists the rows in the order in which the engine scans them
    (no query of the code has an [orderBy]; the client adds one, by key,
    where it pages); [outages] says, for each
    coming Prisma call in turn, whether the engine fails on it (no entry:
    it works); [log] has the calls made so far, latest first. *)
Record World : Type := mkWorld {
  table : list Row;
  outages : list bool;
  log : list Call
}.

Definition M (A : Type) : Type := World -> Result A * World.

Definition ret {A} (a : A) : M A := fun w => (Ok a, w).

Definition throw {A} (e : exn) : M A := fun w => (Throw e, w).

Definition bind {A B} (m : M A) (k : A -> M B) : M B :=
  fun w =>
    match m w with
    | (Ok a, w') => k a w'
    | (Throw e, w') => (Throw e, w')
    end.

(** [try { m } catch (error) { h error }] *)
Definition try_catch {A} (m : M A) (h : exn -> M A) : M A :=
  fun w =>
    match m w with
    | (Ok a, w') => (Ok a, w')
    | (Throw e, w') => h e w'
    end.

(** A synchronous computation that may throw, run inside async code. *)
Definition lift {A} (r : Result A) : M A := fun w => (r, w).

Declare Scope js_scope.
Delimit Scope js_scope with js.
Notation "x <- m ;; k" := (bind m (fun x => k))
  (at level 61, m at next level, right associativity) : js_scope.
Notation "'await' m" := m (at level 60, only parsing) : js_scope.
Local Open Scope js_scope.

(** [arr.map(f)] with a callback that may throw: the first exception
    ends the loop. *)
Fixpoint map_throwing {A B} (f : A -> Result B) (arr : list A) : Result (list B) :=
  match arr with
  | [] => Ok []
  | x :: rest =>
      match f x with
      | Throw e => Throw e
      | Ok y =>
          match map_throwing f rest with
          | Throw e => Throw e
          | Ok ys => Ok (y :: ys)
          end
      end
  end.

(** ** The domain entity (product.entity.ts) *)

Module Product.

Record t : Type := mk {
  id : string;
  name : string;
  price : Q;
  available : bool
}.

(** [constructor(id, name, price, available)] *)
Definition new (id name : string) (price : Q) (available : bool) : Result t :=
  if Qlt_le_dec price 0 then Throw (JsError "Product price cannot be negative.")
  else Ok (mk id name price available).

(** [updateDetails(name?, price?)]: a method that assigns to [this] and
    may throw.  The result is the object as the call leaves it, with
    [None] for a normal return and [Some e] for an exception. *)
Definition updateDetails (this : t) (name' : option string) (price' : option Q)
  : t * option exn :=
  let step1 : t * option exn :=
    match name' with
    | Some n =>
        if Js.falsy n || (String.length (Js.trim n) =? 0)%nat
        then (this, Some (JsError "Product name cannot be empty."))
        else (mk (id this) (Js.trim n) (price this) (available this), None)
    | None => (this, None)
    end in
  match step1 with
  | (this1, Some e) => (this1, Some e)
  | (this1, None) =>
      match price' with
      | Some p =>
          if Qlt_le_dec p 0
          then (this1, Some (JsError "Product price cannot be negative."))
          else (mk (id this1) (name this1) p (available this1), None)
      | None => (this1, None)
      end
  end.

(** [markAsUnavailable()] *)
Definition markAsUnavailable (this : t) : t :=
  mk (id this) (name this) (price this) false.

End Product.

(** ** The Prisma client over the table *)

Module Prisma.

(** Every call is logged and consumes one entry of the outage script. *)
Definition call (c : Call) : M unit :=
  fun w =>
    let w' := mkWorld (table w) (tl (outages w)) (c :: log w) in
    match outages w with
    | true :: _ => (Throw (PrismaError POther), w')
    | _ => (Ok tt, w')
    end.

Definition get_table : M (list Row) := fun w => (Ok (table w), w).

Definition set_table (t : list Row) : M unit :=
  fun w => (Ok tt, mkWorld t (outages w) (log w)).

Definition has_id (id : string) (t : list Row) : bool :=
  existsb (fun r => String.eqb id (row_id r)) t.

(** [prisma.product.create({ data: { id, name, price } })]: [available]
    takes its default; a duplicate primary key is refused. *)
Definition product_create (id name : string) (price : Q) : M Row :=
  _ <- call call_create ;;
  t <- get_table ;;
  if has_id id t then throw (PrismaError P2002)
  else
    let r := mkRow id name price true in
    _ <- set_table (t ++ [r]) ;;
    ret r.

(** [prisma.product.findFirst({ where: { id, available: true } })] *)
Definition product_findFirst_available (id : string) : M (option Row) :=
  _ <- call call_findFirst ;;
  t <- get_table ;;
  ret (find (fun r => String.eqb id (row_id r) && row_available r) t).

(** The [data] of an update: the fields to set. *)
Record UpdateInput : Type := mkUpdateInput {
  set_name : option string;
  set_price : option Q;
  set_available : option bool
}.

Definition apply_update (d : UpdateInput) (r : Row) : Row :=
  mkRow (row_id r)
        (match set_name d with Some n => n | None => row_name r end)
        (match set_price d with Some p => p | None => row_price r end)
        (match set_available d with Some a => a | None => row_available r end).

(** The record with the given key is rewritten in place. *)
Fixpoint update_where (id : string) (d : UpdateInput) (t : list Row)
  : option (Row * list Row) :=
  match t with
  | [] => None
  | r :: rest =>
      if String.eqb id (row_id r) then Some (apply_update d r, apply_update d r :: rest)
      else
        match update_where id d rest with
        | Some (r', rest') => Some (r', r :: rest')
        | None => None
        end
  end.

(** [prisma.product.update({ where: { id }, data })]: P2025 when no
    record has the key. *)
Definition product_update (id : string) (d : UpdateInput) : M Row :=
  _ <- call call_update ;;
  t <- get_table ;;
  match update_where id d t with
  | None => throw (PrismaError P2025)
  | Some (r', t') => _ <- set_table t' ;; ret r'
  end.

(** [ORDER BY id]: a [findMany] with [skip] or [take] reads the
    records in the order of the primary key, whatever their place in
    the table.  Keys compare as under SQLite's BINARY collation, code
    unit by code unit. *)
Fixpoint insert_by_id (r : Row) (rows : list Row) : list Row :=
  match rows with
  | [] => [r]
  | x :: rest =>
      if String.leb (row_id r) (row_id x) then r :: rows
      else x :: insert_by_id r rest
  end.

Definition order_by_id (rows : list Row) : list Row :=
  fold_right insert_by_id [] rows.

(** The range of [skip] and [take]: both travel as signed 64-bit
    integers. *)
Definition INT64_MAX : Z := 9223372036854775807.

Definition INT64_MIN : Z := -9223372036854775808.

Definition fits_int64 (z : Z) : bool := (INT64_MIN <=? z) && (z <=? INT64_MAX).

(** [skip] and [take] of [findMany]: a negative [take] counts from the
    end of the result. *)
Definition window (skip take : Z) (rows : list Row) : list Row :=
  if take <? 0
  then rev (firstn (Z.to_nat (- take)) (skipn (Z.to_nat skip) (rev rows)))
  else firstn (Z.to_nat take) (skipn (Z.to_nat skip) rows).

(** [prisma.$transaction([
       prisma.product.count({ where: { available: true } }),
       prisma.product.findMany({ skip, take, where: { available: true } }) ])]:
    both queries read the same table, and [findMany] pages through it
    in key order; a negative [skip], and a [skip] or [take] that does
    not fit 64 bits, are refused. *)
Definition transaction_count_findMany (skip take : Z) : M (Z * list Row) :=
  _ <- call call_transaction ;;
  t <- get_table ;;
  if (skip <? 0) || negb (fits_int64 skip) || negb (fits_int64 take)
  then throw (PrismaError POther)
  else
    let avail := filter row_available t in
    ret (Z.of_nat (List.length avail), window skip take (order_by_id avail)).

(** [prisma.product.findMany({ where: { id: { in: ids }, available: true } })] *)
Definition product_findMany_in (ids : list string) : M (list Row) :=
  _ <- call call_findMany ;;
  t <- get_table ;;
  ret (filter (fun r => Js.includes ids (row_id r) && row_available r) t).

End Prisma.

(** ** The repository adapter (prisma-product.repository.ts) *)

Record ProductCreateData : Type := mkCreateData {
  create_id : string;
  create_name : string;
  create_price : Q
}.

(** [Partial<Omit<Product, 'id' | 'available'>>], also the handlers'
    [UpdateProductData]: an absent field is [None]. *)
Record UpdateProductData : Type := mkUpdateData {
  update_name : option string;
  update_price : option Q
}.

(** [PaginationDto]: both fields are optional; they hold integers. *)
Record PaginationDto : Type := mkPagination {
  dto_page : option Z;
  dto_limit : option Z
}.

Record Meta : Type := mkMeta {
  total : Z;
  page : Z;
  lastPage : Js.number
}.

Record PaginatedProductResult : Type := mkPaginated {
  data : list Product.t;
  meta : Meta
}.

Module PrismaProductRepository.

(** [mapToDomain] on a record that is there. *)
Definition mapToDomain_row (r : Row) : Result Product.t :=
  Product.new (row_id r) (row_name r) (row_price r) (row_available r).

(** [mapToDomain(prismaProduct)]: [null] maps to [null]. *)
Definition mapToDomain (prismaProduct : option Row) : Result (option Product.t) :=
  match prismaProduct with
  | None => Ok None
  | Some r =>
      match mapToDomain_row r with
      | Ok p => Ok (Some p)
      | Throw e => Throw e
      end
  end.

Definition mapToPrismaUpdateData (productData : UpdateProductData) : Prisma.UpdateInput :=
  Prisma.mkUpdateInput (update_name productData) (update_price productData) None.

Definition has_key {A} (field : option A) : nat :=
  match field with Some _ => 1 | None => 0 end.

(** [Object.keys(data).length] *)
Definition Object_keys_length (d : Prisma.UpdateInput) : nat :=
  (has_key (Prisma.set_name d) + has_key (Prisma.set_price d)
   + has_key (Prisma.set_available d))%nat.

Definition create (productData : ProductCreateData) : M Product.t :=
  try_catch
    (createdPrismaProduct <-
       await Prisma.product_create (create_id productData) (create_name productData)
                                   (create_price productData) ;;
     lift (mapToDomain_row createdPrismaProduct))
    (fun error => throw (RpcException 500 "Database error creating product.")).

Definition findById (id : string) : M (option Product.t) :=
  try_catch
    (prismaProduct <- await Prisma.product_findFirst_available id ;;
     lift (mapToDomain prismaProduct))
    (fun error => ret None).

Definition findAllAvailablePaginated (paginationDto : PaginationDto)
  : M PaginatedProductResult :=
  let page := match dto_page paginationDto with Some p => p | None => 1 end in
  let limit := match dto_limit paginationDto with Some l => l | None => 10 end in
  let skip := (page - 1) * limit in
  try_catch
    (res <- await Prisma.transaction_count_findMany skip limit ;;
     let totalAvailable := fst res in
     let prismaProducts := snd res in
     let lastPage := Js.Math_ceil_div totalAvailable limit in
     domainProducts <- lift (map_throwing mapToDomain_row prismaProducts) ;;
     ret (mkPaginated domainProducts (mkMeta totalAvailable page lastPage)))
    (fun error => throw (RpcException 500 "Database error finding products.")).

Definition update (id : string) (updateData : UpdateProductData) : M Product.t :=
  let prismaData := mapToPrismaUpdateData updateData in
  if (Object_keys_length prismaData =? 0)%nat then
    currentProduct <- await findById id ;;
    match currentProduct with
    | None => throw (JsError ("Product #" ++ id ++ " not found for update check."))
    | Some p => ret p
    end
  else
    try_catch
      (updatedPrismaProduct <- await Prisma.product_update id prismaData ;;
       lift (mapToDomain_row updatedPrismaProduct))
      (fun error =>
         if code_is_P2025 error
         then throw (RpcException 404 ("Product with ID " ++ id ++ " not found for update."))
         else throw (RpcException 500 "Database error updating product.")).

Definition softDelete (id : string) : M Product.t :=
  try_catch
    (updatedPrismaProduct <-
       await Prisma.product_update id (Prisma.mkUpdateInput None None (Some false)) ;;
     lift (mapToDomain_row updatedPrismaProduct))
    (fun error =>
       if code_is_P2025 error
       then throw (RpcException 404 ("Product with ID " ++ id ++ " not found for deletion."))
       else throw (RpcException 500 "Database error deleting product.")).

Definition findAvailableByIds (ids : list string) : M (list Product.t) :=
  if (List.length ids =? 0)%nat then ret []
  else
    try_catch
      (let uniqueIds := Js.Array_from_Set ids in
       prismaProducts <- await Prisma.product_findMany_in uniqueIds ;;
       lift (map_throwing mapToDomain_row prismaProducts))
      (fun error => throw (RpcException 500 "Database error finding products by IDs.")).

End PrismaProductRepository.

(** ** The handlers *)

(** [catch (error) { if (error instanceof RpcException) throw error;
                     throw new RpcException({ ... }) }] *)
Definition rethrow_or_rewrap {A} (dflt : string) (error : exn) : M A :=
  if instanceof_RpcException error then throw error
  else throw (rewrap dflt error).

Module CreateProductHandler.

(** [randomUUID] is the value [randomUUID()] returns in this run. *)
Definition execute (randomUUID : string) (name : string) (price : Q) : M Product.t :=
  try_catch
    (let id := randomUUID in
     newProduct <- await PrismaProductRepository.create (mkCreateData id name price) ;;
     ret newProduct)
    (fun error => throw (rewrap "Failed to create product." error)).

End CreateProductHandler.

Module UpdateProductHandler.

Definition execute (id : string) (updateProductData : UpdateProductData) : M Product.t :=
  try_catch
    (existingProduct <- await PrismaProductRepository.findById id ;;
     match existingProduct with
     | None =>
         throw (RpcException 404 ("Product with id #" ++ id ++ " not found or not available"))
     | Some _ =>
         updatedProduct <- await PrismaProductRepository.update id updateProductData ;;
         ret updatedProduct
     end)
    (rethrow_or_rewrap "Failed to update product.").

End UpdateProductHandler.

Module DeleteProductHandler.

Definition execute (id : string) : M Product.t :=
  try_catch
    (existingProduct <- await PrismaProductRepository.findById id ;;
     match existingProduct with
     | None =>
         throw (RpcException 404
                  ("Product with id #" ++ id ++ " not found or already unavailable"))
     | Some _ =>
         deletedProduct <- await PrismaProductRepository.softDelete id ;;
         ret deletedProduct
     end)
    (rethrow_or_rewrap "Failed to delete product.").

End DeleteProductHandler.

Module FindOneProductHandler.

Definition execute (id : string) : M Product.t :=
  try_catch
    (product <- await PrismaProductRepository.findById id ;;
     match product with
     | None =>
         throw (RpcException 404 ("Product with id #" ++ id ++ " not found or not available"))
     | Some p => ret p
     end)
    (rethrow_or_rewrap "Failed to retrieve product.").

End FindOneProductHandler.

Module FindAllProductsHandler.

Definition execute (paginationDto : PaginationDto) : M PaginatedProductResult :=
  try_catch
    (paginatedResult <- await PrismaProductRepository.findAllAvailablePaginated paginationDto ;;
     ret paginatedResult)
    (fun error => throw (RpcException 500 "Database error finding products.")).

End FindAllProductsHandler.

Module ValidateProductsHandler.

Definition missing (uniqueIds : list string) (products : list Product.t) : list string :=
  let foundIds := map Product.id products in
  filter (fun id => negb (Js.includes foundIds id)) uniqueIds.

Definition execute (ids : list string) : M (list Product.t) :=
  let uniqueIds := Js.Array_from_Set ids in
  if (List.length uniqueIds =? 0)%nat then ret []
  else
    try_catch
      (products <- await PrismaProductRepository.findAvailableByIds uniqueIds ;;
       if negb (List.length products =? List.length uniqueIds)%nat then
         let missingIds := missing uniqueIds products in
         throw (RpcException 400
                  ("Some products were not found or are unavailable: "
                   ++ Js.join ", " missingIds))
       else ret products)
      (rethrow_or_rewrap "Failed to validate products.").

End ValidateProductsHandler.

(** ** The buses and the exception filter *)

(** A command or query as the controller builds it.  [CreateProduct]
    carries the identifier that [randomUUID()] yields when it runs. *)
Inductive Intent : Type :=
| CreateProduct (randomUUID name : string) (price : Q)
| FindAllProducts (paginationDto : PaginationDto)
| FindOneProduct (id : string)
| UpdateProduct (id : string) (updateProductData : UpdateProductData)
| DeleteProduct (id : string)
| ValidateProducts (ids : list string).

Inductive Reply : Type :=
| OneProduct (p : Product.t)
| Page (r : PaginatedProductResult)
| Products (ps : list Product.t).

Definition map_M {A B} (f : A -> B) (m : M A) : M B := x <- m ;; ret (f x).

(** [commandBus.execute] / [queryBus.execute]: one handler per intent. *)
Definition execute (i : Intent) : M Reply :=
  match i with
  | CreateProduct u n p => map_M OneProduct (CreateProductHandler.execute u n p)
  | FindAllProducts d => map_M Page (FindAllProductsHandler.execute d)
  | FindOneProduct id => map_M OneProduct (FindOneProductHandler.execute id)
  | UpdateProduct id d => map_M OneProduct (UpdateProductHandler.execute id d)
  | DeleteProduct id => map_M OneProduct (DeleteProductHandler.execute id)
  | ValidateProducts ids => map_M Products (ValidateProductsHandler.execute ids)
  end.

(** Running a list of intents one after the other; the replies and
    failures are dropped, the world is kept. *)
Definition run (intents : list Intent) (w : World) : World :=
  fold_left (fun w i => snd (execute i w)) intents w.

(** [AllExceptionsFilter.catch]: the status and message put on the wire
    (the timestamp is left out). *)
Definition AllExceptionsFilter_catch (exception : exn) : Z * string :=
  let status := 500 in
  let message := "Internal server error" in
  match exception with
  | RpcException s m => (num_or (Some s) status, Js.or_else m message)
  | JsError m => (status, m)
  | PrismaError c => (status, exn_message exception)
  end.

(** ** The controller and the validation of payloads *)

(** The payload of [update_product] (update-product.dto.ts):
    [UpdateProductDto extends PartialType(CreateProductDto)] with the
    [id]; [name] and [price] are optional. *)
Record UpdateProductDto : Type := mkUpdateDto {
  payload_id : string;
  payload_name : option string;
  payload_price : option Q
}.

(** [@Min(0)] *)
Definition Min (bound value : Q) : bool := Qle_bool bound value.

(** The constraints of [UpdateProductDto]: [@IsString() @IsUUID()] on
    [id] and, on a supplied [price], [@IsNumber({ maxDecimalPlaces: 4 })]
    and [@Min(0)], inherited from [CreateProductDto]; [@IsString()] on
    [name] holds of every string.  [IsUUID] and [IsNumber] are
    class-validator's predicates. *)
Definition validate_UpdateProductDto (IsUUID : string -> bool) (IsNumber : Q -> bool)
    (dto : UpdateProductDto) : bool :=
  IsUUID (payload_id dto)
  && match payload_price dto with
     | Some p => IsNumber p && Min 0 p
     | None => true
     end.

(** What the [ValidationPipe] throws at a payload that breaks a
    constraint: a [BadRequestException], an [Error] that is no
    [RpcException]. *)
Definition BadRequestException : exn := JsError "Bad Request Exception".

(** The global [ValidationPipe] (main.ts) stands before every method of
    the controller: a payload that breaks a constraint never reaches
    it. *)
Definition ValidationPipe_transform {A} (validate : A -> bool) (payload : A) : M A :=
  if validate payload then ret payload else throw BadRequestException.

Module ProductsController.

(** [update(@Payload() updateProductDto)]:
    [const { id, ...updateData } = updateProductDto;
     return this.commandBus.execute(new UpdateProductCommand(id, updateData))]. *)
Definition update (IsUUID : string -> bool) (IsNumber : Q -> bool)
    (payload : UpdateProductDto) : M Product.t :=
  updateProductDto <-
    ValidationPipe_transform (validate_UpdateProductDto IsUUID IsNumber) payload ;;
  let id := payload_id updateProductDto in
  let updateData := mkUpdateData (payload_name updateProductDto)
                                 (payload_price updateProductDto) in
  UpdateProductHandler.execute id updateData.

End ProductsController.

(** * The vocabulary of the properties *)

Unset Implicit Arguments.

(** ** Tables and worlds *)

(** The record as the domain sees it when its price passes the
    constructor's check. *)
Definition to_product (r : Row) : Product.t :=
  Product.mk (row_id r) (row_name r) (row_price r) (row_available r).

(** The available products, in the order of the table. *)
Definition available_products (t : list Row) : list Product.t :=
  map to_product (filter row_available t).

(** The available products in the order of their keys: what
    FindAllPaginated pages through. *)
Definition listing (t : list Row) : list Product.t :=
  map to_product (Prisma.order_by_id (filter row_available t)).

(** The key of [a] is not larger than that of [b]. *)
Definition key_le (a b : Row) : Prop := String.leb (row_id a) (row_id b) = true.

(** Keys strictly increasing along the list. *)
Definition in_key_order (ps : list Product.t) : Prop :=
  StronglySorted (fun p q => String.ltb (Product.id p) (Product.id q) = true) ps.

(** [p] put before the first product whose key is not smaller. *)
Fixpoint insert_in_key_order (p : Product.t) (ps : list Product.t) : list Product.t :=
  match ps with
  | [] => [p]
  | q :: rest =>
      if String.leb (Product.id p) (Product.id q) then p :: ps
      else q :: insert_in_key_order p rest
  end.

(** [Number.MAX_SAFE_INTEGER]: up to it every integer is a JavaScript
    number and [(page - 1) * limit] is exact. *)
Definition MAX_SAFE_INTEGER : Z := 9007199254740991.

(** No stored price is negative. *)
Definition prices_ok (t : list Row) : Prop :=
  Forall (fun r => (0 <= row_price r)%Q) t.

(** A well-formed table: [id] is a key, and no stored price is negative. *)
Definition wf_table (t : list Row) : Prop :=
  NoDup (map row_id t) /\ prices_ok t.

(** The engine answers the next [n] Prisma calls. *)
Definition no_outage (n : nat) (w : World) : Prop :=
  forallb negb (firstn n (outages w)) = true.

(** The engine fails on the next Prisma call. *)
Definition outage_next (w : World) : Prop := hd false (outages w) = true.

(** The world after one Prisma call that leaves the table alone. *)
Definition advance (c : Call) (w : World) : World :=
  mkWorld (table w) (tl (outages w)) (c :: log w).

(** No available record has key [id]: never created, or soft-deleted. *)
Definition absent (id : string) (t : list Row) : Prop :=
  forall r, In r t -> row_id r = id -> row_available r = false.

(** A record with key [id] exists and no record with that key is
    available: the product has been soft-deleted. *)
Definition deleted (id : string) (t : list Row) : Prop :=
  Prisma.has_id id t = true /\ absent id t.

(** The available products whose id is among [ids], in table order. *)
Definition found_for (ids : list string) (t : list Row) : list Product.t :=
  map to_product (filter (fun r => Js.includes ids (row_id r) && row_available r) t).

(** The rows of page [page] at [limit] rows a page: at most [limit]
    items from offset [(page - 1) * limit]. *)
Definition page_of (page limit : Z) (ps : list Product.t) : list Product.t :=
  firstn (Z.to_nat limit) (skipn (Z.to_nat ((page - 1) * limit)) ps).

(** ** Writes *)

(** The two kinds of write the Prisma client performs for this code: a
    new available record under an unused key, and an update that does not
    set [available] to [true].  [P] is what is known of the prices
    written. *)
Inductive write (P : Q -> Prop) : list Row -> list Row -> Prop :=
| write_insert t id n p :
    Prisma.has_id id t = false -> P p ->
    write P t (t ++ [mkRow id n p true])
| write_update t id d r' t' :
    Prisma.set_available d <> Some true ->
    (forall p, Prisma.set_price d = Some p -> P p) ->
    Prisma.update_where id d t = Some (r', t') ->
    write P t t'.

Inductive writes (P : Q -> Prop) : list Row -> list Row -> Prop :=
| writes_refl t : writes P t t
| writes_step t t' t'' : write P t t' -> writes P t' t'' -> writes P t t''.

(** A computation that changes the table by such writes only. *)
Definition only_writes (P : Q -> Prop) {A} (m : M A) : Prop :=
  forall w, writes P (table w) (table (snd (m w))).

Definition any_price (p : Q) : Prop := True.

Definition price_ok (p : Q) : Prop := (0 <= p)%Q.

(** What an intent asks to store as a price. *)
Definition intent_prices (P : Q -> Prop) (i : Intent) : Prop :=
  match i with
  | CreateProduct _ _ p => P p
  | UpdateProduct _ d => forall p, update_price d = Some p -> P p
  | _ => True
  end.

(** The intents that are queries. *)
Definition is_query (i : Intent) : bool :=
  match i with
  | FindAllProducts _ | FindOneProduct _ | ValidateProducts _ => true
  | CreateProduct _ _ _ | UpdateProduct _ _ | DeleteProduct _ => false
  end.

(** Record by record, the key stays and [available] does not come back. *)
Definition flags_only_fall (t t' : list Row) : Prop :=
  forall k r, nth_error t k = Some r ->
    exists r', nth_error t' k = Some r'
               /\ row_id r' = row_id r
               /\ (row_available r' = true -> row_available r = true).

(** The [data] of [softDelete]. *)
Definition mark_unavailable : Prisma.UpdateInput :=
  Prisma.mkUpdateInput None None (Some false).

(** [{}]: an update that supplies no field. *)
Definition no_changes : UpdateProductData := mkUpdateData None None.

(** ** Failures *)

Definition not_available_msg (id : string) : string :=
  "Product with id #" ++ id ++ " not found or not available".

Definition already_unavailable_msg (id : string) : string :=
  "Product with id #" ++ id ++ " not found or already unavailable".

Definition missing_msg (missingIds : list string) : string :=
  "Some products were not found or are unavailable: " ++ Js.join ", " missingIds.

Definition update_check_msg (id : string) : string :=
  "Product #" ++ id ++ " not found for update check.".

Definition update_404_msg (id : string) : string :=
  "Product with ID " ++ id ++ " not found for update.".

(** A failure that the exception filter puts on the wire with status
    404. *)
Definition NotFoundError (e : exn) : Prop := fst (AllExceptionsFilter_catch e) = 404.

(** The second half of C8 as it is stated: with the engine up, [update]
    answers [NotFoundError] whenever no record has the id. *)
Definition update_absent_is_NotFoundError : Prop :=
  forall (w : World) (id : string) (changes : UpdateProductData),
    no_outage 2 w -> Prisma.has_id id (table w) = false ->
    exists e, fst (PrismaProductRepository.update id changes w) = Throw e
              /\ NotFoundError e.


(** C1 as it is stated, for every [page] and every [limit] from 1 on:
    with the engine up and no negative stored price the request is
    answered, with the number of available products as [total]. *)
Definition pagination_law_for_every_limit : Prop :=
  forall (w : World) (page limit : Z),
    1 <= page -> 1 <= limit -> no_outage 1 w -> prices_ok (table w) ->
    exists r,
      fst (FindAllProductsHandler.execute (mkPagination (Some page) (Some limit)) w) = Ok r
      /\ total (meta r) = Z.of_nat (List.length (listing (table w))).

(** ** Sample worlds *)

(** Product "a" at price 10 is stored and available; the engine is up. *)
Definition world_a : World := mkWorld [mkRow "a" "A" (10 # 1) true] [] [].

(** The same table, and the engine fails on the next call. *)
Definition world_a_outage : World :=
  mkWorld [mkRow "a" "A" (10 # 1) true] [true] [].

(** Products "a" (price 10) and "b" (price 20), both available. *)
Definition world_ab : World :=
  mkWorld [mkRow "a" "A" (10 # 1) true; mkRow "b" "B" (20 # 1) true] [] [].

(** Products "a" and "b" are available, "c" has been soft-deleted. *)
Definition world_abc : World :=
  mkWorld [mkRow "a" "A" (10 # 1) true; mkRow "b" "B" (20 # 1) true;
           mkRow "c" "C" (30 # 1) false] [] [].

(** ** Further vocabulary: what a request leaves behind *)

(** The record of [r] after an update with [changes]. *)
Definition updated_row (changes : UpdateProductData) (r : Row) : Row :=
  Prisma.apply_update (PrismaProductRepository.mapToPrismaUpdateData changes) r.

(** The table after the record with key [id] has gone through [f]. *)
Definition rewrite_at (id : string) (f : Row -> Row) (t : list Row) : list Row :=
  map (fun x => if String.eqb id (row_id x) then f x else x) t.

(** Same length, and every record with a key other than [id] is where
    and what it was. *)
Definition same_elsewhere (id : string) (t t' : list Row) : Prop :=
  List.length t' = List.length t
  /\ forall k r, nth_error t k = Some r -> row_id r <> id -> nth_error t' k = Some r.

(** Every unavailable record is where and what it was. *)
Definition unavailable_frozen (t t' : list Row) : Prop :=
  forall k r, nth_error t k = Some r -> row_available r = false -> nth_error t' k = Some r.

(** The statuses with which each intent can fail. *)
Definition failure_statuses (i : Intent) : list Z :=
  match i with
  | CreateProduct _ _ _ => [500]
  | FindAllProducts _ => [500]
  | FindOneProduct _ => [404]
  | UpdateProduct _ _ => [404; 500]
  | DeleteProduct _ => [404; 500]
  | ValidateProducts _ => [400; 500]
  end.

(** The rows FindAllPaginated answers for a page, none when it fails. *)
Definition page_data (w : World) (page limit : Z) : list Product.t :=
  match fst (FindAllProductsHandler.execute (mkPagination (Some page) (Some limit)) w) with
  | Ok r => data r
  | Throw _ => []
  end.

(** Pages 1 to [n], one after the other. *)
Definition pages_upto (w : World) (limit : Z) (n : nat) : list Product.t :=
  List.concat (map (fun k => page_data w (Z.of_nat k) limit) (seq 1 n)).

(** The products other than the one with key [id]. *)
Definition without_id (id : string) (ps : list Product.t) : list Product.t :=
  filter (fun p => negb (String.eqb id (Product.id p))) ps.

(** A computation that makes at most [n] Prisma calls, all of them
    passing [allowed], and uses up one entry of the outage script for each. *)
Definition spends (n : nat) (allowed : Call -> bool) {A} (m : M A) : Prop :=
  forall w, exists calls,
    log (snd (m w)) = (calls ++ log w)%list
    /\ (List.length calls <= n)%nat
    /\ forallb allowed calls = true
    /\ outages (snd (m w)) = skipn (List.length calls) (outages w).

Definition any_call (c : Call) : bool := true.

Definition read_call (c : Call) : bool := negb (is_write c).

(** A computation whose exceptions all satisfy [S]. *)
Definition throws_only (S : exn -> Prop) {A} (m : M A) : Prop :=
  forall w e, fst (m w) = Throw e -> S e.

(** An [RpcException] with one of the given statuses, which the
    exception filter puts on the wire with that status and its own
    message. *)
Definition on_wire (statuses : list Z) (e : exn) : Prop :=
  exists status message,
    e = RpcException status message
    /\ In status statuses
    /\ AllExceptionsFilter_catch e = (status, message).

(** The most Prisma calls an intent may make, and the calls it may
    make: a query only reads. *)
Definition call_budget (i : Intent) : nat :=
  match i with
  | UpdateProduct _ _ | DeleteProduct _ => 2
  | _ => 1
  end.

Definition allowed_calls (i : Intent) : Call -> bool :=
  if is_query i then read_call else any_call.

(** * Properties *)

(** ** Arrays, sets and the page count *)

Module JsFacts.

Lemma includes_In (arr : list string) (x : string) :
  Js.includes arr x = true <-> In x arr.
Proof.
  unfold Js.includes. rewrite existsb_exists. split.
  - intros [y [Hy Heq]]. apply String.eqb_eq in Heq. now subst.
  - intros H. exists x. split; [assumption | apply String.eqb_refl].
Qed.

Lemma includes_false (arr : list string) (x : string) :
  Js.includes arr x = false <-> ~ In x arr.
Proof.
  rewrite <- includes_In. destruct (Js.includes arr x); split; congruence.
Qed.

(** Adding the values of [ids] to a set [acc] without repetition. *)
Lemma fold_Set_add_spec (ids acc : list string) :
  NoDup acc ->
  NoDup (fold_left Js.Set_add ids acc)
  /\ (forall x, In x (fold_left Js.Set_add ids acc) <-> In x acc \/ In x ids).
Proof.
  revert acc. induction ids as [|i ids IH]; intros acc Hnd; simpl.
  - split; [assumption | intros x; tauto].
  - assert (Hnd' : NoDup (Js.Set_add acc i)).
    { unfold Js.Set_add. destruct (Js.includes acc i) eqn:E; [assumption|].
      apply includes_false in E. apply NoDup_app; [assumption | repeat constructor; auto |].
      + intros x Hx [Hi|[]]. subst. contradiction. }
    destruct (IH _ Hnd') as [H1 H2]. split; [assumption|].
    intros x. rewrite H2. unfold Js.Set_add.
    destruct (Js.includes acc i) eqn:E.
    + apply includes_In in E. split; [tauto|]. intros [H|[H|H]]; subst; tauto.
    + rewrite in_app_iff. simpl. tauto.
Qed.

Lemma Array_from_Set_NoDup (ids : list string) : NoDup (Js.Array_from_Set ids).
Proof. apply fold_Set_add_spec. constructor. Qed.

Lemma Array_from_Set_In (ids : list string) (x : string) :
  In x (Js.Array_from_Set ids) <-> In x ids.
Proof.
  unfold Js.Array_from_Set.
  destruct (fold_Set_add_spec ids []) as [_ H]; [constructor|].
  rewrite H. simpl. tauto.
Qed.

(** A list without repetition goes through a set unchanged. *)
Lemma fold_Set_add_NoDup (ids acc : list string) :
  NoDup (acc ++ ids) -> fold_left Js.Set_add ids acc = (acc ++ ids)%list.
Proof.
  revert acc. induction ids as [|i ids IH]; intros acc Hnd; simpl.
  - now rewrite app_nil_r.
  - unfold Js.Set_add at 2. destruct (Js.includes acc i) eqn:E.
    + apply includes_In in E. apply NoDup_remove_2 in Hnd.
      exfalso. apply Hnd. apply in_or_app. now left.
    + rewrite IH; rewrite <- app_assoc; [reflexivity | exact Hnd].
Qed.

Lemma Array_from_Set_idem (ids : list string) :
  Js.Array_from_Set (Js.Array_from_Set ids) = Js.Array_from_Set ids.
Proof.
  unfold Js.Array_from_Set at 1.
  rewrite fold_Set_add_NoDup; [reflexivity|]. simpl. apply Array_from_Set_NoDup.
Qed.

Lemma Array_from_Set_nil (ids : list string) :
  Js.Array_from_Set ids = [] <-> ids = [].
Proof.
  split; [|intros ->; reflexivity].
  destruct ids as [|i ids]; [reflexivity|]. intros H.
  assert (Hin : In i (Js.Array_from_Set (i :: ids))).
  { apply Array_from_Set_In. now left. }
  rewrite H in Hin. destruct Hin.
Qed.

(** For a positive [limit], [Math.ceil(total / limit)] is the least
    number of pages of [limit] rows that hold [total] rows. *)
Lemma Math_ceil_div_pos (total limit : Z) :
  1 <= limit ->
  exists lp, Js.Math_ceil_div total limit = Js.Int lp
             /\ (lp - 1) * limit < total <= lp * limit.
Proof.
  intros Hl. unfold Js.Math_ceil_div.
  destruct (Z.eqb_spec limit 0) as [->|_]; [lia|].
  eexists. split; [reflexivity|].
  pose proof (Z.div_mod (- total) limit ltac:(lia)) as Hdm.
  pose proof (Z.mod_pos_bound (- total) limit ltac:(lia)) as Hb.
  nia.
Qed.

End JsFacts.

(** ** The table *)

Module TableFacts.

Lemma has_id_In (id : string) (t : list Row) :
  Prisma.has_id id t = true <-> In id (map row_id t).
Proof.
  unfold Prisma.has_id. rewrite existsb_exists, in_map_iff. split.
  - intros [r [Hr He]]. apply String.eqb_eq in He. exists r. auto.
  - intros [r [He Hr]]. exists r. split; [assumption|]. subst. apply String.eqb_refl.
Qed.

Lemma has_id_false (id : string) (t : list Row) :
  Prisma.has_id id t = false <-> ~ In id (map row_id t).
Proof.
  rewrite <- has_id_In. destruct (Prisma.has_id id t); split; congruence.
Qed.

Lemma mapToDomain_row_ok (r : Row) :
  (0 <= row_price r)%Q ->
  PrismaProductRepository.mapToDomain_row r = Ok (to_product r).
Proof.
  intros H. unfold PrismaProductRepository.mapToDomain_row, Product.new.
  destruct (Qlt_le_dec (row_price r) 0) as [Hlt|_]; [|reflexivity].
  exfalso. exact (Qlt_not_le _ _ Hlt H).
Qed.

Lemma mapToDomain_row_neg (r : Row) :
  (row_price r < 0)%Q ->
  PrismaProductRepository.mapToDomain_row r
  = Throw (JsError "Product price cannot be negative.").
Proof.
  intros H. unfold PrismaProductRepository.mapToDomain_row, Product.new.
  destruct (Qlt_le_dec (row_price r) 0) as [_|Hle]; [reflexivity|].
  exfalso. exact (Qlt_not_le _ _ H Hle).
Qed.

Lemma map_throwing_ok (rows : list Row) :
  prices_ok rows ->
  map_throwing PrismaProductRepository.mapToDomain_row rows = Ok (map to_product rows).
Proof.
  induction 1 as [|r rows Hr _ IH]; simpl; [reflexivity|].
  now rewrite (mapToDomain_row_ok r Hr), IH.
Qed.

Lemma map_throwing_Ok (rows : list Row) ps :
  map_throwing PrismaProductRepository.mapToDomain_row rows = Ok ps ->
  ps = map to_product rows /\ prices_ok rows.
Proof.
  revert ps. induction rows as [|x rows IH]; simpl; intros ps H.
  - inversion H. split; [reflexivity | constructor].
  - unfold PrismaProductRepository.mapToDomain_row at 1, Product.new in H.
    destruct (Qlt_le_dec (row_price x) 0) as [|Hle]; [discriminate|].
    destruct (map_throwing _ rows) as [qs|]; [|discriminate].
    destruct (IH qs eq_refl) as [-> Hp]. inversion H.
    split; [reflexivity | constructor; assumption].
Qed.

Lemma prices_ok_filter (f : Row -> bool) (t : list Row) :
  prices_ok t -> prices_ok (filter f t).
Proof.
  unfold prices_ok. rewrite !Forall_forall. intros H r Hr.
  apply filter_In in Hr. apply H, Hr.
Qed.

Lemma prices_ok_firstn (n : nat) (t : list Row) : prices_ok t -> prices_ok (firstn n t).
Proof.
  unfold prices_ok. rewrite !Forall_forall. intros H r Hr.
  apply H. rewrite <- (firstn_skipn n t). apply in_or_app. now left.
Qed.

Lemma prices_ok_skipn (n : nat) (t : list Row) : prices_ok t -> prices_ok (skipn n t).
Proof.
  unfold prices_ok. rewrite !Forall_forall. intros H r Hr.
  apply H. rewrite <- (firstn_skipn n t). apply in_or_app. now right.
Qed.

(** With [id] a key, the lookup of an available record finds it. *)
Lemma find_available (t : list Row) (r : Row) :
  NoDup (map row_id t) -> In r t -> row_available r = true ->
  find (fun x => String.eqb (row_id r) (row_id x) && row_available x) t = Some r.
Proof.
  induction t as [|x t IH]; simpl; intros Hnd Hin Hav; [contradiction|].
  inversion Hnd as [|? ? Hx Hnd']; subst.
  destruct Hin as [->|Hin].
  - now rewrite String.eqb_refl, Hav.
  - destruct (String.eqb_spec (row_id r) (row_id x)) as [E|_]; simpl; [|now apply IH].
    exfalso. apply Hx. rewrite <- E. now apply in_map.
Qed.

Lemma find_absent (id : string) (t : list Row) :
  absent id t ->
  find (fun x => String.eqb id (row_id x) && row_available x) t = None.
Proof.
  intros H. destruct (find _ t) as [r|] eqn:E; [|reflexivity].
  apply find_some in E. destruct E as [Hin Hb].
  apply andb_true_iff in Hb. destruct Hb as [He Ha].
  apply String.eqb_eq in He. rewrite (H r Hin (eq_sym He)) in Ha. discriminate.
Qed.

Lemma deleted_absent (id : string) (t : list Row) : deleted id t -> absent id t.
Proof. now intros [_ H]. Qed.

Lemma update_where_ids id d t r' t' :
  Prisma.update_where id d t = Some (r', t') -> map row_id t' = map row_id t.
Proof.
  revert r' t'. induction t as [|x t IH]; simpl; intros r' t' H; [discriminate|].
  destruct (String.eqb id (row_id x)).
  - inversion H; subst. reflexivity.
  - destruct (Prisma.update_where id d t) as [[r1 t1]|]; [|discriminate].
    inversion H; subst. simpl. f_equal. eapply IH. reflexivity.
Qed.

Lemma update_where_In id d t r' t' :
  Prisma.update_where id d t = Some (r', t') ->
  forall x, In x t' -> In x t \/ exists r0, In r0 t /\ x = Prisma.apply_update d r0.
Proof.
  revert r' t'. induction t as [|y t IH]; simpl; intros r' t' H; [discriminate|].
  destruct (String.eqb id (row_id y)).
  - inversion H; subst. intros x [<-|Hx]; [right; exists y; auto | left; auto].
  - destruct (Prisma.update_where id d t) as [[r1 t1]|]; [|discriminate].
    inversion H; subst. intros x [<-|Hx]; [left; auto|].
    destruct (IH _ _ eq_refl x Hx) as [Hin|[r0 [Hin He]]]; [left; auto|].
    right. exists r0. auto.
Qed.

Lemma update_where_None id d t :
  Prisma.has_id id t = false -> Prisma.update_where id d t = None.
Proof.
  induction t as [|x t IH]; simpl; [reflexivity|].
  destruct (String.eqb id (row_id x)); simpl; [discriminate|].
  intros H. now rewrite (IH H).
Qed.

(** With [id] a key, updating the record of [r] yields its update. *)
Lemma update_where_Some d t r :
  In r t -> NoDup (map row_id t) ->
  exists t', Prisma.update_where (row_id r) d t = Some (Prisma.apply_update d r, t').
Proof.
  induction t as [|x t IH]; simpl; intros Hin Hnd; [contradiction|].
  inversion Hnd as [|? ? Hx Hnd']; subst.
  destruct (String.eqb_spec (row_id r) (row_id x)) as [E|NE].
  - destruct Hin as [->|Hin]; [eexists; reflexivity|].
    exfalso. apply Hx. rewrite <- E. now apply in_map.
  - destruct Hin as [->|Hin]; [congruence|].
    destruct (IH Hin Hnd') as [t' ->]. eexists. reflexivity.
Qed.

Lemma update_where_nth id d t r' t' :
  Prisma.update_where id d t = Some (r', t') ->
  forall k r, nth_error t k = Some r ->
    exists x, nth_error t' k = Some x /\ (x = r \/ x = Prisma.apply_update d r).
Proof.
  revert r' t'. induction t as [|y t IH]; simpl; intros r' t' H; [discriminate|].
  destruct (String.eqb id (row_id y)).
  - inversion H; subst. intros [|k] r Hk; simpl in *.
    + inversion Hk; subst. eexists. split; [reflexivity | now right].
    + exists r. auto.
  - destruct (Prisma.update_where id d t) as [[r1 t1]|]; [|discriminate].
    inversion H; subst. intros [|k] r Hk; simpl in *.
    + exists r. auto.
    + eapply IH; [reflexivity | eassumption].
Qed.

Lemma update_where_map id d t r' t' :
  NoDup (map row_id t) -> Prisma.update_where id d t = Some (r', t') ->
  t' = map (fun x => if String.eqb id (row_id x) then Prisma.apply_update d x else x) t.
Proof.
  revert r' t'. induction t as [|y t IH]; simpl; intros r' t' Hnd H; [discriminate|].
  inversion Hnd as [|? ? Hy Hnd']; subst.
  destruct (String.eqb_spec id (row_id y)) as [E|NE].
  - inversion H; subst. f_equal. symmetry. rewrite <- (map_id t) at 2.
    apply map_ext_in. intros x Hx.
    destruct (String.eqb_spec (row_id y) (row_id x)) as [E|_]; [|reflexivity].
    exfalso. apply Hy. rewrite E. now apply in_map.
  - destruct (Prisma.update_where id d t) as [[r1 t1]|] eqn:E; [|discriminate].
    inversion H; subst. f_equal. now apply (IH r').
Qed.

Lemma apply_update_available d r :
  Prisma.set_available d <> Some true ->
  row_available (Prisma.apply_update d r) = true -> row_available r = true.
Proof.
  unfold Prisma.apply_update. simpl.
  destruct (Prisma.set_available d) as [[|]|]; congruence.
Qed.

Lemma writes_trans P t1 t2 t3 : writes P t1 t2 -> writes P t2 t3 -> writes P t1 t3.
Proof.
  induction 1 as [|? ? ? Hw _ IH]; [auto|]. intros H. eapply writes_step; eauto.
Qed.

Lemma writes_one P t t' : write P t t' -> writes P t t'.
Proof. intros H. eapply writes_step; [eassumption | apply writes_refl]. Qed.

(** *** What no write undoes *)

Lemma write_keeps_key P t t' :
  write P t t' -> NoDup (map row_id t) -> NoDup (map row_id t').
Proof.
  intros [t0 id n p Hid _ | t0 id d r' t1 _ _ Hu] Hnd.
  - rewrite map_app. simpl. apply NoDup_app; [assumption | repeat constructor; auto |].
    intros x Hx [<-|[]]. apply has_id_false in Hid. contradiction.
  - now rewrite (update_where_ids _ _ _ _ _ Hu).
Qed.

Lemma write_keeps_deleted P id t t' : write P t t' -> deleted id t -> deleted id t'.
Proof.
  intros [t0 id' n p Hid _ | t0 id' d r' t1 Hd _ Hu] [Hhas Hall]; split.
  - apply has_id_In. rewrite map_app. apply in_or_app. left. now apply has_id_In.
  - intros r Hr He. apply in_app_or in Hr. destruct Hr as [Hr|[<-|[]]]; [now apply Hall|].
    simpl in He. subst id'. congruence.
  - apply has_id_In. rewrite (update_where_ids _ _ _ _ _ Hu). now apply has_id_In.
  - intros r Hr He.
    destruct (update_where_In _ _ _ _ _ Hu r Hr) as [Hin|[r0 [Hin ->]]]; [now apply Hall|].
    destruct (row_available (Prisma.apply_update d r0)) eqn:E; [|reflexivity].
    apply (apply_update_available _ _ Hd) in E.
    rewrite (Hall r0 Hin He) in E. discriminate.
Qed.

Lemma write_flags P t t' : write P t t' -> flags_only_fall t t'.
Proof.
  intros [t0 id n p Hid _ | t0 id d r' t1 Hd _ Hu] k r Hk.
  - exists r. split; [|auto]. rewrite nth_error_app1; [assumption|].
    apply nth_error_Some. congruence.
  - destruct (update_where_nth _ _ _ _ _ Hu _ _ Hk) as [x [Hx [->| ->]]].
    + exists r. auto.
    + eexists. split; [eassumption|]. split; [reflexivity|].
      now apply apply_update_available.
Qed.

Lemma write_keeps_prices t t' : write price_ok t t' -> prices_ok t -> prices_ok t'.
Proof.
  unfold prices_ok. intros [t0 id n p _ Hp | t0 id d r' t1 _ Hp Hu] H.
  - apply Forall_app. split; [assumption | repeat constructor; exact Hp].
  - rewrite Forall_forall in H |- *. intros x Hx.
    destruct (update_where_In _ _ _ _ _ Hu x Hx) as [Hin|[r0 [Hin ->]]]; [now apply H|].
    unfold Prisma.apply_update. simpl.
    destruct (Prisma.set_price d) as [p|] eqn:E; [now apply Hp | now apply H].
Qed.

End TableFacts.

(** ** Every handler changes the table by writes only *)

Module WriteFacts.
Import TableFacts.

Section Writes.
Variable P : Q -> Prop.

Lemma only_writes_ret {A} (a : A) : only_writes P (ret a).
Proof. intros w. apply writes_refl. Qed.

Lemma only_writes_throw {A} (e : exn) : only_writes P (@throw A e).
Proof. intros w. apply writes_refl. Qed.

Lemma only_writes_lift {A} (r : Result A) : only_writes P (lift r).
Proof. intros w. apply writes_refl. Qed.

Lemma only_writes_bind {A B} (m : M A) (k : A -> M B) :
  only_writes P m -> (forall a, only_writes P (k a)) -> only_writes P (bind m k).
Proof.
  intros Hm Hk w. unfold bind. specialize (Hm w).
  destruct (m w) as [[a|e] w']; simpl in *; [|assumption].
  eapply writes_trans; [eassumption | apply Hk].
Qed.

Lemma only_writes_try_catch {A} (m : M A) (h : exn -> M A) :
  only_writes P m -> (forall e, only_writes P (h e)) -> only_writes P (try_catch m h).
Proof.
  intros Hm Hh w. unfold try_catch. specialize (Hm w).
  destruct (m w) as [[a|e] w']; simpl in *; [assumption|].
  eapply writes_trans; [eassumption | apply Hh].
Qed.

Lemma only_writes_call (c : Call) : only_writes P (Prisma.call c).
Proof.
  intros w. unfold Prisma.call.
  destruct (outages w) as [|[|] ?]; simpl; apply writes_refl.
Qed.

Lemma only_writes_get_table : only_writes P Prisma.get_table.
Proof. intros w. apply writes_refl. Qed.

Ltac step_only_writes :=
  first
    [ apply only_writes_ret
    | apply only_writes_throw
    | apply only_writes_lift
    | apply only_writes_call
    | apply only_writes_get_table
    | apply only_writes_bind; [|intros ?]
    | apply only_writes_try_catch; [|intros ?]
    | match goal with
      | |- only_writes _ (match ?x with _ => _ end) => destruct x
      end ].

Lemma only_writes_create id n p : P p -> only_writes P (Prisma.product_create id n p).
Proof.
  intros Hp w. unfold Prisma.product_create, bind, Prisma.call, Prisma.get_table.
  destruct (outages w) as [|[|] ?]; simpl; try apply writes_refl;
    (destruct (Prisma.has_id id (table w)) eqn:E; simpl;
     [apply writes_refl | apply writes_one; now constructor]).
Qed.

Lemma only_writes_update id d :
  Prisma.set_available d <> Some true ->
  (forall p, Prisma.set_price d = Some p -> P p) ->
  only_writes P (Prisma.product_update id d).
Proof.
  intros Hd Hp w. unfold Prisma.product_update, bind, Prisma.call, Prisma.get_table.
  destruct (outages w) as [|[|] ?]; simpl; try apply writes_refl;
    (destruct (Prisma.update_where id d (table w)) as [[r' t']|] eqn:E; simpl;
     [apply writes_one; econstructor; eassumption | apply writes_refl]).
Qed.

Lemma only_writes_findFirst id : only_writes P (Prisma.product_findFirst_available id).
Proof. unfold Prisma.product_findFirst_available. repeat step_only_writes. Qed.

Lemma only_writes_transaction skip take :
  only_writes P (Prisma.transaction_count_findMany skip take).
Proof. unfold Prisma.transaction_count_findMany. repeat step_only_writes. Qed.

Lemma only_writes_findMany ids : only_writes P (Prisma.product_findMany_in ids).
Proof. unfold Prisma.product_findMany_in. repeat step_only_writes. Qed.

Ltac handler_only_writes :=
  repeat first
    [ apply only_writes_create; assumption
    | apply only_writes_findFirst
    | apply only_writes_transaction
    | apply only_writes_findMany
    | apply only_writes_update; simpl; [congruence | first [assumption | discriminate]]
    | step_only_writes ].

Lemma only_writes_findById id : only_writes P (PrismaProductRepository.findById id).
Proof. unfold PrismaProductRepository.findById. handler_only_writes. Qed.

Lemma only_writes_repo_update id d :
  (forall p, update_price d = Some p -> P p) ->
  only_writes P (PrismaProductRepository.update id d).
Proof.
  intros Hp. unfold PrismaProductRepository.update.
  destruct (_ =? 0)%nat; [|handler_only_writes].
  apply only_writes_bind; [apply only_writes_findById | intros [p|]; handler_only_writes].
Qed.

Lemma only_writes_rethrow {A} dflt e : only_writes P (@rethrow_or_rewrap A dflt e).
Proof. unfold rethrow_or_rewrap. handler_only_writes. Qed.

(** Whatever the intent and the outages, the table moves by writes,
    and the prices written are those of the intent. *)
Lemma execute_only_writes (i : Intent) : intent_prices P i -> only_writes P (execute i).
Proof.
  destruct i; unfold execute, map_M; simpl; intros Hp;
    (apply only_writes_bind; [|intros ?; apply only_writes_ret]).
  - unfold CreateProductHandler.execute, PrismaProductRepository.create.
    handler_only_writes.
  - unfold FindAllProductsHandler.execute,
      PrismaProductRepository.findAllAvailablePaginated.
    handler_only_writes.
  - unfold FindOneProductHandler.execute.
    apply only_writes_try_catch; [|intros ?; apply only_writes_rethrow].
    apply only_writes_bind; [apply only_writes_findById | intros [p|]; handler_only_writes].
  - unfold UpdateProductHandler.execute.
    apply only_writes_try_catch; [|intros ?; apply only_writes_rethrow].
    apply only_writes_bind; [apply only_writes_findById | intros [p|]]; [|handler_only_writes].
    apply only_writes_bind;
      [apply only_writes_repo_update; exact Hp | intros ?; apply only_writes_ret].
  - unfold DeleteProductHandler.execute, PrismaProductRepository.softDelete.
    apply only_writes_try_catch; [|intros ?; apply only_writes_rethrow].
    apply only_writes_bind; [apply only_writes_findById | intros [p|]]; handler_only_writes.
  - unfold ValidateProductsHandler.execute, PrismaProductRepository.findAvailableByIds.
    cbv zeta. destruct (_ =? 0)%nat; [apply only_writes_ret|].
    apply only_writes_try_catch; [|intros ?; apply only_writes_rethrow].
    apply only_writes_bind; [|intros ?; handler_only_writes].
    handler_only_writes.
Qed.

Lemma run_writes (intents : list Intent) (w : World) :
  Forall (intent_prices P) intents -> writes P (table w) (table (run intents w)).
Proof.
  intros H. revert w. induction H as [|i intents Hi _ IH]; intros w.
  - apply writes_refl.
  - exact (writes_trans _ _ _ _ (execute_only_writes i Hi w) (IH _)).
Qed.

Lemma writes_keep_key t t' :
  writes P t t' -> NoDup (map row_id t) -> NoDup (map row_id t').
Proof. induction 1; eauto using write_keeps_key. Qed.

Lemma writes_keep_deleted id t t' : writes P t t' -> deleted id t -> deleted id t'.
Proof. induction 1; eauto using write_keeps_deleted. Qed.

Lemma writes_flags t t' : writes P t t' -> flags_only_fall t t'.
Proof.
  induction 1 as [t|t t' t'' Hw _ IH].
  - intros k r Hk. exists r. auto.
  - intros k r Hk.
    destruct (write_flags _ _ _ Hw k r Hk) as [r1 [Hk1 [Hid1 Hav1]]].
    destruct (IH k r1 Hk1) as [r2 [Hk2 [Hid2 Hav2]]].
    exists r2. split; [assumption|]. split; [congruence | auto].
Qed.

End Writes.

Lemma any_intent (i : Intent) : intent_prices any_price i.
Proof. destruct i; simpl; unfold any_price; auto. Qed.

Lemma any_intents (intents : list Intent) : Forall (intent_prices any_price) intents.
Proof. apply Forall_forall. intros i _. apply any_intent. Qed.

Lemma writes_keep_prices t t' : writes price_ok t t' -> prices_ok t -> prices_ok t'.
Proof. induction 1; eauto using write_keeps_prices. Qed.

(** A well-formed table stays so under intents whose prices are not
    negative, whatever the outages. *)
Lemma wf_table_run (intents : list Intent) (w : World) :
  Forall (intent_prices price_ok) intents ->
  wf_table (table w) -> wf_table (table (run intents w)).
Proof.
  intros Hi [Hnd Hp]. pose proof (run_writes price_ok intents w Hi) as Hw. split.
  - eapply writes_keep_key; eassumption.
  - eapply writes_keep_prices; eassumption.
Qed.

(** So is every table reached from the empty one. *)
Lemma wf_table_reached (intents : list Intent) (o : list bool) (l : list Call) :
  Forall (intent_prices price_ok) intents ->
  wf_table (table (run intents (mkWorld [] o l))).
Proof.
  intros Hi. apply wf_table_run; [exact Hi|]. split; constructor.
Qed.

End WriteFacts.

(** ** Running the Prisma calls and [findById] *)

Module RunFacts.
Import TableFacts.

Lemma no_outage_hd n w : no_outage (S n) w -> hd false (outages w) = false.
Proof.
  unfold no_outage. destruct (outages w) as [|[|] ?]; simpl; auto; discriminate.
Qed.

Lemma no_outage_advance n c w : no_outage (S n) w -> no_outage n (advance c w).
Proof.
  unfold no_outage, advance. simpl.
  destruct (outages w) as [|[|] ?]; simpl; auto; [|discriminate].
  intros _. now destruct n.
Qed.

Lemma call_ok c w : hd false (outages w) = false -> Prisma.call c w = (Ok tt, advance c w).
Proof.
  unfold Prisma.call, advance. destruct (outages w) as [|[|] ?]; simpl; auto; discriminate.
Qed.

Lemma call_outage c w :
  outage_next w -> Prisma.call c w = (Throw (PrismaError POther), advance c w).
Proof.
  unfold outage_next, Prisma.call, advance.
  destruct (outages w) as [|[|] ?]; simpl; auto; discriminate.
Qed.

Lemma call_cases c w :
  Prisma.call c w = (Ok tt, advance c w)
  \/ Prisma.call c w = (Throw (PrismaError POther), advance c w).
Proof.
  unfold Prisma.call, advance. destruct (outages w) as [|[|] ?]; simpl; auto.
Qed.

(** [findById] returns, whatever the world: it makes one read and
    leaves the table as it is. *)
Lemma findById_returns id w :
  exists o, PrismaProductRepository.findById id w = (Ok o, advance call_findFirst w).
Proof.
  unfold PrismaProductRepository.findById, Prisma.product_findFirst_available,
    try_catch, bind.
  destruct (call_cases call_findFirst w) as [-> | ->]; simpl;
    [|eexists; reflexivity].
  unfold lift, ret, PrismaProductRepository.mapToDomain.
  destruct (find _ (table w)) as [r|]; [|eexists; reflexivity].
  destruct (PrismaProductRepository.mapToDomain_row r); eexists; reflexivity.
Qed.

Lemma findById_outage id w :
  outage_next w ->
  PrismaProductRepository.findById id w = (Ok None, advance call_findFirst w).
Proof.
  intros H. unfold PrismaProductRepository.findById,
    Prisma.product_findFirst_available, try_catch, bind.
  now rewrite (call_outage _ _ H).
Qed.

Lemma findById_absent id w :
  absent id (table w) ->
  PrismaProductRepository.findById id w = (Ok None, advance call_findFirst w).
Proof.
  intros H. unfold PrismaProductRepository.findById,
    Prisma.product_findFirst_available, try_catch, bind.
  destruct (call_cases call_findFirst w) as [-> | ->]; simpl; [|reflexivity].
  now rewrite (find_absent _ _ H).
Qed.

Lemma findById_found r w :
  wf_table (table w) -> hd false (outages w) = false ->
  In r (table w) -> row_available r = true ->
  PrismaProductRepository.findById (row_id r) w
  = (Ok (Some (to_product r)), advance call_findFirst w).
Proof.
  intros [Hnd Hp] Ho Hin Hav. unfold PrismaProductRepository.findById,
    Prisma.product_findFirst_available, try_catch, bind.
  rewrite (call_ok _ _ Ho). simpl.
  rewrite (find_available _ _ Hnd Hin Hav).
  unfold lift, PrismaProductRepository.mapToDomain.
  rewrite mapToDomain_row_ok; [reflexivity|].
  unfold prices_ok in Hp. rewrite Forall_forall in Hp. now apply Hp.
Qed.

(** A handler that looks the product up and gets [null] answers 404
    and goes no further. *)
Lemma lookup_404 {A} (id msg dflt : string) (k : Product.t -> M A) w :
  PrismaProductRepository.findById id w = (Ok None, advance call_findFirst w) ->
  try_catch
    (existing <- PrismaProductRepository.findById id ;;
     match existing with
     | None => throw (RpcException 404 msg)
     | Some p => k p
     end)
    (rethrow_or_rewrap dflt) w
  = (Throw (RpcException 404 msg), advance call_findFirst w).
Proof. intros H. unfold try_catch, bind. now rewrite H. Qed.

End RunFacts.

(** ** Lookup failures (C10) *)



(** ** Soft delete (C3) *)

Module DeleteFacts.
Import TableFacts RunFacts.

(** After the record of [r] is marked, its key counts as deleted. *)
Lemma update_where_deleted t r r' t' :
  NoDup (map row_id t) -> In r t ->
  Prisma.update_where (row_id r) mark_unavailable t = Some (r', t') ->
  deleted (row_id r) t'.
Proof.
  intros Hnd Hin Hu. split.
  - apply has_id_In. rewrite (update_where_ids _ _ _ _ _ Hu). now apply in_map.
  - intros x Hx He. rewrite (update_where_map _ _ _ _ _ Hnd Hu) in Hx.
    apply in_map_iff in Hx. destruct Hx as [y [Hy _]].
    destruct (String.eqb_spec (row_id r) (row_id y)) as [_|NE].
    + now subst x.
    + subst x. congruence.
Qed.

Lemma softDelete_ok r w :
  wf_table (table w) -> hd false (outages w) = false ->
  In r (table w) ->
  exists t',
    PrismaProductRepository.softDelete (row_id r) w
    = (Ok (Product.mk (row_id r) (row_name r) (row_price r) false),
       mkWorld t' (tl (outages w)) (call_update :: log w))
    /\ deleted (row_id r) t'.
Proof.
  intros [Hnd Hp] Ho Hin.
  destruct (update_where_Some mark_unavailable _ _ Hin Hnd) as [t' Hu].
  exists t'. split; [|eapply update_where_deleted; eassumption].
  unfold PrismaProductRepository.softDelete, Prisma.product_update, try_catch, bind.
  rewrite (call_ok _ _ Ho). simpl. fold mark_unavailable. rewrite Hu. simpl.
  unfold lift. rewrite mapToDomain_row_ok; [reflexivity|].
  simpl. unfold prices_ok in Hp. rewrite Forall_forall in Hp. now apply Hp.
Qed.

Lemma delete_ok r w :
  wf_table (table w) -> no_outage 2 w ->
  In r (table w) -> row_available r = true ->
  exists t',
    DeleteProductHandler.execute (row_id r) w
    = (Ok (Product.mk (row_id r) (row_name r) (row_price r) false),
       mkWorld t' (tl (tl (outages w))) (call_update :: call_findFirst :: log w))
    /\ deleted (row_id r) t'.
Proof.
  intros Hwf Ho Hin Hav.
  pose proof (findById_found r w Hwf (no_outage_hd _ _ Ho) Hin Hav) as Hf.
  destruct (softDelete_ok r (advance call_findFirst w)) as [t' [Hs Hd]];
    [exact Hwf | exact (no_outage_hd _ _ (no_outage_advance _ call_findFirst _ Ho)) | exact Hin |].
  exists t'. split; [|exact Hd].
  unfold DeleteProductHandler.execute, try_catch, bind.
  rewrite Hf. unfold bind in Hs |- *. rewrite Hs. reflexivity.
Qed.

Lemma delete_absent id w :
  absent id (table w) ->
  DeleteProductHandler.execute id w
  = (Throw (RpcException 404 (already_unavailable_msg id)), advance call_findFirst w).
Proof.
  intros H. unfold DeleteProductHandler.execute.
  apply lookup_404. now apply findById_absent.
Qed.

End DeleteFacts.

(** C3.  On a well-formed table with the engine up, Delete of an
    available product succeeds once and returns it with
    [available = false]; from then on, whatever intents run in between,
    every Delete of the same id fails with the 404 exception.  Delete of
    an id that no available record has (never created, or unavailable)
    fails with the 404 exception and makes no write.  And no intent ever
    turns [available] from [false] back to [true]. *)
Theorem C3_delete_succeeds_once (w : World) (id : string) :
  (forall r,
     wf_table (table w) -> no_outage 2 w ->
     In r (table w) -> row_id r = id -> row_available r = true ->
     exists w',
       DeleteProductHandler.execute id w
       = (Ok (Product.mk id (row_name r) (row_price r) false), w')
       /\ deleted id (table w')
       /\ forall later,
            fst (DeleteProductHandler.execute id (run later w'))
            = Throw (RpcException 404 (already_unavailable_msg id)))
  /\ (absent id (table w) ->
      DeleteProductHandler.execute id w
      = (Throw (RpcException 404 (already_unavailable_msg id)), advance call_findFirst w))
  /\ (forall i, flags_only_fall (table w) (table (snd (execute i w)))).
Proof.
  split; [|split].
  - intros r Hwf Ho Hin <- Hav.
    destruct (DeleteFacts.delete_ok r w Hwf Ho Hin Hav) as [t' [Hex Hd]].
    eexists. split; [exact Hex|]. split; [exact Hd|].
    intros later. rewrite DeleteFacts.delete_absent; [reflexivity|].
    apply TableFacts.deleted_absent.
    eapply WriteFacts.writes_keep_deleted;
      [apply (WriteFacts.run_writes any_price), WriteFacts.any_intents | exact Hd].
  - apply DeleteFacts.delete_absent.
  - intros i. apply (WriteFacts.writes_flags any_price).
    apply WriteFacts.execute_only_writes, WriteFacts.any_intent.
Qed.

Lemma wf_world_a : wf_table (table world_a).
Proof.
  split.
  - repeat constructor. simpl. tauto.
  - repeat constructor. discriminate.
Qed.

Lemma C3_delete_succeeds_once_witness :
  wf_table (table world_a) /\ no_outage 2 world_a
  /\ exists w',
       DeleteProductHandler.execute "a" world_a
       = (Ok (Product.mk "a" "A" (10 # 1) false), w')
       /\ fst (DeleteProductHandler.execute "a" (run [FindOneProduct "a"] w'))
          = Throw (RpcException 404 "Product with id #a not found or already unavailable").
Proof.
  split; [exact wf_world_a|]. split; [reflexivity|].
  destruct (C3_delete_succeeds_once world_a "a") as [H _].
  destruct (H (mkRow "a" "A" (10 # 1) true) wf_world_a eq_refl
              (or_introl eq_refl) eq_refl eq_refl) as [w' [Hex [_ Hlater]]].
  exists w'. split; [exact Hex | exact (Hlater [FindOneProduct "a"])].
Defined.

(** ** The key order of the listing *)

Module OrderFacts.

Lemma ascii_compare_lt_trans (x y z : ascii) :
  Ascii.compare x y = Lt -> Ascii.compare y z = Lt -> Ascii.compare x z = Lt.
Proof. unfold Ascii.compare. rewrite !N.compare_lt_iff. lia. Qed.

Lemma compare_lt_trans (a b c : string) :
  String.compare a b = Lt -> String.compare b c = Lt -> String.compare a c = Lt.
Proof.
  revert b c. induction a as [|x a IH]; intros [|y b] [|z c]; simpl;
    try congruence.
  destruct (Ascii.compare x y) eqn:Hxy; try discriminate;
    destruct (Ascii.compare y z) eqn:Hyz; try discriminate.
  - apply Ascii.compare_eq_iff in Hxy, Hyz. subst.
    unfold Ascii.compare. rewrite N.compare_refl. apply IH.
  - apply Ascii.compare_eq_iff in Hxy. subst. now rewrite Hyz.
  - apply Ascii.compare_eq_iff in Hyz. subst. now rewrite Hxy.
  - now rewrite (ascii_compare_lt_trans _ _ _ Hxy Hyz).
Qed.

Lemma compare_refl (a : string) : String.compare a a = Eq.
Proof.
  induction a as [|x a IH]; simpl; [reflexivity|].
  unfold Ascii.compare. now rewrite N.compare_refl.
Qed.

Lemma leb_cases (a b : string) :
  String.leb a b = true <-> a = b \/ String.ltb a b = true.
Proof.
  unfold String.leb, String.ltb.
  destruct (String.compare a b) eqn:H; split; intros H'; try tauto; try discriminate.
  - left. now apply String.compare_eq_iff.
  - destruct H' as [-> | H']; [|discriminate]. now rewrite compare_refl in H.
Qed.

Lemma ltb_trans (a b c : string) :
  String.ltb a b = true -> String.ltb b c = true -> String.ltb a c = true.
Proof.
  unfold String.ltb. intros Hab Hbc.
  destruct (String.compare a b) eqn:H1; try discriminate.
  destruct (String.compare b c) eqn:H2; try discriminate.
  now rewrite (compare_lt_trans _ _ _ H1 H2).
Qed.

Lemma ltb_irrefl (a : string) : String.ltb a a = false.
Proof. unfold String.ltb. now rewrite compare_refl. Qed.

Lemma leb_refl (a : string) : String.leb a a = true.
Proof. apply leb_cases. now left. Qed.

Lemma leb_trans (a b c : string) :
  String.leb a b = true -> String.leb b c = true -> String.leb a c = true.
Proof.
  rewrite !leb_cases. intros [-> | Hab] [-> | Hbc]; try tauto.
  right. eapply ltb_trans; eassumption.
Qed.

(** *** Sorting is a rearrangement *)

Lemma insert_by_id_perm (r : Row) (rows : list Row) :
  Permutation (r :: rows) (Prisma.insert_by_id r rows).
Proof.
  induction rows as [|x rows IH]; simpl; [reflexivity|].
  destruct (String.leb _ _); [reflexivity|].
  rewrite perm_swap. now constructor.
Qed.

Lemma order_by_id_perm (rows : list Row) : Permutation rows (Prisma.order_by_id rows).
Proof.
  induction rows as [|x rows IH]; simpl; [constructor|].
  rewrite <- insert_by_id_perm. now constructor.
Qed.

Lemma order_by_id_length (rows : list Row) :
  List.length (Prisma.order_by_id rows) = List.length rows.
Proof. symmetry. apply Permutation_length, order_by_id_perm. Qed.

Lemma order_by_id_In (rows : list Row) (r : Row) :
  In r (Prisma.order_by_id rows) <-> In r rows.
Proof.
  split; apply Permutation_in; [symmetry|]; apply order_by_id_perm.
Qed.

Lemma prices_ok_order (rows : list Row) :
  prices_ok rows -> prices_ok (Prisma.order_by_id rows).
Proof. unfold prices_ok. apply Permutation_Forall, order_by_id_perm. Qed.

Lemma NoDup_ids_perm (t t' : list Row) :
  Permutation t t' -> NoDup (map row_id t) -> NoDup (map row_id t').
Proof. intros Hp. apply Permutation_NoDup. now apply Permutation_map. Qed.

Lemma NoDup_ids_filter (f : Row -> bool) (t : list Row) :
  NoDup (map row_id t) -> NoDup (map row_id (filter f t)).
Proof.
  induction t as [|x t IH]; simpl; [trivial|].
  intros H. inversion_clear H as [|? ? Hx Ht].
  destruct (f x); simpl; [|now apply IH].
  constructor; [|now apply IH].
  intros Hin. apply Hx. apply in_map_iff in Hin. destruct Hin as [y [Hy Hin]].
  apply filter_In in Hin. apply in_map_iff. exists y. tauto.
Qed.

(** In a table with a key, the key names the record. *)
Lemma same_key_same_row (t : list Row) (a b : Row) :
  NoDup (map row_id t) -> In a t -> In b t -> row_id a = row_id b -> a = b.
Proof.
  induction t as [|x t IH]; simpl; [tauto|].
  intros H Ha Hb E. inversion_clear H as [|? ? Hx Ht].
  destruct Ha as [-> | Ha], Hb as [-> | Hb]; trivial.
  - exfalso. apply Hx. rewrite E. now apply in_map.
  - exfalso. apply Hx. rewrite <- E. now apply in_map.
  - now apply IH.
Qed.

(** *** The result is in key order *)

Lemma insert_by_id_sorted (r : Row) (rows : list Row) :
  StronglySorted key_le rows -> StronglySorted key_le (Prisma.insert_by_id r rows).
Proof.
  induction rows as [|x rows IH]; simpl; intros Hs.
  - repeat constructor.
  - inversion_clear Hs as [|? ? Hrows Hx].
    destruct (String.leb (row_id r) (row_id x)) eqn:Hrx.
    + constructor; [now constructor|].
      constructor; [exact Hrx|].
      eapply Forall_impl; [|exact Hx]. intros y Hy.
      unfold key_le in *. eapply leb_trans; eassumption.
    + constructor; [now apply IH|].
      apply Forall_forall. intros y Hy.
      apply (Permutation_in _ (Permutation_sym (insert_by_id_perm r rows))) in Hy.
      destruct Hy as [<- | Hy].
      * unfold key_le. destruct (String.leb_total (row_id x) (row_id r)); congruence.
      * rewrite Forall_forall in Hx. now apply Hx.
Qed.

Lemma order_by_id_sorted (rows : list Row) : StronglySorted key_le (Prisma.order_by_id rows).
Proof.
  induction rows as [|x rows IH]; simpl; [constructor|].
  now apply insert_by_id_sorted.
Qed.

(** Two arrangements in key order of the same records, under a key,
    are the same list. *)
Lemma sorted_perm_eq (l1 l2 : list Row) :
  NoDup (map row_id l1) ->
  StronglySorted key_le l1 -> StronglySorted key_le l2 -> Permutation l1 l2 ->
  l1 = l2.
Proof.
  revert l2. induction l1 as [|a l1 IH]; intros l2 Hnd H1 H2 Hp.
  - apply Permutation_nil in Hp. now subst.
  - destruct l2 as [|b l2].
    { symmetry in Hp. now apply Permutation_nil in Hp. }
    assert (E : a = b).
    { inversion_clear H1 as [|? ? _ Ha]. inversion_clear H2 as [|? ? _ Hb].
      rewrite Forall_forall in Ha, Hb.
      assert (Ha2 : In a (b :: l2)) by (eapply Permutation_in; [exact Hp | now left]).
      assert (Hb1 : In b (a :: l1))
        by (eapply Permutation_in; [symmetry; exact Hp | now left]).
      destruct Ha2 as [<- | Ha2]; [reflexivity|].
      destruct Hb1 as [-> | Hb1]; [reflexivity|].
      apply (same_key_same_row (a :: l1)); [assumption | now left | now right |].
      apply String.leb_antisym; [now apply Ha | now apply Hb]. }
    subst b. f_equal. apply Permutation_cons_inv in Hp.
    inversion_clear Hnd. inversion_clear H1. inversion_clear H2. now apply IH.
Qed.

(** The listing depends on the records stored, not on where the table
    keeps them. *)
Lemma order_by_id_perm_eq (l1 l2 : list Row) :
  NoDup (map row_id l1) -> Permutation l1 l2 ->
  Prisma.order_by_id l1 = Prisma.order_by_id l2.
Proof.
  intros Hnd Hp. apply sorted_perm_eq.
  - eapply NoDup_ids_perm; [apply order_by_id_perm | exact Hnd].
  - apply order_by_id_sorted.
  - apply order_by_id_sorted.
  - rewrite <- (order_by_id_perm l1), <- (order_by_id_perm l2). exact Hp.
Qed.

Lemma filter_perm (f : Row -> bool) (l1 l2 : list Row) :
  Permutation l1 l2 -> Permutation (filter f l1) (filter f l2).
Proof.
  induction 1 as [|x l l' _ IH|x y l|l l' l'' _ IH1 _ IH2]; simpl.
  - constructor.
  - destruct (f x); [now constructor | exact IH].
  - destruct (f x), (f y); try reflexivity. apply perm_swap.
  - etransitivity; eassumption.
Qed.

Lemma listing_perm (t t' : list Row) :
  NoDup (map row_id t) -> Permutation t t' -> listing t = listing t'.
Proof.
  intros Hnd Hp. unfold listing. f_equal. apply order_by_id_perm_eq.
  - now apply NoDup_ids_filter.
  - now apply filter_perm.
Qed.

(** Under a key the order is strict. *)
Lemma sorted_strict (rows : list Row) :
  NoDup (map row_id rows) -> StronglySorted key_le rows ->
  in_key_order (map to_product rows).
Proof.
  unfold in_key_order.
  induction rows as [|a rows IH]; simpl; intros Hnd Hs; [constructor|].
  inversion_clear Hnd as [|? ? Ha Hrows]. inversion_clear Hs as [|? ? Hs' Hle].
  constructor; [now apply IH|].
  apply Forall_forall. intros p Hp. apply in_map_iff in Hp.
  destruct Hp as [b [<- Hb]]. simpl.
  rewrite Forall_forall in Hle. specialize (Hle b Hb). unfold key_le in Hle.
  apply leb_cases in Hle. destruct Hle as [E | Hlt]; [|exact Hlt].
  exfalso. apply Ha. rewrite E. now apply in_map.
Qed.

Lemma listing_in_key_order (t : list Row) :
  NoDup (map row_id t) -> in_key_order (listing t).
Proof.
  intros Hnd. unfold listing. apply sorted_strict.
  - eapply NoDup_ids_perm; [apply order_by_id_perm|]. now apply NoDup_ids_filter.
  - apply order_by_id_sorted.
Qed.

(** A slice of a list in key order is in key order. *)
Lemma in_key_order_firstn (n : nat) (ps : list Product.t) :
  in_key_order ps -> in_key_order (firstn n ps).
Proof.
  unfold in_key_order. revert n. induction ps as [|p ps IH]; intros [|n] H; simpl;
    try constructor.
  - inversion_clear H. now apply IH.
  - inversion_clear H as [|? ? _ Hp]. rewrite Forall_forall in *.
    intros q Hq. apply Hp. rewrite <- (firstn_skipn n ps). apply in_or_app. now left.
Qed.

Lemma in_key_order_skipn (n : nat) (ps : list Product.t) :
  in_key_order ps -> in_key_order (skipn n ps).
Proof.
  unfold in_key_order. revert n. induction ps as [|p ps IH]; intros [|n] H; simpl;
    trivial.
  inversion_clear H. now apply IH.
Qed.

Lemma listing_length (t : list Row) :
  List.length (listing t) = List.length (available_products t).
Proof.
  unfold listing, available_products. now rewrite !length_map, order_by_id_length.
Qed.

End OrderFacts.

(** ** Pagination (C1, C9) *)

Module PageFacts.
Import TableFacts RunFacts.

Lemma window_page (page limit : Z) (rows : list Row) :
  1 <= limit ->
  map to_product (Prisma.window ((page - 1) * limit) limit rows)
  = page_of page limit (map to_product rows).
Proof.
  intros Hl. unfold Prisma.window, page_of.
  destruct (Z.ltb_spec limit 0); [lia|].
  now rewrite <- firstn_map, <- skipn_map.
Qed.

Lemma prices_ok_window (skip take : Z) (rows : list Row) :
  0 <= take -> prices_ok rows -> prices_ok (Prisma.window skip take rows).
Proof.
  intros Ht H. unfold Prisma.window. destruct (Z.ltb_spec take 0); [lia|].
  now apply prices_ok_firstn, prices_ok_skipn.
Qed.

Lemma page_of_length (page limit : Z) (ps : list Product.t) :
  0 <= limit -> Z.of_nat (List.length (page_of page limit ps)) <= limit.
Proof.
  intros Hl. unfold page_of. rewrite length_firstn. lia.
Qed.

Lemma page_of_beyond (page limit : Z) (ps : list Product.t) :
  Z.of_nat (List.length ps) <= (page - 1) * limit -> page_of page limit ps = [].
Proof.
  intros H. unfold page_of. rewrite skipn_all2; [now rewrite firstn_nil | lia].
Qed.

(** A limit and an offset that are safe integers pass the client's
    check of [skip] and [take]. *)
Lemma safe_is_accepted (page limit : Z) :
  1 <= page -> 1 <= limit <= MAX_SAFE_INTEGER -> (page - 1) * limit <= MAX_SAFE_INTEGER ->
  ((page - 1) * limit <? 0)
  || negb (Prisma.fits_int64 ((page - 1) * limit))
  || negb (Prisma.fits_int64 limit) = false.
Proof.
  unfold MAX_SAFE_INTEGER, Prisma.fits_int64, Prisma.INT64_MIN, Prisma.INT64_MAX.
  intros Hp Hl Hs.
  assert (0 <= (page - 1) * limit) by nia.
  repeat (apply orb_false_iff; split); [lia| |]; apply negb_false_iff, andb_true_iff; lia.
Qed.

(** The repository's answer when the engine is up and the request is in
    range. *)
Lemma findAllAvailablePaginated_ok (w : World) (page limit : Z) :
  1 <= page -> 1 <= limit <= MAX_SAFE_INTEGER -> (page - 1) * limit <= MAX_SAFE_INTEGER ->
  no_outage 1 w -> prices_ok (table w) ->
  PrismaProductRepository.findAllAvailablePaginated (mkPagination (Some page) (Some limit)) w
  = (Ok (mkPaginated
           (page_of page limit (listing (table w)))
           (mkMeta (Z.of_nat (List.length (listing (table w)))) page
                   (Js.Math_ceil_div
                      (Z.of_nat (List.length (listing (table w)))) limit))),
     advance call_transaction w).
Proof.
  intros Hp Hl Hs Ho Hpr.
  unfold PrismaProductRepository.findAllAvailablePaginated,
    Prisma.transaction_count_findMany, try_catch, bind. simpl.
  rewrite (call_ok _ _ (no_outage_hd _ _ Ho)). simpl.
  rewrite (safe_is_accepted page limit Hp Hl Hs). simpl.
  unfold lift. rewrite map_throwing_ok.
  - unfold listing. rewrite window_page by lia.
    now rewrite length_map, OrderFacts.order_by_id_length.
  - apply prices_ok_window; [lia|].
    now apply OrderFacts.prices_ok_order, prices_ok_filter.
Qed.

(** An unset [page] is 1 and an unset [limit] is 10. *)
Lemma findAllAvailablePaginated_defaults (w : World) :
  PrismaProductRepository.findAllAvailablePaginated (mkPagination None None) w
  = PrismaProductRepository.findAllAvailablePaginated (mkPagination (Some 1) (Some 10)) w.
Proof. reflexivity. Qed.

End PageFacts.

(** C1, as stated, fails for a limit that does not fit the 64 bits of
    the client's [take]: on products "a" and "b", page 1 at
    [limit = 10^19] (a positive number, which [PaginationDto] lets in)
    answers status 500 and no rows. *)
Lemma C1_limit_beyond_64_bits_is_refused : ~ pagination_law_for_every_limit.
Proof.
  intros H.
  destruct (H world_ab 1 10000000000000000000 ltac:(lia) ltac:(lia) eq_refl
              ltac:(repeat constructor; discriminate)) as [r [Hr _]].
  discriminate Hr.
Qed.

(** C1, amended.  With the engine up and no negative stored price, for
    T available products and a [limit] from 1 to
    [Number.MAX_SAFE_INTEGER] there is one [lastPage], the ceiling of
    T / limit, such that FindAllPaginated of every [page >= 1] whose
    offset [(page - 1) * limit] is at most [Number.MAX_SAFE_INTEGER]
    returns [meta = { total: T, page, lastPage }] and as [data] the
    slice of the available products, in key order, from that offset, of
    length at most [limit]; for [page > lastPage] the data is empty,
    with the same [total] and [lastPage]. *)
Theorem C1_pagination_law_for_safe_integers (w : World) (limit : Z) :
  1 <= limit <= MAX_SAFE_INTEGER -> no_outage 1 w -> prices_ok (table w) ->
  let avail := listing (table w) in
  let T := Z.of_nat (List.length avail) in
  exists lastPage,
    (lastPage - 1) * limit < T <= lastPage * limit
    /\ forall page, 1 <= page -> (page - 1) * limit <= MAX_SAFE_INTEGER ->
         FindAllProductsHandler.execute (mkPagination (Some page) (Some limit)) w
         = (Ok (mkPaginated (page_of page limit avail) (mkMeta T page (Js.Int lastPage))),
            advance call_transaction w)
         /\ Z.of_nat (List.length (page_of page limit avail)) <= limit
         /\ (lastPage < page -> page_of page limit avail = []).
Proof.
  intros Hl Ho Hpr avail T.
  destruct (JsFacts.Math_ceil_div_pos T limit (proj1 Hl)) as [lastPage [Hceil Hbounds]].
  exists lastPage. split; [exact Hbounds|].
  intros page Hp Hs. split; [|split].
  - unfold FindAllProductsHandler.execute, try_catch, bind.
    rewrite (PageFacts.findAllAvailablePaginated_ok w page limit Hp Hl Hs Ho Hpr).
    fold avail. fold T. rewrite Hceil. reflexivity.
  - apply PageFacts.page_of_length. lia.
  - intros Hlast. apply PageFacts.page_of_beyond. fold T. nia.
Qed.

Lemma prices_ok_world_ab : prices_ok (table world_ab).
Proof. repeat constructor; discriminate. Qed.

Lemma C1_pagination_law_for_safe_integers_witness :
  1 <= 1 <= MAX_SAFE_INTEGER /\ no_outage 1 world_ab /\ prices_ok (table world_ab)
  /\ exists lastPage,
       (lastPage - 1) * 1 < 2 <= lastPage * 1
       /\ fst (FindAllProductsHandler.execute (mkPagination (Some 1) (Some 1)) world_ab)
          = Ok (mkPaginated [Product.mk "a" "A" (10 # 1) true] (mkMeta 2 1 (Js.Int lastPage)))
       /\ fst (FindAllProductsHandler.execute (mkPagination (Some 3) (Some 1)) world_ab)
          = Ok (mkPaginated [] (mkMeta 2 3 (Js.Int lastPage))).
Proof.
  split; [unfold MAX_SAFE_INTEGER; lia|]. split; [reflexivity|].
  split; [exact prices_ok_world_ab|].
  destruct (C1_pagination_law_for_safe_integers world_ab 1
              ltac:(unfold MAX_SAFE_INTEGER; lia) eq_refl prices_ok_world_ab)
    as [lastPage [Hb Hpages]].
  exists lastPage. split; [exact Hb|].
  destruct (Hpages 1 ltac:(lia) ltac:(unfold MAX_SAFE_INTEGER; lia)) as [H1 _].
  destruct (Hpages 3 ltac:(lia) ltac:(unfold MAX_SAFE_INTEGER; lia)) as [H3 _].
  split; [exact (f_equal fst H1) | exact (f_equal fst H3)].
Defined.

(** The scenario of the specification, with B created before A and
    A's key the smaller one: page 1 at one row a page is A out of two
    pages; after A is deleted it is B out of one page. *)
Example pages_before_and_after_delete :
  let w := run [CreateProduct "id-B" "B" (20 # 1); CreateProduct "id-A" "A" (10 # 1)]
               (mkWorld [] [] []) in
  let first_page := FindAllProductsHandler.execute (mkPagination (Some 1) (Some 1)) in
  fst (first_page w)
  = Ok (mkPaginated [Product.mk "id-A" "A" (10 # 1) true] (mkMeta 2 1 (Js.Int 2)))
  /\ fst (first_page (run [DeleteProduct "id-A"] w))
     = Ok (mkPaginated [Product.mk "id-B" "B" (20 # 1) true] (mkMeta 1 1 (Js.Int 1))).
Proof. split; reflexivity. Qed.

Module QueryFacts.
Import RunFacts.

Lemma findAll_keeps_table dto w :
  table (snd (PrismaProductRepository.findAllAvailablePaginated dto w)) = table w.
Proof.
  unfold PrismaProductRepository.findAllAvailablePaginated,
    Prisma.transaction_count_findMany, try_catch, bind. cbv zeta.
  destruct (call_cases call_transaction w) as [-> | ->]; simpl; [|reflexivity].
  destruct (_ || _)%bool; simpl; [reflexivity|].
  unfold lift. destruct (map_throwing _ _); reflexivity.
Qed.

(** The answer of the repository is a function of the table. *)
Lemma findAll_same_table dto w1 w2 r1 r2 :
  table w1 = table w2 ->
  fst (PrismaProductRepository.findAllAvailablePaginated dto w1) = Ok r1 ->
  fst (PrismaProductRepository.findAllAvailablePaginated dto w2) = Ok r2 ->
  r1 = r2.
Proof.
  intros Ht. unfold PrismaProductRepository.findAllAvailablePaginated,
    Prisma.transaction_count_findMany, try_catch, bind. cbv zeta.
  destruct (call_cases call_transaction w1) as [-> | ->];
    destruct (call_cases call_transaction w2) as [-> | ->]; simpl;
    try discriminate.
  rewrite Ht. destruct (_ || _)%bool; simpl; [discriminate|].
  unfold lift. destruct (map_throwing _ _); simpl; [|discriminate].
  intros H1 H2. congruence.
Qed.

(** More: it depends on the records stored, not on where the table
    keeps them. *)
Lemma findAll_same_records dto w1 w2 r1 r2 :
  NoDup (map row_id (table w1)) -> Permutation (table w1) (table w2) ->
  fst (PrismaProductRepository.findAllAvailablePaginated dto w1) = Ok r1 ->
  fst (PrismaProductRepository.findAllAvailablePaginated dto w2) = Ok r2 ->
  r1 = r2.
Proof.
  intros Hnd Hp. unfold PrismaProductRepository.findAllAvailablePaginated,
    Prisma.transaction_count_findMany, try_catch, bind. cbv zeta.
  destruct (call_cases call_transaction w1) as [-> | ->];
    destruct (call_cases call_transaction w2) as [-> | ->]; simpl;
    try discriminate.
  rewrite (OrderFacts.order_by_id_perm_eq _ _
             (OrderFacts.NoDup_ids_filter row_available _ Hnd)
             (OrderFacts.filter_perm row_available _ _ Hp)).
  rewrite (Permutation_length (OrderFacts.filter_perm row_available _ _ Hp)).
  destruct (_ || _)%bool; simpl; [discriminate|].
  unfold lift. destruct (map_throwing _ _); simpl; [|discriminate].
  intros H1 H2. congruence.
Qed.

(** [skip] and [take] cut a slice out of the rows. *)
Lemma window_slice (skip take : Z) (rows : list Row) :
  exists k n, Prisma.window skip take rows = firstn n (skipn k rows).
Proof.
  unfold Prisma.window. destruct (take <? 0).
  - rewrite skipn_rev, firstn_rev, rev_involutive, skipn_firstn_comm.
    eexists. eexists. reflexivity.
  - eexists. eexists. reflexivity.
Qed.

(** The rows of an answer are a slice of the listing. *)
Lemma findAll_data dto w r :
  fst (PrismaProductRepository.findAllAvailablePaginated dto w) = Ok r ->
  exists k n, data r = firstn n (skipn k (listing (table w))).
Proof.
  unfold PrismaProductRepository.findAllAvailablePaginated,
    Prisma.transaction_count_findMany, try_catch, bind. cbv zeta.
  destruct (call_cases call_transaction w) as [-> | ->]; simpl; [|discriminate].
  destruct (_ || _)%bool; simpl; [discriminate|].
  unfold lift. destruct (map_throwing _ _) as [ps|] eqn:E; simpl; [|discriminate].
  intros H. inversion H; subst r. simpl.
  destruct (TableFacts.map_throwing_Ok _ _ E) as [-> _].
  destruct (window_slice
              ((match dto_page dto with Some p => p | None => 1 end - 1)
               * match dto_limit dto with Some l => l | None => 10 end)
              (match dto_limit dto with Some l => l | None => 10 end)
              (Prisma.order_by_id (filter row_available (table w)))) as [k [n ->]].
  exists k, n. unfold listing. now rewrite <- firstn_map, <- skipn_map.
Qed.

(** With [page] and [limit] given and [limit] not negative, they are
    the rows of that page. *)
Lemma findAll_page page limit w r :
  0 <= limit ->
  fst (PrismaProductRepository.findAllAvailablePaginated
         (mkPagination (Some page) (Some limit)) w) = Ok r ->
  data r = page_of page limit (listing (table w)).
Proof.
  intros Hl. unfold PrismaProductRepository.findAllAvailablePaginated,
    Prisma.transaction_count_findMany, try_catch, bind. simpl.
  destruct (call_cases call_transaction w) as [-> | ->]; simpl; [|discriminate].
  destruct (_ || _)%bool; simpl; [discriminate|].
  unfold lift. destruct (map_throwing _ _) as [ps|] eqn:E; simpl; [|discriminate].
  intros H. inversion H; subst r. simpl.
  destruct (TableFacts.map_throwing_Ok _ _ E) as [-> _].
  unfold listing, Prisma.window, page_of.
  destruct (Z.ltb_spec limit 0); [lia|].
  now rewrite <- firstn_map, <- skipn_map.
Qed.

Lemma findById_keeps_table id w :
  table (snd (PrismaProductRepository.findById id w)) = table w.
Proof. destruct (findById_returns id w) as [o ->]. reflexivity. Qed.

Lemma findAvailableByIds_keeps_table ids w :
  table (snd (PrismaProductRepository.findAvailableByIds ids w)) = table w.
Proof.
  unfold PrismaProductRepository.findAvailableByIds.
  destruct (_ =? 0)%nat; [reflexivity|].
  unfold Prisma.product_findMany_in, try_catch, bind.
  destruct (call_cases call_findMany w) as [-> | ->]; simpl; [|reflexivity].
  unfold lift. destruct (map_throwing _ _); reflexivity.
Qed.

Lemma rethrow_keeps_table {A} dflt e w :
  table (snd (@rethrow_or_rewrap A dflt e w)) = table w.
Proof. unfold rethrow_or_rewrap. destruct (instanceof_RpcException e); reflexivity. Qed.

Lemma query_keeps_table i w : is_query i = true -> table (snd (execute i w)) = table w.
Proof.
  destruct i; simpl; try discriminate; intros _; unfold map_M, bind.
  - unfold FindAllProductsHandler.execute, try_catch, bind.
    pose proof (findAll_keeps_table paginationDto w) as H.
    destruct (PrismaProductRepository.findAllAvailablePaginated paginationDto w)
      as [[r|e] w']; exact H.
  - unfold FindOneProductHandler.execute, try_catch, bind.
    destruct (findById_returns id w) as [[p|] ->]; reflexivity.
  - unfold ValidateProductsHandler.execute. cbv zeta.
    destruct (_ =? 0)%nat; [reflexivity|]. unfold try_catch, bind.
    pose proof (findAvailableByIds_keeps_table (Js.Array_from_Set ids) w) as H.
    destruct (PrismaProductRepository.findAvailableByIds (Js.Array_from_Set ids) w)
      as [[ps|e] w']; simpl in *.
    + destruct (negb _); simpl; [|exact H].
      unfold rethrow_or_rewrap. simpl. exact H.
    + pose proof (rethrow_keeps_table (A := list Product.t)
                    "Failed to validate products." e w') as H'.
      destruct (rethrow_or_rewrap _ e w') as [[?|?] w'']; simpl in *; congruence.
Qed.

Lemma queries_keep_table intents w :
  forallb is_query intents = true -> table (run intents w) = table w.
Proof.
  revert w. induction intents as [|i intents IH]; intros w; simpl; [reflexivity|].
  intros H. apply andb_true_iff in H. destruct H as [Hi Hrest].
  rewrite (IH _ Hrest). now apply query_keeps_table.
Qed.

End QueryFacts.

(** C9.  [findAllAvailablePaginated] does not change the table, nor do
    the queries, so a second call with the same page and limit and no
    mutation in between, if both answer, gives the same result.  The
    order is that of the primary key: the rows of an answer are a slice
    of the available products taken in key order (for a given [page]
    and [limit >= 0], the rows of that page), so under the key of the
    table their keys increase strictly, and the answer is the same in
    any world that stores the same records, wherever its table keeps
    them. *)
Theorem C9_same_page_in_key_order
    (w w' : World) (dto : PaginationDto) (between : list Intent)
    (r1 r2 : PaginatedProductResult) :
  let findAll := PrismaProductRepository.findAllAvailablePaginated dto in
  let w1 := snd (findAll w) in
  let w2 := run between w1 in
  table w1 = table w
  /\ (forallb is_query between = true -> table w2 = table w)
  /\ (table w2 = table w ->
      fst (findAll w) = Ok r1 -> fst (findAll w2) = Ok r2 -> r1 = r2)
  /\ (fst (findAll w) = Ok r1 ->
      (exists k n, data r1 = firstn n (skipn k (listing (table w))))
      /\ (forall page limit, dto = mkPagination (Some page) (Some limit) -> 0 <= limit ->
          data r1 = page_of page limit (listing (table w)))
      /\ (NoDup (map row_id (table w)) ->
          in_key_order (data r1)
          /\ (Permutation (table w) (table w') -> fst (findAll w') = Ok r2 -> r1 = r2))).
Proof.
  intros findAll w1 w2. split; [apply QueryFacts.findAll_keeps_table|].
  split; [|split].
  - intros Hq. unfold w2. rewrite (QueryFacts.queries_keep_table _ _ Hq).
    apply QueryFacts.findAll_keeps_table.
  - intros Ht H1 H2. eapply QueryFacts.findAll_same_table; [|exact H1 | exact H2].
    now symmetry.
  - intros H1. destruct (QueryFacts.findAll_data _ _ _ H1) as [k [n Hdata]].
    split; [now exists k, n|]. split.
    + intros page limit -> Hl. now apply QueryFacts.findAll_page.
    + intros Hnd. split.
      * rewrite Hdata.
        now apply OrderFacts.in_key_order_firstn, OrderFacts.in_key_order_skipn,
          OrderFacts.listing_in_key_order.
      * intros Hp H2.
        eapply QueryFacts.findAll_same_records;
          [exact Hnd | exact Hp | exact H1 | exact H2].
Qed.

(** Products "b" and "a" stored in that order: the first page lists
    "a", before and after two queries, and so it does where "a" is
    stored before "b". *)
Lemma C9_same_page_in_key_order_witness :
  let dto := mkPagination (Some 1) (Some 1) in
  let findAll := PrismaProductRepository.findAllAvailablePaginated dto in
  let w := mkWorld [mkRow "b" "B" (20 # 1) true; mkRow "a" "A" (10 # 1) true] [] [] in
  let between := [FindOneProduct "a"; ValidateProducts ["b"; "zz"]] in
  let page1 := mkPaginated [Product.mk "a" "A" (10 # 1) true] (mkMeta 2 1 (Js.Int 2)) in
  fst (findAll w) = Ok page1
  /\ forallb is_query between = true
  /\ NoDup (map row_id (table w))
  /\ Permutation (table w) (table world_ab)
  /\ table (run between (snd (findAll w))) = table w
  /\ fst (findAll (run between (snd (findAll w)))) = Ok page1
  /\ data page1 = page_of 1 1 (listing (table w))
  /\ in_key_order (data page1)
  /\ fst (findAll world_ab) = Ok page1.
Proof.
  intros dto findAll w between page1.
  assert (H1 : fst (findAll w) = Ok page1) by reflexivity.
  assert (Hq : forallb is_query between = true) by reflexivity.
  assert (Hnd : NoDup (map row_id (table w))).
  { repeat constructor; simpl; [|tauto]. intros [H|[]]. discriminate H. }
  assert (Hp : Permutation (table w) (table world_ab)) by apply perm_swap.
  destruct (C9_same_page_in_key_order w world_ab dto between page1 page1)
    as [_ [Hkeep [_ Hanswer]]].
  destruct (Hanswer H1) as [_ [Hpage Hkey]].
  destruct (Hkey Hnd) as [Hsorted _].
  split; [exact H1|]. split; [exact Hq|]. split; [exact Hnd|]. split; [exact Hp|].
  split; [exact (Hkeep Hq)|]. split; [reflexivity|].
  split; [exact (Hpage 1 1 eq_refl ltac:(lia))|]. split; [exact Hsorted|].
  reflexivity.
Defined.

(** ** Batch validation (C2) *)

Module ValidateFacts.
Import JsFacts TableFacts RunFacts.

Lemma found_for_In ids t p :
  In p (found_for ids t)
  <-> exists r, In r t /\ row_available r = true /\ In (row_id r) ids /\ p = to_product r.
Proof.
  unfold found_for. rewrite in_map_iff. split.
  - intros [r [<- Hr]]. apply filter_In in Hr. destruct Hr as [Hin Hb].
    apply andb_true_iff in Hb. destruct Hb as [Hi Ha]. apply includes_In in Hi.
    exists r. auto.
  - intros [r [Hin [Ha [Hi ->]]]]. exists r. split; [reflexivity|].
    apply filter_In. split; [assumption|].
    apply andb_true_iff. split; [now apply includes_In | assumption].
Qed.

Lemma found_for_ids ids t :
  map Product.id (found_for ids t)
  = map row_id (filter (fun r => Js.includes ids (row_id r) && row_available r) t).
Proof. unfold found_for. rewrite map_map. reflexivity. Qed.

Lemma NoDup_map_filter {A B} (g : A -> B) (f : A -> bool) (l : list A) :
  NoDup (map g l) -> NoDup (map g (filter f l)).
Proof.
  induction l as [|x l IH]; simpl; intros H; [constructor|].
  inversion H as [|? ? Hx Hnd]; subst.
  destruct (f x); simpl; [|now apply IH].
  constructor; [|now apply IH].
  intros Hin. apply Hx. apply in_map_iff in Hin. destruct Hin as [y [He Hy]].
  apply filter_In in Hy. apply in_map_iff. exists y. tauto.
Qed.

(** With [id] a key, no more products are found than ids are asked. *)
Lemma found_for_length ids t :
  NoDup (map row_id t) ->
  (List.length (found_for ids t) <= List.length ids)%nat.
Proof.
  intros Hnd. rewrite <- (length_map Product.id), found_for_ids.
  apply NoDup_incl_length; [now apply NoDup_map_filter|].
  intros x Hx. apply in_map_iff in Hx. destruct Hx as [r [<- Hr]].
  apply filter_In in Hr. destruct Hr as [_ Hb].
  apply andb_true_iff in Hb. now apply includes_In.
Qed.

Lemma missing_In uniqueIds products x :
  In x (ValidateProductsHandler.missing uniqueIds products)
  <-> In x uniqueIds /\ ~ In x (map Product.id products).
Proof.
  unfold ValidateProductsHandler.missing. rewrite filter_In, negb_true_iff.
  now rewrite includes_false.
Qed.

Lemma missing_NoDup uniqueIds products :
  NoDup uniqueIds -> NoDup (ValidateProductsHandler.missing uniqueIds products).
Proof. apply NoDup_filter. Qed.

Lemma findAvailableByIds_ok uniqueIds w :
  uniqueIds <> [] -> NoDup uniqueIds -> no_outage 1 w -> prices_ok (table w) ->
  PrismaProductRepository.findAvailableByIds uniqueIds w
  = (Ok (found_for uniqueIds (table w)), advance call_findMany w).
Proof.
  intros Hne Hnd Ho Hp. unfold PrismaProductRepository.findAvailableByIds.
  destruct uniqueIds as [|u us]; [congruence|]. simpl (_ =? _)%nat. cbv iota.
  unfold Js.Array_from_Set. rewrite (fold_Set_add_NoDup (u :: us) []) by exact Hnd.
  unfold Prisma.product_findMany_in, try_catch, bind.
  rewrite (call_ok _ _ (no_outage_hd _ _ Ho)). simpl app.
  unfold Prisma.get_table, ret, lift. simpl table.
  rewrite map_throwing_ok; [reflexivity | now apply prices_ok_filter].
Qed.

End ValidateFacts.

(** C2.  With U the distinct ids of the input and F the available
    products found for U: an empty input returns the empty list and the
    world is untouched (no Prisma call is logged); otherwise, on a
    well-formed table with the engine up, F has at most as many elements
    as U, and there is a list of missing ids, exactly those of the input
    that no found product has, such that ValidateBatch fails with the
    400 exception naming that list when F is shorter than U, and returns
    F when the counts are equal. *)
Theorem C2_validate_batch_all_or_nothing (w : World) (ids : list string) :
  let U := Js.Array_from_Set ids in
  let F := found_for U (table w) in
  (ids = [] -> ValidateProductsHandler.execute ids w = (Ok [], w))
  /\ (ids <> [] -> wf_table (table w) -> no_outage 1 w ->
      (forall p, In p F <->
         exists r, In r (table w) /\ row_available r = true
                   /\ In (row_id r) ids /\ p = to_product r)
      /\ (List.length F <= List.length U)%nat
      /\ exists missingIds,
           NoDup missingIds
           /\ (forall x, In x missingIds <-> In x ids /\ ~ In x (map Product.id F))
           /\ ((List.length F < List.length U)%nat ->
               fst (ValidateProductsHandler.execute ids w)
               = Throw (RpcException 400 (missing_msg missingIds)))
           /\ (List.length F = List.length U ->
               fst (ValidateProductsHandler.execute ids w) = Ok F)).
Proof.
  intros U F. split.
  - intros ->. reflexivity.
  - intros Hne [Hnd Hp] Ho.
    assert (HU : U <> []) by (unfold U; now rewrite JsFacts.Array_from_Set_nil).
    assert (HUnd : NoDup U) by apply JsFacts.Array_from_Set_NoDup.
    split; [|split].
    + intros p. unfold F. rewrite ValidateFacts.found_for_In.
      split; intros [r [H1 [H2 [H3 H4]]]]; exists r; repeat split; try assumption;
        now apply (JsFacts.Array_from_Set_In ids).
    + now apply ValidateFacts.found_for_length.
    + exists (ValidateProductsHandler.missing U F). split; [|split; [|split]].
      * now apply ValidateFacts.missing_NoDup.
      * intros x. rewrite ValidateFacts.missing_In.
        unfold U. now rewrite JsFacts.Array_from_Set_In.
      * intros Hlt. unfold ValidateProductsHandler.execute. fold U.
        destruct (Nat.eqb_spec (List.length U) 0) as [E|_];
          [destruct U; [congruence | discriminate]|].
        unfold try_catch, bind.
        rewrite (ValidateFacts.findAvailableByIds_ok U w HU HUnd Ho Hp). fold F.
        destruct (Nat.eqb_spec (List.length F) (List.length U)) as [E|_]; [lia|].
        reflexivity.
      * intros Heq. unfold ValidateProductsHandler.execute. fold U.
        destruct (Nat.eqb_spec (List.length U) 0) as [E|_];
          [destruct U; [congruence | discriminate]|].
        unfold try_catch, bind.
        rewrite (ValidateFacts.findAvailableByIds_ok U w HU HUnd Ho Hp). fold F.
        destruct (Nat.eqb_spec (List.length F) (List.length U)) as [_|NE]; [|congruence].
        reflexivity.
Qed.

Lemma wf_world_ab : wf_table (table world_ab).
Proof.
  split; [|exact prices_ok_world_ab].
  repeat constructor; simpl; intuition discriminate.
Qed.

Lemma C2_validate_batch_all_or_nothing_witness :
  ["b"; "a"; "b"] <> [] /\ wf_table (table world_ab) /\ no_outage 1 world_ab
  /\ fst (ValidateProductsHandler.execute ["b"; "a"; "b"] world_ab)
     = Ok [Product.mk "a" "A" (10 # 1) true; Product.mk "b" "B" (20 # 1) true].
Proof.
  assert (Hne : ["b"; "a"; "b"] <> []) by discriminate.
  split; [exact Hne|]. split; [exact wf_world_ab|]. split; [reflexivity|].
  destruct (C2_validate_batch_all_or_nothing world_ab ["b"; "a"; "b"]) as [_ H].
  destruct (H Hne wf_world_ab eq_refl) as [_ [_ [missingIds [_ [_ [_ Heq]]]]]].
  exact (Heq eq_refl).
Defined.

(** The scenario of the specification: "c" alone is reported. *)
Example validate_a_b_c :
  fst (ValidateProductsHandler.execute ["a"; "b"; "c"] world_abc)
  = Throw (RpcException 400 "Some products were not found or are unavailable: c").
Proof. reflexivity. Qed.

(** ** Creation (C6) *)

Module CreateFacts.
Import TableFacts RunFacts.

(** The three ways [prisma.product.create] can end. *)
Lemma product_create_cases id name price w :
  (outage_next w
   /\ Prisma.product_create id name price w
      = (Throw (PrismaError POther), advance call_create w))
  \/ (hd false (outages w) = false /\ Prisma.has_id id (table w) = true
      /\ Prisma.product_create id name price w
         = (Throw (PrismaError P2002), advance call_create w))
  \/ (hd false (outages w) = false /\ Prisma.has_id id (table w) = false
      /\ Prisma.product_create id name price w
         = (Ok (mkRow id name price true),
            mkWorld (table w ++ [mkRow id name price true]) (tl (outages w))
                    (call_create :: log w))).
Proof.
  unfold Prisma.product_create, bind, outage_next.
  destruct (hd false (outages w)) eqn:Ho.
  - left. split; [reflexivity|]. now rewrite (call_outage _ _ Ho).
  - right. rewrite (call_ok _ _ Ho). simpl.
    destruct (Prisma.has_id id (table w)) eqn:E; [left | right]; auto.
Qed.

End CreateFacts.

(** C6.  For a price that is not negative: with the engine up and the
    generated identifier unused, Create returns the product with that
    identifier, the given name and price and [available = true], and the
    record is stored under the identifier the handler chose; whenever
    Create returns a product it is that one and the identifier was not
    in the table before; and whenever Create fails, it fails with the
    500 exception of the repository, status 500 on the wire. *)
Theorem C6_create_returns_available_product
    (w : World) (randomUUID name : string) (price : Q) :
  (0 <= price)%Q ->
  (no_outage 1 w -> Prisma.has_id randomUUID (table w) = false ->
   CreateProductHandler.execute randomUUID name price w
   = (Ok (Product.mk randomUUID name price true),
      mkWorld (table w ++ [mkRow randomUUID name price true]) (tl (outages w))
              (call_create :: log w)))
  /\ (forall p,
        fst (CreateProductHandler.execute randomUUID name price w) = Ok p ->
        p = Product.mk randomUUID name price true
        /\ Prisma.has_id randomUUID (table w) = false)
  /\ (forall e,
        fst (CreateProductHandler.execute randomUUID name price w) = Throw e ->
        e = RpcException 500 "Database error creating product."
        /\ fst (AllExceptionsFilter_catch e) = 500).
Proof.
  intros Hprice.
  assert (Hmap : PrismaProductRepository.mapToDomain_row (mkRow randomUUID name price true)
                 = Ok (Product.mk randomUUID name price true))
    by (now apply TableFacts.mapToDomain_row_ok).
  unfold CreateProductHandler.execute, PrismaProductRepository.create, try_catch, bind.
  simpl create_id. simpl create_name. simpl create_price.
  destruct (CreateFacts.product_create_cases randomUUID name price w)
    as [[Ho ->] | [[Ho [Hid ->]] | [Ho [Hid ->]]]].
  - split; [|split].
    + intros Hno. apply (RunFacts.no_outage_hd 0) in Hno.
      unfold outage_next in Ho. congruence.
    + discriminate.
    + simpl. intros e He. inversion He. split; reflexivity.
  - split; [|split].
    + congruence.
    + discriminate.
    + simpl. intros e He. inversion He. split; reflexivity.
  - unfold lift. rewrite Hmap. split; [|split].
    + reflexivity.
    + simpl. intros p Hp. inversion Hp. split; [reflexivity | exact Hid].
    + discriminate.
Qed.

Lemma C6_create_returns_available_product_witness :
  (0 <= 30 # 1)%Q /\ no_outage 1 world_ab /\ Prisma.has_id "c" (table world_ab) = false
  /\ fst (CreateProductHandler.execute "c" "C" (30 # 1) world_ab)
     = Ok (Product.mk "c" "C" (30 # 1) true).
Proof.
  assert (Hprice : (0 <= 30 # 1)%Q) by discriminate.
  split; [exact Hprice|]. split; [reflexivity|]. split; [reflexivity|].
  destruct (C6_create_returns_available_product world_ab "c" "C" (30 # 1) Hprice)
    as [H _].
  exact (f_equal fst (H eq_refl eq_refl)).
Defined.

(** ** The repository's [update] (C8) *)

(** C8, counterexample.  On the empty table, [update("zz", {})] throws
    the plain [Error] of the update check, which goes on the wire with
    status 500, and which the Update handler's fallback also turns into
    a 500. *)
Lemma C8_update_without_fields_on_absent_id :
  ~ update_absent_is_NotFoundError.
Proof.
  intros H.
  destruct (H (mkWorld [] [] []) "zz" no_changes eq_refl eq_refl) as [e [He Hnf]].
  simpl in He. inversion He; subst e. unfold NotFoundError in Hnf. simpl in Hnf.
  discriminate.
Qed.

Example update_without_fields_on_absent_id :
  fst (PrismaProductRepository.update "zz" no_changes (mkWorld [] [] []))
  = Throw (JsError "Product #zz not found for update check.")
  /\ AllExceptionsFilter_catch (JsError "Product #zz not found for update check.")
     = (500, "Product #zz not found for update check.")
  /\ rewrap "Failed to update product." (JsError "Product #zz not found for update check.")
     = RpcException 500 "Product #zz not found for update check.".
Proof. repeat split. Qed.

Module UpdateFacts.
Import TableFacts RunFacts.

Lemma keys_of_changes changes :
  changes <> no_changes ->
  (PrismaProductRepository.Object_keys_length
     (PrismaProductRepository.mapToPrismaUpdateData changes) =? 0)%nat = false.
Proof.
  destruct changes as [[n|] [p|]]; simpl; try reflexivity.
  intros H. exfalso. now apply H.
Qed.

Lemma update_no_changes_found r w :
  wf_table (table w) -> no_outage 1 w -> In r (table w) -> row_available r = true ->
  PrismaProductRepository.update (row_id r) no_changes w
  = (Ok (to_product r), advance call_findFirst w).
Proof.
  intros Hwf Ho Hin Hav. unfold PrismaProductRepository.update. simpl.
  unfold bind. now rewrite (findById_found r w Hwf (no_outage_hd _ _ Ho) Hin Hav).
Qed.

Lemma update_no_changes_absent id w :
  absent id (table w) ->
  PrismaProductRepository.update id no_changes w
  = (Throw (JsError (update_check_msg id)), advance call_findFirst w).
Proof.
  intros H. unfold PrismaProductRepository.update. simpl.
  unfold bind. now rewrite (findById_absent id w H).
Qed.

Lemma update_changes_no_record id changes w :
  changes <> no_changes -> no_outage 1 w -> Prisma.has_id id (table w) = false ->
  PrismaProductRepository.update id changes w
  = (Throw (RpcException 404 (update_404_msg id)), advance call_update w).
Proof.
  intros Hc Ho Hid. unfold PrismaProductRepository.update. cbv zeta.
  rewrite (keys_of_changes _ Hc).
  unfold Prisma.product_update, try_catch, bind.
  rewrite (call_ok _ _ (no_outage_hd _ _ Ho)). simpl.
  now rewrite (update_where_None _ _ _ Hid).
Qed.

(** With no field supplied the lookup is all that happens. *)
Lemma update_no_changes_reads id w :
  snd (PrismaProductRepository.update id no_changes w) = advance call_findFirst w.
Proof.
  unfold PrismaProductRepository.update. simpl. unfold bind.
  destruct (findById_returns id w) as [[p|] ->]; reflexivity.
Qed.

(** When the lookup fails, [findById] answers [null] and the check
    throws, whatever is stored. *)
Lemma update_no_changes_outage id w :
  outage_next w ->
  PrismaProductRepository.update id no_changes w
  = (Throw (JsError (update_check_msg id)), advance call_findFirst w).
Proof.
  intros H. unfold PrismaProductRepository.update. simpl.
  unfold bind. now rewrite (findById_outage id w H).
Qed.

End UpdateFacts.

(** C8, amended.  With no field supplied, [update] writes nothing in
    any world: its one Prisma call is the lookup.  On a table where [id]
    is a key and no price is negative, with the engine answering the
    lookup, it returns the stored state of the available product; when
    no available record has the id, and also when the lookup fails, it
    throws the plain "not found for update check" [Error], which goes
    on the wire with status 500 and is no [NotFoundError].  With a field
    supplied and the engine up, it throws the 404 exception, a
    [NotFoundError], when no record has the id, and the table is
    unchanged. *)
Theorem C8_repository_update (w : World) (id : string) (changes : UpdateProductData) :
  snd (PrismaProductRepository.update id no_changes w) = advance call_findFirst w
  /\ is_write call_findFirst = false
  /\ (forall r,
        wf_table (table w) -> no_outage 1 w ->
        In r (table w) -> row_id r = id -> row_available r = true ->
        PrismaProductRepository.update id no_changes w
        = (Ok (to_product r), advance call_findFirst w))
  /\ (absent id (table w) \/ outage_next w ->
      PrismaProductRepository.update id no_changes w
      = (Throw (JsError (update_check_msg id)), advance call_findFirst w))
  /\ AllExceptionsFilter_catch (JsError (update_check_msg id)) = (500, update_check_msg id)
  /\ ~ NotFoundError (JsError (update_check_msg id))
  /\ (changes <> no_changes -> no_outage 1 w -> Prisma.has_id id (table w) = false ->
      PrismaProductRepository.update id changes w
      = (Throw (RpcException 404 (update_404_msg id)), advance call_update w)
      /\ NotFoundError (RpcException 404 (update_404_msg id))).
Proof.
  split; [apply UpdateFacts.update_no_changes_reads|].
  split; [reflexivity|]. split; [|split; [|split; [reflexivity|split]]].
  - intros r Hwf Ho Hin <- Hav. now apply UpdateFacts.update_no_changes_found.
  - intros [H|H];
      [now apply UpdateFacts.update_no_changes_absent
      | now apply UpdateFacts.update_no_changes_outage].
  - unfold NotFoundError. simpl. discriminate.
  - intros Hc Ho Hid. split; [|reflexivity].
    now apply UpdateFacts.update_changes_no_record.
Qed.

Lemma C8_repository_update_witness :
  wf_table (table world_a) /\ no_outage 1 world_a
  /\ PrismaProductRepository.update "a" no_changes world_a
     = (Ok (Product.mk "a" "A" (10 # 1) true), advance call_findFirst world_a)
  /\ outage_next world_a_outage
  /\ PrismaProductRepository.update "a" no_changes world_a_outage
     = (Throw (JsError "Product #a not found for update check."),
        advance call_findFirst world_a_outage)
  /\ mkUpdateData (Some "N") None <> no_changes
  /\ Prisma.has_id "zz" (table world_a) = false
  /\ PrismaProductRepository.update "zz" (mkUpdateData (Some "N") None) world_a
     = (Throw (RpcException 404 "Product with ID zz not found for update."),
        advance call_update world_a).
Proof.
  assert (Hc : mkUpdateData (Some "N") None <> no_changes) by discriminate.
  split; [exact wf_world_a|]. split; [reflexivity|].
  destruct (C8_repository_update world_a "a" no_changes) as [_ [_ [Hfound _]]].
  destruct (C8_repository_update world_a_outage "a" no_changes)
    as [_ [_ [_ [Hfails _]]]].
  destruct (C8_repository_update world_a "zz" (mkUpdateData (Some "N") None))
    as [_ [_ [_ [_ [_ [_ Hnone]]]]]].
  split; [exact (Hfound (mkRow "a" "A" (10 # 1) true) wf_world_a eq_refl
                        (or_introl eq_refl) eq_refl eq_refl)|].
  split; [reflexivity|].
  split; [exact (Hfails (or_intror eq_refl))|].
  split; [exact Hc|]. split; [reflexivity|].
  exact (proj1 (Hnone Hc eq_refl eq_refl)).
Defined.

(** ** What the handlers do with invalid values (C4, C5) *)

Module InvalidFacts.
Import TableFacts RunFacts.

Lemma In_update_where_map id d (t : list Row) r :
  In r t -> row_id r = id ->
  In (Prisma.apply_update d r)
     (map (fun x => if String.eqb id (row_id x) then Prisma.apply_update d x else x) t).
Proof.
  intros Hin He. apply in_map_iff. exists r. split; [|assumption].
  subst id. now rewrite String.eqb_refl.
Qed.

Lemma keys_some_price name' price' :
  (PrismaProductRepository.Object_keys_length
     (PrismaProductRepository.mapToPrismaUpdateData (mkUpdateData name' (Some price')))
   =? 0)%nat = false.
Proof. now destruct name'. Qed.

(** The repository's [update] with a negative price: the record is
    rewritten, then [mapToDomain] throws and the catch answers 500. *)
Lemma update_negative_price r name' price' w :
  wf_table (table w) -> hd false (outages w) = false -> In r (table w) ->
  (price' < 0)%Q ->
  let d := Prisma.mkUpdateInput name' (Some price') None in
  exists t',
    PrismaProductRepository.update (row_id r) (mkUpdateData name' (Some price')) w
    = (Throw (RpcException 500 "Database error updating product."),
       mkWorld t' (tl (outages w)) (call_update :: log w))
    /\ In (Prisma.apply_update d r) t'.
Proof.
  intros [Hnd Hp] Ho Hin Hneg d.
  destruct (update_where_Some d _ _ Hin Hnd) as [t' Hu].
  exists t'. split.
  - unfold PrismaProductRepository.update. cbv zeta.
    rewrite keys_some_price.
    unfold Prisma.product_update, try_catch, bind.
    rewrite (call_ok _ _ Ho). simpl.
    unfold PrismaProductRepository.mapToPrismaUpdateData. simpl. fold d. rewrite Hu. simpl.
    unfold lift. rewrite mapToDomain_row_neg; [reflexivity | exact Hneg].
  - rewrite (update_where_map _ _ _ _ _ Hnd Hu). now apply In_update_where_map.
Qed.

(** The Update handler with a negative price, on a well-formed table
    with the engine up: the request fails with the repository's 500
    exception after the write, and the stored record carries the
    negative price. *)
Lemma update_handler_negative_price (w : World) (r : Row) (price' : Q) :
  wf_table (table w) -> no_outage 2 w ->
  In r (table w) -> row_available r = true -> (price' < 0)%Q ->
  exists w',
    UpdateProductHandler.execute (row_id r) (mkUpdateData None (Some price')) w
    = (Throw (RpcException 500 "Database error updating product."), w')
    /\ In (mkRow (row_id r) (row_name r) price' (row_available r)) (table w')
    /\ log w' = call_update :: call_findFirst :: log w.
Proof.
  intros Hwf Ho Hin Hav Hneg.
  pose proof (RunFacts.findById_found r w Hwf (RunFacts.no_outage_hd _ _ Ho) Hin Hav) as Hf.
  destruct (update_negative_price r None price' (advance call_findFirst w))
    as [t' [Hu Ht']];
    [ exact Hwf
    | exact (RunFacts.no_outage_hd _ _ (RunFacts.no_outage_advance _ call_findFirst _ Ho))
    | exact Hin | exact Hneg |].
  eexists. split; [|split].
  - unfold UpdateProductHandler.execute, try_catch, bind.
    rewrite Hf. unfold bind in Hu |- *. rewrite Hu. reflexivity.
  - exact Ht'.
  - reflexivity.
Qed.



End InvalidFacts.




(** The scenario of the specification, run: the price of "a" is -5
    afterwards, and "a" can no longer be fetched. *)
Example update_a_price_minus_5 :
  let w' := snd (UpdateProductHandler.execute "a" (mkUpdateData None (Some (-5 # 1)%Q)) world_a) in
  fst (UpdateProductHandler.execute "a" (mkUpdateData None (Some (-5 # 1)%Q)) world_a)
  = Throw (RpcException 500 "Database error updating product.")
  /\ table w' = [mkRow "a" "A" (-5 # 1) true]
  /\ fst (FindOneProductHandler.execute "a" w')
     = Throw (RpcException 404 "Product with id #a not found or not available").
Proof. repeat split. Qed.

(** C5 (the code departs from the claim).  Create with a name of three
    spaces succeeds and stores the name as given, and Update with the
    empty name succeeds and stores it: neither handler goes through the
    entity's name check, and nothing is trimmed. *)
Theorem C5_blank_names_are_stored :
  CreateProductHandler.execute "u1" "   " (1 # 1) (mkWorld [] [] [])
  = (Ok (Product.mk "u1" "   " (1 # 1) true),
     mkWorld [mkRow "u1" "   " (1 # 1) true] [] [call_create])
  /\ Js.trim "   " = ""
  /\ UpdateProductHandler.execute "a" (mkUpdateData (Some "") None) world_a
     = (Ok (Product.mk "a" "" (10 # 1) true),
        mkWorld [mkRow "a" "" (10 # 1) true] [] [call_update; call_findFirst]).
Proof. repeat split. Qed.

(** ** The entity's [updateDetails] (C7) *)

Module EntityFacts.

(** [updateDetails] never touches [id] and [available]. *)
Lemma updateDetails_id_available this name' price' :
  Product.id (fst (Product.updateDetails this name' price')) = Product.id this
  /\ Product.available (fst (Product.updateDetails this name' price'))
     = Product.available this.
Proof.
  unfold Product.updateDetails.
  destruct name' as [n|]; [destruct (Js.falsy n || _)|];
    (destruct price' as [p|]; [destruct (Qlt_le_dec p 0)|]); simpl; auto.
Qed.

(** A field that is not supplied keeps its value. *)
Lemma updateDetails_untouched this name' price' :
  (name' = None -> Product.name (fst (Product.updateDetails this name' price'))
                   = Product.name this)
  /\ (price' = None -> Product.price (fst (Product.updateDetails this name' price'))
                       = Product.price this).
Proof.
  unfold Product.updateDetails. split; intros ->.
  - destruct price' as [p|]; [destruct (Qlt_le_dec p 0)|]; reflexivity.
  - destruct name' as [n|]; [destruct (Js.falsy n || _)|]; reflexivity.
Qed.

(** A failure on the name, or on the price when no name is supplied,
    leaves the object as it was. *)
Lemma updateDetails_failure_unchanged this name' price' e :
  snd (Product.updateDetails this name' price') = Some e ->
  e = JsError "Product name cannot be empty." \/ name' = None ->
  fst (Product.updateDetails this name' price') = this.
Proof.
  unfold Product.updateDetails.
  destruct name' as [n|]; [destruct (Js.falsy n || _)|];
    (destruct price' as [p|]; [destruct (Qlt_le_dec p 0)|]); simpl;
    intros He [Hn|Hn]; try discriminate; try reflexivity;
    try (inversion He; subst e; discriminate); now destruct this.
Qed.

(** A failure on the price after a name that passes: the name has been
    assigned already. *)
Lemma updateDetails_price_failure this n p :
  (Js.falsy n || (String.length (Js.trim n) =? 0)%nat) = false -> (p < 0)%Q ->
  Product.updateDetails this (Some n) (Some p)
  = (Product.mk (Product.id this) (Js.trim n) (Product.price this) (Product.available this),
     Some (JsError "Product price cannot be negative.")).
Proof.
  intros Hn Hp. unfold Product.updateDetails. rewrite Hn.
  destruct (Qlt_le_dec p 0) as [_|Hle]; [reflexivity|].
  exfalso. exact (Qlt_not_le _ _ Hp Hle).
Qed.

End EntityFacts.

(** C7 (the code departs from the claim).  [updateDetails("B", -5)] on
    the product named "A" throws the price error, and leaves the object
    with the name "B": the name is assigned before the price is
    checked. *)
Theorem C7_failed_updateDetails_has_renamed :
  Product.updateDetails (Product.mk "1" "A" (10 # 1) true) (Some "B") (Some (-5 # 1)%Q)
  = (Product.mk "1" "B" (10 # 1) true, Some (JsError "Product price cannot be negative.")).
Proof. reflexivity. Qed.

(** * Further properties of the handlers and the repository *)

(** ** How the Prisma calls and the lookups can end *)

Module CaseFacts.
Import TableFacts RunFacts.

Lemma product_update_cases id d w :
  (outage_next w
   /\ Prisma.product_update id d w = (Throw (PrismaError POther), advance call_update w))
  \/ (hd false (outages w) = false /\ Prisma.update_where id d (table w) = None
      /\ Prisma.product_update id d w = (Throw (PrismaError P2025), advance call_update w))
  \/ (hd false (outages w) = false
      /\ exists r' t',
           Prisma.update_where id d (table w) = Some (r', t')
           /\ Prisma.product_update id d w
              = (Ok r', mkWorld t' (tl (outages w)) (call_update :: log w))).
Proof.
  unfold Prisma.product_update, bind, outage_next.
  destruct (hd false (outages w)) eqn:Ho.
  - left. split; [reflexivity|]. now rewrite (call_outage _ _ Ho).
  - right. rewrite (call_ok _ _ Ho). simpl.
    destruct (Prisma.update_where id d (table w)) as [[r' t']|] eqn:E.
    + right. split; [reflexivity|]. exists r', t'. split; reflexivity.
    + left. auto.
Qed.

(** [findById] answers [null], or the available record with that key
    that comes first in the table, whose price is not negative. *)
Lemma findById_cases id w :
  PrismaProductRepository.findById id w = (Ok None, advance call_findFirst w)
  \/ exists r,
       find (fun x => String.eqb id (row_id x) && row_available x) (table w) = Some r
       /\ (0 <= row_price r)%Q
       /\ PrismaProductRepository.findById id w
          = (Ok (Some (to_product r)), advance call_findFirst w).
Proof.
  unfold PrismaProductRepository.findById, Prisma.product_findFirst_available,
    try_catch, bind.
  destruct (call_cases call_findFirst w) as [-> | ->]; simpl; [|now left].
  destruct (find _ (table w)) as [r|] eqn:E; [|now left].
  unfold lift, PrismaProductRepository.mapToDomain,
    PrismaProductRepository.mapToDomain_row, Product.new.
  destruct (Qlt_le_dec (row_price r) 0) as [Hlt|Hle]; [now left|].
  right. exists r. repeat split. exact Hle.
Qed.

Lemma find_available_some id t r :
  find (fun x => String.eqb id (row_id x) && row_available x) t = Some r ->
  In r t /\ row_id r = id /\ row_available r = true.
Proof.
  intros H. apply find_some in H. destruct H as [Hin Hb].
  apply andb_true_iff in Hb. destruct Hb as [He Ha].
  apply String.eqb_eq in He. auto.
Qed.

End CaseFacts.

(** X1.  In every world, FindOne of [id] either returns a stored record
    with that key that is available, or fails with the 404 exception; in
    both cases it makes one read and leaves the table as it is. *)
Theorem X1_find_one_returns_available_or_404 (w : World) (id : string) :
  (exists r,
     In r (table w) /\ row_id r = id /\ row_available r = true
     /\ FindOneProductHandler.execute id w
        = (Ok (to_product r), advance call_findFirst w))
  \/ FindOneProductHandler.execute id w
     = (Throw (RpcException 404 (not_available_msg id)), advance call_findFirst w).
Proof.
  destruct (CaseFacts.findById_cases id w) as [Hn | [r [Hfind [_ Hf]]]].
  - right. unfold FindOneProductHandler.execute. now apply RunFacts.lookup_404.
  - left. exists r.
    destruct (CaseFacts.find_available_some _ _ _ Hfind) as [Hin [Hid Hav]].
    repeat split; try assumption.
    unfold FindOneProductHandler.execute, try_catch, bind. now rewrite Hf.
Qed.

(** ** Creation, further *)

Module CreateMoreFacts.
Import TableFacts RunFacts.

Lemma no_outage_2 w :
  no_outage 2 w -> hd false (outages w) = false /\ hd false (tl (outages w)) = false.
Proof.
  intros H. split; [exact (no_outage_hd _ _ H)|].
  exact (no_outage_hd _ _ (no_outage_advance _ call_create _ H)).
Qed.

(** The engine fails, or the key is taken: 500, and nothing is stored. *)
Lemma create_refused uuid name price w :
  outage_next w \/ Prisma.has_id uuid (table w) = true ->
  CreateProductHandler.execute uuid name price w
  = (Throw (RpcException 500 "Database error creating product."), advance call_create w).
Proof.
  intros H.
  unfold CreateProductHandler.execute, PrismaProductRepository.create, try_catch, bind.
  simpl create_id. simpl create_name. simpl create_price.
  destruct (CreateFacts.product_create_cases uuid name price w)
    as [[Ho ->] | [[Ho [Hid ->]] | [Ho [Hid ->]]]]; try reflexivity.
  exfalso. destruct H as [H|H]; [unfold outage_next in H|]; congruence.
Qed.

(** The engine is up and the key is free: the record is stored, and
    then the entity is built from it. *)
Lemma create_stored uuid name price w :
  hd false (outages w) = false -> Prisma.has_id uuid (table w) = false ->
  CreateProductHandler.execute uuid name price w
  = (match PrismaProductRepository.mapToDomain_row (mkRow uuid name price true) with
     | Ok p => Ok p
     | Throw _ => Throw (RpcException 500 "Database error creating product.")
     end,
     mkWorld (table w ++ [mkRow uuid name price true]) (tl (outages w))
             (call_create :: log w)).
Proof.
  intros Ho Hid.
  unfold CreateProductHandler.execute, PrismaProductRepository.create, try_catch, bind.
  simpl create_id. simpl create_name. simpl create_price.
  destruct (CreateFacts.product_create_cases uuid name price w)
    as [[Ho' _] | [[_ [Hid' _]] | [_ [_ ->]]]];
    [unfold outage_next in Ho'; congruence | congruence |].
  unfold lift.
  destruct (PrismaProductRepository.mapToDomain_row (mkRow uuid name price true));
    reflexivity.
Qed.

Lemma find_after_insert id (t : list Row) (r : Row) :
  Prisma.has_id id t = false ->
  find (fun x => String.eqb id (row_id x) && row_available x) (t ++ [r])
  = find (fun x => String.eqb id (row_id x) && row_available x) [r].
Proof.
  induction t as [|y t IH]; simpl; [reflexivity|].
  destruct (String.eqb id (row_id y)); simpl; [discriminate | exact IH].
Qed.

End CreateMoreFacts.

(** X2.  Create, then FindOne: for a price that is not negative, with
    the engine up for both requests and the generated identifier unused,
    FindOne of that identifier right after Create returns the product
    that Create returned. *)
Theorem X2_find_one_after_create
    (w : World) (randomUUID name : string) (price : Q) :
  (0 <= price)%Q -> no_outage 2 w -> Prisma.has_id randomUUID (table w) = false ->
  let created := Product.mk randomUUID name price true in
  let w1 := snd (CreateProductHandler.execute randomUUID name price w) in
  fst (CreateProductHandler.execute randomUUID name price w) = Ok created
  /\ FindOneProductHandler.execute randomUUID w1
     = (Ok created, advance call_findFirst w1).
Proof.
  intros Hprice Ho Hid created w1.
  destruct (CreateMoreFacts.no_outage_2 w Ho) as [Ho1 Ho2].
  assert (Hmap : PrismaProductRepository.mapToDomain_row (mkRow randomUUID name price true)
                 = Ok created) by (now apply TableFacts.mapToDomain_row_ok).
  pose proof (CreateMoreFacts.create_stored randomUUID name price w Ho1 Hid) as Hc.
  rewrite Hmap in Hc. unfold w1. rewrite Hc. simpl fst. simpl snd.
  split; [reflexivity|].
  unfold FindOneProductHandler.execute, PrismaProductRepository.findById,
    Prisma.product_findFirst_available, try_catch, bind.
  rewrite RunFacts.call_ok by exact Ho2.
  unfold Prisma.get_table, ret, advance. simpl table.
  rewrite (CreateMoreFacts.find_after_insert _ _ _ Hid). simpl find.
  rewrite String.eqb_refl. simpl andb. cbv iota.
  unfold lift, PrismaProductRepository.mapToDomain. rewrite Hmap. reflexivity.
Qed.

Lemma X2_find_one_after_create_witness :
  (0 <= 30 # 1)%Q /\ no_outage 2 world_ab /\ Prisma.has_id "c" (table world_ab) = false
  /\ fst (FindOneProductHandler.execute "c"
            (snd (CreateProductHandler.execute "c" "C" (30 # 1) world_ab)))
     = Ok (Product.mk "c" "C" (30 # 1) true).
Proof.
  assert (Hprice : (0 <= 30 # 1)%Q) by discriminate.
  split; [exact Hprice|]. split; [reflexivity|]. split; [reflexivity|].
  destruct (X2_find_one_after_create world_ab "c" "C" (30 # 1) Hprice eq_refl eq_refl)
    as [_ H].
  exact (f_equal fst H).
Defined.

(** X3.  Create never overwrites: when the generated identifier is
    already the key of a record, available or not, or when the engine
    fails, Create fails with the 500 exception and the table is left as
    it is. *)
Theorem X3_create_refused_leaves_table
    (w : World) (randomUUID name : string) (price : Q) :
  outage_next w \/ Prisma.has_id randomUUID (table w) = true ->
  CreateProductHandler.execute randomUUID name price w
  = (Throw (RpcException 500 "Database error creating product."), advance call_create w)
  /\ table (advance call_create w) = table w.
Proof.
  intros H. split; [now apply CreateMoreFacts.create_refused | reflexivity].
Qed.

Lemma X3_create_refused_leaves_table_witness :
  Prisma.has_id "c" (table world_abc) = true
  /\ CreateProductHandler.execute "c" "again" (1 # 1) world_abc
     = (Throw (RpcException 500 "Database error creating product."),
        advance call_create world_abc).
Proof.
  split; [reflexivity|].
  exact (proj1 (X3_create_refused_leaves_table world_abc "c" "again" (1 # 1)
                  (or_intror eq_refl))).
Defined.

(** X4.  Create with a price below zero, the engine up and the
    identifier unused: the record is stored first, then the entity's
    constructor throws, so Create fails with the 500 exception and the
    table has the new record, available and with the negative price. *)
Theorem X4_create_negative_price_is_stored
    (w : World) (randomUUID name : string) (price : Q) :
  (price < 0)%Q -> no_outage 1 w -> Prisma.has_id randomUUID (table w) = false ->
  CreateProductHandler.execute randomUUID name price w
  = (Throw (RpcException 500 "Database error creating product."),
     mkWorld (table w ++ [mkRow randomUUID name price true]) (tl (outages w))
             (call_create :: log w)).
Proof.
  intros Hneg Ho Hid.
  rewrite (CreateMoreFacts.create_stored randomUUID name price w
             (RunFacts.no_outage_hd _ _ Ho) Hid).
  now rewrite TableFacts.mapToDomain_row_neg.
Qed.

Lemma X4_create_negative_price_is_stored_witness :
  (-1 # 1 < 0)%Q /\ no_outage 1 world_a /\ Prisma.has_id "n" (table world_a) = false
  /\ table (snd (CreateProductHandler.execute "n" "N" (-1 # 1) world_a))
     = [mkRow "a" "A" (10 # 1) true; mkRow "n" "N" (-1 # 1) true].
Proof.
  assert (Hneg : (-1 # 1 < 0)%Q) by reflexivity.
  split; [exact Hneg|]. split; [reflexivity|]. split; [reflexivity|].
  exact (f_equal (fun x => table (snd x))
           (X4_create_negative_price_is_stored world_a "n" "N" (-1 # 1) Hneg eq_refl eq_refl)).
Defined.

Module ListingFacts.
Import TableFacts.

Lemma order_by_id_snoc (rows : list Row) (r : Row) :
  NoDup (map row_id (rows ++ [r])) ->
  Prisma.order_by_id (rows ++ [r]) = Prisma.insert_by_id r (Prisma.order_by_id rows).
Proof.
  intros Hnd. apply OrderFacts.sorted_perm_eq.
  - eapply OrderFacts.NoDup_ids_perm; [apply OrderFacts.order_by_id_perm | exact Hnd].
  - apply OrderFacts.order_by_id_sorted.
  - apply OrderFacts.insert_by_id_sorted, OrderFacts.order_by_id_sorted.
  - rewrite <- OrderFacts.order_by_id_perm, <- OrderFacts.insert_by_id_perm.
    rewrite <- OrderFacts.order_by_id_perm. symmetry. apply Permutation_cons_append.
Qed.

Lemma map_insert_by_id (r : Row) (rows : list Row) :
  map to_product (Prisma.insert_by_id r rows)
  = insert_in_key_order (to_product r) (map to_product rows).
Proof.
  induction rows as [|x rows IH]; simpl; [reflexivity|].
  destruct (String.leb (row_id r) (row_id x)); simpl; [reflexivity | now rewrite IH].
Qed.

Lemma NoDup_ids_snoc (t : list Row) (r : Row) :
  NoDup (map row_id t) -> Prisma.has_id (row_id r) t = false ->
  NoDup (map row_id (t ++ [r])).
Proof.
  intros Hnd Hid. apply (OrderFacts.NoDup_ids_perm (r :: t)).
  - apply Permutation_cons_append.
  - simpl. constructor; [now apply has_id_false | exact Hnd].
Qed.

Lemma without_absent (id : string) (ps : list Product.t) :
  ~ In id (map Product.id ps) -> without_id id ps = ps.
Proof.
  unfold without_id. induction ps as [|q ps IH]; simpl; intros Hnot; [reflexivity|].
  destruct (String.eqb_spec id (Product.id q)) as [E|_]; simpl.
  - exfalso. apply Hnot. left. now symmetry.
  - f_equal. apply IH. intros H. apply Hnot. now right.
Qed.

(** Taking the new product out of the listing gives the old one. *)
Lemma without_inserted (p : Product.t) (ps : list Product.t) :
  ~ In (Product.id p) (map Product.id ps) ->
  without_id (Product.id p) (insert_in_key_order p ps) = ps.
Proof.
  induction ps as [|q ps IH]; simpl; intros Hnot.
  - unfold without_id. simpl. now rewrite String.eqb_refl.
  - destruct (String.leb (Product.id p) (Product.id q)).
    + unfold without_id. simpl. rewrite String.eqb_refl. simpl.
      exact (without_absent (Product.id p) (q :: ps) Hnot).
    + unfold without_id. simpl.
      destruct (String.eqb_spec (Product.id p) (Product.id q)) as [E|_]; simpl.
      * exfalso. apply Hnot. left. now symmetry.
      * f_equal. apply IH. intros H. apply Hnot. now right.
Qed.

Lemma listing_ids (t : list Row) (id : string) :
  In id (map Product.id (listing t)) -> In id (map row_id t).
Proof.
  unfold listing. rewrite map_map. simpl. intros H.
  apply in_map_iff in H. destruct H as [r [<- Hr]].
  apply (proj1 (OrderFacts.order_by_id_In _ _)) in Hr. apply filter_In in Hr.
  apply in_map. tauto.
Qed.

End ListingFacts.

(** X5.  Under the key of the table, a successful Create puts the
    product into the listing at its place in key order, before the
    first product with a larger key: taking it out again gives the
    listing before, so the other products keep their order. *)
Theorem X5_create_inserts_in_key_order
    (w : World) (randomUUID name : string) (price : Q) (p : Product.t) :
  NoDup (map row_id (table w)) ->
  fst (CreateProductHandler.execute randomUUID name price w) = Ok p ->
  let w' := snd (CreateProductHandler.execute randomUUID name price w) in
  listing (table w') = insert_in_key_order p (listing (table w))
  /\ without_id randomUUID (listing (table w')) = listing (table w).
Proof.
  intros Hnd Hok w'. unfold w'. clear w'.
  destruct (hd false (outages w)) eqn:Ho;
    [rewrite CreateMoreFacts.create_refused in Hok by (now left); discriminate|].
  destruct (Prisma.has_id randomUUID (table w)) eqn:Hid;
    [rewrite CreateMoreFacts.create_refused in Hok by (now right); discriminate|].
  rewrite (CreateMoreFacts.create_stored randomUUID name price w Ho Hid) in Hok |- *.
  simpl in Hok |- *.
  assert (Hp : p = to_product (mkRow randomUUID name price true)).
  { unfold PrismaProductRepository.mapToDomain_row, Product.new in Hok. simpl in Hok.
    destruct (Qlt_le_dec price 0); [discriminate|]. inversion Hok. reflexivity. }
  assert (Hins : listing (table w ++ [mkRow randomUUID name price true])
                 = insert_in_key_order p (listing (table w))).
  { unfold listing. rewrite filter_app. simpl.
    rewrite ListingFacts.order_by_id_snoc.
    - now rewrite ListingFacts.map_insert_by_id, Hp.
    - change (filter row_available (table w) ++ [mkRow randomUUID name price true])%list
        with (filter row_available (table w)
              ++ filter row_available [mkRow randomUUID name price true])%list.
      rewrite <- filter_app.
      apply OrderFacts.NoDup_ids_filter, ListingFacts.NoDup_ids_snoc; assumption. }
  split; [exact Hins|].
  rewrite Hins.
  replace randomUUID with (Product.id p) by (now rewrite Hp).
  apply ListingFacts.without_inserted.
  intros Hin. apply ListingFacts.listing_ids in Hin.
  rewrite Hp in Hin. simpl in Hin.
  now apply (proj1 (TableFacts.has_id_false randomUUID (table w)) Hid).
Qed.

(** Product "a" created after "b" and "c": it is listed first. *)
Lemma X5_create_inserts_in_key_order_witness :
  let w := mkWorld [mkRow "b" "B" (20 # 1) true; mkRow "c" "C" (30 # 1) true] [] [] in
  NoDup (map row_id (table w))
  /\ fst (CreateProductHandler.execute "a" "A" (10 # 1) w)
     = Ok (Product.mk "a" "A" (10 # 1) true)
  /\ listing (table (snd (CreateProductHandler.execute "a" "A" (10 # 1) w)))
     = [Product.mk "a" "A" (10 # 1) true; Product.mk "b" "B" (20 # 1) true;
        Product.mk "c" "C" (30 # 1) true].
Proof.
  intros w.
  assert (Hnd : NoDup (map row_id (table w))).
  { repeat constructor; simpl; [|tauto]. intros [H|[]]. discriminate H. }
  assert (H : fst (CreateProductHandler.execute "a" "A" (10 # 1) w)
              = Ok (Product.mk "a" "A" (10 # 1) true)) by reflexivity.
  split; [exact Hnd|]. split; [exact H|].
  exact (proj1 (X5_create_inserts_in_key_order w "a" "A" (10 # 1) _ Hnd H)).
Defined.

(** ** Update and delete, further *)

Module UpdateMoreFacts.
Import TableFacts RunFacts CaseFacts.

Lemma update_where_elsewhere id d t r' t' :
  Prisma.update_where id d t = Some (r', t') -> same_elsewhere id t t'.
Proof.
  intros Hu. split.
  - rewrite <- (length_map row_id t'), <- (length_map row_id t).
    now rewrite (update_where_ids _ _ _ _ _ Hu).
  - revert r' t' Hu. induction t as [|y t IH]; simpl; intros r' t' Hu; [discriminate|].
    destruct (String.eqb_spec id (row_id y)) as [E|NE].
    + inversion Hu; subst. intros [|k] r Hk Hr; simpl in *; [|exact Hk].
      inversion Hk; subst. congruence.
    + destruct (Prisma.update_where id d t) as [[r1 t1]|]; [|discriminate].
      inversion Hu; subst. intros [|k] r Hk Hr; simpl in *; [exact Hk|].
      eapply IH; [reflexivity | eassumption | assumption].
Qed.

Lemma same_elsewhere_refl id t : same_elsewhere id t t.
Proof. split; auto. Qed.

Lemma key_injective (t : list Row) a b :
  NoDup (map row_id t) -> In a t -> In b t -> row_id a = row_id b -> a = b.
Proof.
  induction t as [|y t IH]; simpl; intros Hnd Ha Hb He; [contradiction|].
  inversion Hnd as [|? ? Hy Hnd']; subst.
  destruct Ha as [->|Ha], Hb as [->|Hb]; auto.
  - exfalso. apply Hy. rewrite He. now apply in_map.
  - exfalso. apply Hy. rewrite <- He. now apply in_map.
Qed.

Lemma rewrite_at_eq id (f : Row -> Row) (t : list Row) :
  (forall x, In x t -> row_id x = id -> f x = x) -> rewrite_at id f t = t.
Proof.
  intros H. unfold rewrite_at. rewrite <- (map_id t) at 2.
  apply map_ext_in. intros x Hx.
  destruct (String.eqb_spec id (row_id x)) as [E|_]; [|reflexivity].
  now apply H.
Qed.

(** What the repository's [update] can leave as a table: the same one,
    or the one with the record of that key updated. *)
Lemma repo_update_table id changes w :
  table (snd (PrismaProductRepository.update id changes w)) = table w
  \/ exists r' t',
       Prisma.update_where id (PrismaProductRepository.mapToPrismaUpdateData changes)
                           (table w) = Some (r', t')
       /\ table (snd (PrismaProductRepository.update id changes w)) = t'.
Proof.
  unfold PrismaProductRepository.update. cbv zeta.
  destruct (_ =? 0)%nat.
  - left. unfold bind. destruct (findById_returns id w) as [[p|] ->]; reflexivity.
  - unfold try_catch, bind.
    destruct (product_update_cases id
                (PrismaProductRepository.mapToPrismaUpdateData changes) w)
      as [[_ ->] | [[_ [_ ->]] | [_ [r' [t' [Hu ->]]]]]]; [now left | now left |].
    right. exists r', t'. split; [exact Hu|].
    unfold lift. destruct (PrismaProductRepository.mapToDomain_row r') as [p|e];
      [reflexivity | destruct (code_is_P2025 e); reflexivity].
Qed.

Lemma softDelete_table id w :
  table (snd (PrismaProductRepository.softDelete id w)) = table w
  \/ exists r' t',
       Prisma.update_where id mark_unavailable (table w) = Some (r', t')
       /\ table (snd (PrismaProductRepository.softDelete id w)) = t'.
Proof.
  unfold PrismaProductRepository.softDelete, try_catch, bind. fold mark_unavailable.
  destruct (product_update_cases id mark_unavailable w)
    as [[_ ->] | [[_ [_ ->]] | [_ [r' [t' [Hu ->]]]]]]; [now left | now left |].
  right. exists r', t'. split; [exact Hu|].
  unfold lift. destruct (PrismaProductRepository.mapToDomain_row r') as [p|e];
    [reflexivity | destruct (code_is_P2025 e); reflexivity].
Qed.

(** The same for the handlers: a write happens only after the lookup
    has found an available record with the key. *)
Lemma guarded_table {A} (id msg dflt : string) (k : M A) (d : Prisma.UpdateInput) w :
  (forall w1, table (snd (k w1)) = table w1
              \/ exists r' t', Prisma.update_where id d (table w1) = Some (r', t')
                               /\ table (snd (k w1)) = t') ->
  let handler :=
    try_catch
      (existing <- PrismaProductRepository.findById id ;;
       match existing with
       | None => throw (RpcException 404 msg)
       | Some _ => x <- k ;; ret x
       end)
      (rethrow_or_rewrap dflt) in
  table (snd (handler w)) = table w
  \/ (exists x, find (fun x => String.eqb id (row_id x) && row_available x) (table w)
                = Some x)
     /\ exists r' t', Prisma.update_where id d (table w) = Some (r', t')
                      /\ table (snd (handler w)) = t'.
Proof.
  intros Hk handler. unfold handler, try_catch, bind.
  destruct (findById_cases id w) as [-> | [x [Hfind [_ ->]]]]; [now left|].
  specialize (Hk (advance call_findFirst w)). simpl table in Hk.
  destruct (k (advance call_findFirst w)) as [[p|e] w2]; simpl in *.
  - destruct Hk as [Hk | [r' [t' [Hu Hk]]]]; [now left|].
    right. split; [now exists x|]. now exists r', t'.
  - rewrite QueryFacts.rethrow_keeps_table.
    destruct Hk as [Hk | [r' [t' [Hu Hk]]]]; [now left|].
    right. split; [now exists x|]. now exists r', t'.
Qed.

Lemma update_handler_table id changes w :
  table (snd (UpdateProductHandler.execute id changes w)) = table w
  \/ (exists x, find (fun x => String.eqb id (row_id x) && row_available x) (table w)
                = Some x)
     /\ exists r' t',
          Prisma.update_where id (PrismaProductRepository.mapToPrismaUpdateData changes)
                              (table w) = Some (r', t')
          /\ table (snd (UpdateProductHandler.execute id changes w)) = t'.
Proof.
  apply (guarded_table id (not_available_msg id) "Failed to update product."
           (PrismaProductRepository.update id changes)).
  intros w1. apply repo_update_table.
Qed.

Lemma delete_handler_table id w :
  table (snd (DeleteProductHandler.execute id w)) = table w
  \/ (exists x, find (fun x => String.eqb id (row_id x) && row_available x) (table w)
                = Some x)
     /\ exists r' t',
          Prisma.update_where id mark_unavailable (table w) = Some (r', t')
          /\ table (snd (DeleteProductHandler.execute id w)) = t'.
Proof.
  apply (guarded_table id (already_unavailable_msg id) "Failed to delete product."
           (PrismaProductRepository.softDelete id)).
  intros w1. apply softDelete_table.
Qed.

End UpdateMoreFacts.

Module UpdateOkFacts.
Import TableFacts RunFacts CaseFacts UpdateMoreFacts.

Lemma updated_row_no_changes r : updated_row no_changes r = r.
Proof. now destruct r. Qed.

Lemma updated_row_price changes r :
  (0 <= row_price r)%Q ->
  (forall p, update_price changes = Some p -> (0 <= p)%Q) ->
  (0 <= row_price (updated_row changes r))%Q.
Proof.
  intros Hr Hp. unfold updated_row, Prisma.apply_update. simpl.
  destruct (update_price changes) as [p|]; [now apply Hp | exact Hr].
Qed.

Lemma row_price_ok t r : prices_ok t -> In r t -> (0 <= row_price r)%Q.
Proof. unfold prices_ok. rewrite Forall_forall. intros H Hin. now apply H. Qed.

(** The repository's [update] of an available product with prices that
    are not negative. *)
Lemma repo_update_ok r changes w :
  wf_table (table w) -> no_outage 1 w -> In r (table w) -> row_available r = true ->
  (forall p, update_price changes = Some p -> (0 <= p)%Q) ->
  exists w',
    PrismaProductRepository.update (row_id r) changes w
    = (Ok (to_product (updated_row changes r)), w')
    /\ table w' = rewrite_at (row_id r) (updated_row changes) (table w)
    /\ outages w' = tl (outages w).
Proof.
  intros Hwf Ho Hin Hav Hp. pose proof Hwf as [Hnd Hpr].
  unfold PrismaProductRepository.update. cbv zeta.
  destruct (_ =? 0)%nat eqn:Hkeys.
  - assert (Hc : changes = no_changes).
    { destruct changes as [[n|] [p|]]; simpl in Hkeys; try discriminate. reflexivity. }
    subst changes. eexists. split.
    + unfold bind. rewrite (findById_found r w Hwf (no_outage_hd _ _ Ho) Hin Hav).
      now rewrite updated_row_no_changes.
    + split; [|reflexivity].
      simpl. symmetry. apply rewrite_at_eq. intros x _ _. apply updated_row_no_changes.
  - destruct (update_where_Some (PrismaProductRepository.mapToPrismaUpdateData changes)
                _ _ Hin Hnd) as [t' Hu].
    eexists. split.
    + unfold Prisma.product_update, try_catch, bind.
      rewrite (call_ok _ _ (no_outage_hd _ _ Ho)). simpl. rewrite Hu. simpl.
      unfold lift. rewrite mapToDomain_row_ok; [reflexivity|].
      apply updated_row_price; [eapply row_price_ok; eassumption | exact Hp].
    + split; [|reflexivity]. simpl. exact (update_where_map _ _ _ _ _ Hnd Hu).
Qed.

(** The same for the handler, after its lookup. *)
Lemma update_handler_ok r changes w :
  wf_table (table w) -> no_outage 2 w -> In r (table w) -> row_available r = true ->
  (forall p, update_price changes = Some p -> (0 <= p)%Q) ->
  exists w',
    UpdateProductHandler.execute (row_id r) changes w
    = (Ok (to_product (updated_row changes r)), w')
    /\ table w' = rewrite_at (row_id r) (updated_row changes) (table w)
    /\ outages w' = tl (tl (outages w)).
Proof.
  intros Hwf Ho Hin Hav Hp.
  pose proof (findById_found r w Hwf (no_outage_hd _ _ Ho) Hin Hav) as Hf.
  destruct (repo_update_ok r changes (advance call_findFirst w))
    as [w' [Hu [Ht Hout]]];
    [ exact Hwf | exact (no_outage_advance _ call_findFirst _ Ho)
    | exact Hin | exact Hav | exact Hp |].
  exists w'. split; [|split; [exact Ht | exact Hout]].
  unfold UpdateProductHandler.execute, try_catch, bind.
  rewrite Hf. unfold bind in Hu |- *. now rewrite Hu.
Qed.

Lemma rewrite_at_ids id (f : Row -> Row) (t : list Row) :
  (forall x, row_id (f x) = row_id x) -> map row_id (rewrite_at id f t) = map row_id t.
Proof.
  intros Hf. unfold rewrite_at. rewrite map_map. apply map_ext. intros x.
  destruct (String.eqb id (row_id x)); [apply Hf | reflexivity].
Qed.

Lemma wf_after_update r changes (t : list Row) :
  wf_table t -> (forall p, update_price changes = Some p -> (0 <= p)%Q) ->
  wf_table (rewrite_at (row_id r) (updated_row changes) t).
Proof.
  intros [Hnd Hpr] Hp. split.
  - rewrite rewrite_at_ids; [exact Hnd | reflexivity].
  - unfold prices_ok, rewrite_at. rewrite Forall_map. unfold prices_ok in Hpr.
    rewrite Forall_forall in Hpr |- *. intros x Hx.
    destruct (String.eqb (row_id r) (row_id x));
      [apply updated_row_price; auto | auto].
Qed.

End UpdateOkFacts.

(** X6.  On a well-formed table with the engine up, Update of an
    available product with a price that, if supplied, is not negative,
    returns the product with its key, still available, with the name
    as supplied (it is not trimmed) or else as it was, and with a price
    that is not negative, the one it had when none is supplied; the
    table has that record rewritten in place to what is returned, and
    all other records as before. *)
Theorem X6_update_stores_the_changes (w : World) (r : Row) (changes : UpdateProductData) :
  wf_table (table w) -> no_outage 2 w -> In r (table w) -> row_available r = true ->
  (forall p, update_price changes = Some p -> (0 <= p)%Q) ->
  let name' := match update_name changes with Some n => n | None => row_name r end in
  exists price',
    (0 <= price')%Q
    /\ (update_price changes = None -> price' = row_price r)
    /\ fst (UpdateProductHandler.execute (row_id r) changes w)
       = Ok (Product.mk (row_id r) name' price' true)
    /\ table (snd (UpdateProductHandler.execute (row_id r) changes w))
       = rewrite_at (row_id r) (fun x => mkRow (row_id x) name' price' (row_available x))
                    (table w).
Proof.
  intros Hwf Ho Hin Hav Hp name'.
  exists (match update_price changes with Some p => p | None => row_price r end).
  split; [|split].
  { destruct (update_price changes) as [p|]; [now apply Hp|].
    destruct Hwf as [_ Hpr]. eapply UpdateOkFacts.row_price_ok; eassumption. }
  { now intros ->. }
  pose proof (RunFacts.findById_found r w Hwf (RunFacts.no_outage_hd _ _ Ho) Hin Hav) as Hf.
  destruct (UpdateOkFacts.repo_update_ok r changes (advance call_findFirst w))
    as [w' [Hu [Ht _]]];
    [ exact Hwf | exact (RunFacts.no_outage_advance _ call_findFirst _ Ho)
    | exact Hin | exact Hav | exact Hp |].
  unfold UpdateProductHandler.execute, try_catch, bind.
  rewrite Hf. unfold bind in Hu |- *. rewrite Hu. simpl. split.
  - unfold to_product, updated_row, Prisma.apply_update. simpl. now rewrite Hav.
  - rewrite Ht. simpl. unfold rewrite_at. apply map_ext_in. intros x Hx.
    destruct (String.eqb_spec (row_id r) (row_id x)) as [E|_]; [|reflexivity].
    destruct Hwf as [Hnd _].
    now rewrite <- (UpdateMoreFacts.key_injective _ _ _ Hnd Hin Hx E).
Qed.

Lemma X6_update_stores_the_changes_witness :
  wf_table (table world_ab) /\ no_outage 2 world_ab
  /\ exists price',
       fst (UpdateProductHandler.execute "b" (mkUpdateData (Some " B2 ") None) world_ab)
       = Ok (Product.mk "b" " B2 " price' true)
       /\ table (snd (UpdateProductHandler.execute "b" (mkUpdateData (Some " B2 ") None)
                        world_ab))
          = [mkRow "a" "A" (10 # 1) true; mkRow "b" " B2 " price' true].
Proof.
  split; [exact wf_world_ab|]. split; [reflexivity|].
  destruct (X6_update_stores_the_changes world_ab (mkRow "b" "B" (20 # 1) true)
              (mkUpdateData (Some " B2 ") None) wf_world_ab eq_refl
              (or_intror (or_introl eq_refl)) eq_refl)
    as [price' [_ [Hsame [H1 H2]]]];
    [discriminate|].
  exists price'. split; [exact H1|].
  eapply eq_trans; [exact H2|].
  rewrite (Hsame eq_refl). reflexivity.
Defined.

(** X7.  In every world and for every input, Update and Delete of [id]
    leave the number of records as it is and every record with another
    key where and what it was. *)
Theorem X7_update_and_delete_touch_one_key
    (w : World) (id : string) (changes : UpdateProductData) :
  same_elsewhere id (table w) (table (snd (UpdateProductHandler.execute id changes w)))
  /\ same_elsewhere id (table w) (table (snd (DeleteProductHandler.execute id w))).
Proof.
  split.
  - destruct (UpdateMoreFacts.update_handler_table id changes w)
      as [-> | [_ [r' [t' [Hu ->]]]]];
      [apply UpdateMoreFacts.same_elsewhere_refl
      | eapply UpdateMoreFacts.update_where_elsewhere; eassumption].
  - destruct (UpdateMoreFacts.delete_handler_table id w)
      as [-> | [_ [r' [t' [Hu ->]]]]];
      [apply UpdateMoreFacts.same_elsewhere_refl
      | eapply UpdateMoreFacts.update_where_elsewhere; eassumption].
Qed.

(** X8.  When no available record has the key [id] (never created, or
    soft-deleted), FindOne and Update of [id] fail with the 404
    exception, whatever the changes and the state of the engine; they
    make one read and leave the table as it is. *)
Theorem X8_absent_product_is_404
    (w : World) (id : string) (changes : UpdateProductData) :
  absent id (table w) ->
  FindOneProductHandler.execute id w
  = (Throw (RpcException 404 (not_available_msg id)), advance call_findFirst w)
  /\ UpdateProductHandler.execute id changes w
     = (Throw (RpcException 404 (not_available_msg id)), advance call_findFirst w).
Proof.
  intros H. pose proof (RunFacts.findById_absent id w H) as Hf. split.
  - unfold FindOneProductHandler.execute. now apply RunFacts.lookup_404.
  - unfold UpdateProductHandler.execute. now apply RunFacts.lookup_404.
Qed.

Lemma absent_c_world_abc : absent "c" (table world_abc).
Proof.
  intros r [<-|[<-|[<-|[]]]]; simpl; intros H; try discriminate; reflexivity.
Qed.

Lemma X8_absent_product_is_404_witness :
  absent "c" (table world_abc)
  /\ fst (UpdateProductHandler.execute "c" (mkUpdateData (Some "C2") None) world_abc)
     = Throw (RpcException 404 "Product with id #c not found or not available").
Proof.
  split; [exact absent_c_world_abc|].
  exact (f_equal fst (proj2 (X8_absent_product_is_404 world_abc "c"
                              (mkUpdateData (Some "C2") None) absent_c_world_abc))).
Defined.

Module DeleteMoreFacts.
Import TableFacts RunFacts CaseFacts UpdateMoreFacts.

Lemma listing_after_mark id (t : list Row) :
  available_products (rewrite_at id (Prisma.apply_update mark_unavailable) t)
  = without_id id (available_products t).
Proof.
  unfold available_products, without_id, rewrite_at.
  induction t as [|x t IH]; simpl; [reflexivity|].
  destruct (String.eqb id (row_id x)) eqn:E; simpl.
  - rewrite IH. destruct (row_available x); simpl; [now rewrite E | reflexivity].
  - destruct (row_available x); simpl; [now rewrite E, IH | exact IH].
Qed.

Lemma without_id_none id (t : list Row) :
  ~ In id (map row_id t) -> without_id id (available_products t) = available_products t.
Proof.
  unfold available_products, without_id.
  induction t as [|x t IH]; simpl; intros H; [reflexivity|].
  destruct (row_available x); simpl; [|apply IH; tauto].
  destruct (String.eqb_spec id (row_id x)) as [E|_]; simpl;
    [exfalso; apply H; left; now symmetry|].
  f_equal. apply IH. tauto.
Qed.

Lemma listing_one_less (t : list Row) r :
  NoDup (map row_id t) -> In r t -> row_available r = true ->
  S (List.length (without_id (row_id r) (available_products t)))
  = List.length (available_products t).
Proof.
  induction t as [|x t IH]; simpl; intros Hnd Hin Hav; [contradiction|].
  inversion Hnd as [|? ? Hx Hnd']; subst.
  destruct Hin as [->|Hin].
  - unfold available_products at 1 2. simpl. rewrite Hav. simpl.
    rewrite String.eqb_refl. simpl.
    fold (available_products t). fold (without_id (row_id r) (available_products t)).
    now rewrite (without_id_none _ _ Hx).
  - assert (NE : row_id r <> row_id x).
    { intros E. apply Hx. rewrite <- E. now apply in_map. }
    unfold available_products at 1 2. simpl.
    destruct (row_available x); simpl.
    + destruct (String.eqb_spec (row_id r) (row_id x)) as [E|_]; [contradiction|]. simpl.
      f_equal. now apply IH.
    + now apply IH.
Qed.

(** The table after a successful Delete. *)
Lemma delete_table r w :
  wf_table (table w) -> no_outage 2 w -> In r (table w) -> row_available r = true ->
  table (snd (DeleteProductHandler.execute (row_id r) w))
  = rewrite_at (row_id r) (Prisma.apply_update mark_unavailable) (table w).
Proof.
  intros Hwf Ho Hin Hav.
  destruct (DeleteFacts.delete_ok r w Hwf Ho Hin Hav) as [t0 [Hex [_ Hab]]].
  destruct (delete_handler_table (row_id r) w) as [Hsame | [_ [r' [t' [Hu Ht]]]]].
  - exfalso. rewrite Hex in Hsame. simpl in Hsame. subst t0.
    rewrite (Hab r Hin eq_refl) in Hav. discriminate.
  - rewrite Ht. destruct Hwf as [Hnd _]. exact (update_where_map _ _ _ _ _ Hnd Hu).
Qed.

Lemma mark_unavailable_fixed r :
  row_available r = false -> Prisma.apply_update mark_unavailable r = r.
Proof. destruct r as [i n p a]. simpl. now intros ->. Qed.

Lemma map_M_snd {A B} (f : A -> B) (m : M A) w : snd (map_M f m w) = snd (m w).
Proof. unfold map_M, bind. destruct (m w) as [[a|e] w']; reflexivity. Qed.

Lemma create_table uuid name price w :
  table (snd (CreateProductHandler.execute uuid name price w)) = table w
  \/ table (snd (CreateProductHandler.execute uuid name price w))
     = (table w ++ [mkRow uuid name price true])%list.
Proof.
  destruct (hd false (outages w)) eqn:Ho;
    [left; now rewrite CreateMoreFacts.create_refused by (now left)|].
  destruct (Prisma.has_id uuid (table w)) eqn:Hid;
    [left; now rewrite CreateMoreFacts.create_refused by (now right)|].
  right. now rewrite (CreateMoreFacts.create_stored uuid name price w Ho Hid).
Qed.

(** A write guarded by the lookup does not reach an unavailable record
    when [id] is a key. *)
Lemma guarded_write_frozen id d (t t' : list Row) x r' :
  NoDup (map row_id t) ->
  find (fun y => String.eqb id (row_id y) && row_available y) t = Some x ->
  Prisma.update_where id d t = Some (r', t') ->
  unavailable_frozen t t'.
Proof.
  intros Hnd Hfind Hu k r Hk Hr.
  destruct (find_available_some _ _ _ Hfind) as [Hx [Hid Hav]].
  destruct (update_where_elsewhere _ _ _ _ _ Hu) as [_ Hel].
  apply Hel; [exact Hk|]. intros E.
  assert (r = x).
  { apply (key_injective t); [exact Hnd | eapply nth_error_In; eassumption
                             | exact Hx | congruence]. }
  subst r. congruence.
Qed.

Lemma execute_frozen i w :
  NoDup (map row_id (table w)) ->
  unavailable_frozen (table w) (table (snd (execute i w))).
Proof.
  intros Hnd.
  destruct i as [u n p | d | id | id d | id | ids];
    try (rewrite QueryFacts.query_keeps_table by reflexivity; intros k r Hk _; exact Hk);
    unfold execute; rewrite map_M_snd.
  - destruct (create_table u n p w) as [-> | ->]; intros k r Hk _; [exact Hk|].
    rewrite nth_error_app1; [exact Hk|]. apply nth_error_Some. congruence.
  - destruct (update_handler_table id d w) as [-> | [[x Hx] [r' [t' [Hu ->]]]]];
      [intros k r Hk _; exact Hk | eapply guarded_write_frozen; eassumption].
  - destruct (delete_handler_table id w) as [-> | [[x Hx] [r' [t' [Hu ->]]]]];
      [intros k r Hk _; exact Hk | eapply guarded_write_frozen; eassumption].
Qed.

End DeleteMoreFacts.

(** X9.  Once a product is soft-deleted it stays out, whatever intents
    run afterwards and whatever the engine does: its record stays
    unavailable, FindOne and Update of its id fail with the 404
    exception, Create under its id fails with the 500 exception, and it
    is not among the available products. *)
Theorem X9_deleted_product_stays_out
    (w : World) (id : string) (later : list Intent)
    (changes : UpdateProductData) (name : string) (price : Q) :
  deleted id (table w) ->
  let w' := run later w in
  deleted id (table w')
  /\ fst (FindOneProductHandler.execute id w')
     = Throw (RpcException 404 (not_available_msg id))
  /\ fst (UpdateProductHandler.execute id changes w')
     = Throw (RpcException 404 (not_available_msg id))
  /\ fst (CreateProductHandler.execute id name price w')
     = Throw (RpcException 500 "Database error creating product.")
  /\ (forall p, In p (available_products (table w')) -> Product.id p <> id).
Proof.
  intros Hd w'.
  assert (Hd' : deleted id (table w')).
  { eapply WriteFacts.writes_keep_deleted;
      [apply (WriteFacts.run_writes any_price), WriteFacts.any_intents | exact Hd]. }
  pose proof (RunFacts.findById_absent id w' (TableFacts.deleted_absent _ _ Hd')) as Hf.
  split; [exact Hd'|]. split; [|split; [|split]].
  - unfold FindOneProductHandler.execute.
    now rewrite (RunFacts.lookup_404 id (not_available_msg id)).
  - unfold UpdateProductHandler.execute.
    now rewrite (RunFacts.lookup_404 id (not_available_msg id)).
  - rewrite CreateMoreFacts.create_refused; [reflexivity|]. right. apply Hd'.
  - intros p Hp E. unfold available_products in Hp.
    apply in_map_iff in Hp. destruct Hp as [r [<- Hr]].
    apply filter_In in Hr. destruct Hr as [Hin Hav].
    destruct Hd' as [_ Hab]. rewrite (Hab r Hin E) in Hav. discriminate.
Qed.

Lemma deleted_c_world_abc : deleted "c" (table world_abc).
Proof. split; [reflexivity | exact absent_c_world_abc]. Qed.

Lemma X9_deleted_product_stays_out_witness :
  deleted "c" (table world_abc)
  /\ fst (FindOneProductHandler.execute "c"
            (run [UpdateProduct "c" (mkUpdateData (Some "C2") None);
                  CreateProduct "c" "C3" (1 # 1)] world_abc))
     = Throw (RpcException 404 "Product with id #c not found or not available").
Proof.
  split; [exact deleted_c_world_abc|].
  destruct (X9_deleted_product_stays_out world_abc "c"
              [UpdateProduct "c" (mkUpdateData (Some "C2") None);
               CreateProduct "c" "C3" (1 # 1)]
              no_changes "x" (1 # 1) deleted_c_world_abc) as [_ [H _]].
  exact H.
Defined.

(** X10.  On a well-formed table with the engine up, a Delete of an
    available product takes exactly that product out of the listing:
    the available products afterwards are those before, in the same
    order, without the one deleted, and there is one less of them. *)
Theorem X10_delete_removes_from_listing (w : World) (r : Row) :
  wf_table (table w) -> no_outage 2 w -> In r (table w) -> row_available r = true ->
  let w' := snd (DeleteProductHandler.execute (row_id r) w) in
  available_products (table w') = without_id (row_id r) (available_products (table w))
  /\ S (List.length (available_products (table w')))
     = List.length (available_products (table w)).
Proof.
  intros Hwf Ho Hin Hav w'. unfold w'.
  rewrite (DeleteMoreFacts.delete_table r w Hwf Ho Hin Hav).
  rewrite DeleteMoreFacts.listing_after_mark. split; [reflexivity|].
  destruct Hwf as [Hnd _]. now apply DeleteMoreFacts.listing_one_less.
Qed.

Lemma X10_delete_removes_from_listing_witness :
  wf_table (table world_ab) /\ no_outage 2 world_ab
  /\ available_products (table (snd (DeleteProductHandler.execute "a" world_ab)))
     = [Product.mk "b" "B" (20 # 1) true].
Proof.
  split; [exact wf_world_ab|]. split; [reflexivity|].
  exact (proj1 (X10_delete_removes_from_listing world_ab (mkRow "a" "A" (10 # 1) true)
                  wf_world_ab eq_refl (or_introl eq_refl) eq_refl)).
Defined.

(** X11.  With [id] a key of the table, no sequence of intents changes
    a record that is unavailable: a soft-deleted record keeps its place,
    name and price for ever. *)
Theorem X11_unavailable_records_are_frozen (w : World) (intents : list Intent) :
  NoDup (map row_id (table w)) ->
  unavailable_frozen (table w) (table (run intents w)).
Proof.
  revert w. induction intents as [|i intents IH]; intros w Hnd.
  - intros k r Hk _. exact Hk.
  - intros k r Hk Hr. apply (IH (snd (execute i w))).
    + eapply (WriteFacts.writes_keep_key any_price); [|exact Hnd].
      apply WriteFacts.execute_only_writes, WriteFacts.any_intent.
    + now apply DeleteMoreFacts.execute_frozen.
    + exact Hr.
Qed.

Lemma X11_unavailable_records_are_frozen_witness :
  NoDup (map row_id (table world_abc))
  /\ nth_error (table (run [UpdateProduct "c" (mkUpdateData (Some "C2") (Some (1 # 1)%Q));
                            DeleteProduct "c"; CreateProduct "c" "C3" (1 # 1)] world_abc))
               2%nat
     = Some (mkRow "c" "C" (30 # 1) false).
Proof.
  assert (Hnd : NoDup (map row_id (table world_abc))).
  { repeat constructor; simpl; intuition discriminate. }
  split; [exact Hnd|].
  exact (X11_unavailable_records_are_frozen world_abc _ Hnd 2%nat
           (mkRow "c" "C" (30 # 1) false) eq_refl eq_refl).
Defined.

(** X12.  The repository's [softDelete], with the engine up: for a key
    that no record has it fails with the 404 exception and leaves the
    table as it is; for a record that is already unavailable (table
    well-formed) it succeeds again, returns the record and changes
    nothing. *)
Theorem X12_softDelete_missing_and_repeated (w : World) (id : string) :
  no_outage 1 w ->
  (Prisma.has_id id (table w) = false ->
   PrismaProductRepository.softDelete id w
   = (Throw (RpcException 404 ("Product with ID " ++ id ++ " not found for deletion.")),
      advance call_update w))
  /\ (forall r,
        wf_table (table w) -> In r (table w) -> row_id r = id -> row_available r = false ->
        PrismaProductRepository.softDelete id w
        = (Ok (to_product r), advance call_update w)).
Proof.
  intros Ho. pose proof (RunFacts.no_outage_hd _ _ Ho) as Hhd. split.
  - intros Hid.
    unfold PrismaProductRepository.softDelete, Prisma.product_update, try_catch, bind.
    rewrite (RunFacts.call_ok _ _ Hhd). simpl.
    now rewrite (TableFacts.update_where_None _ _ _ Hid).
  - intros r [Hnd Hp] Hin <- Hav.
    destruct (TableFacts.update_where_Some mark_unavailable _ _ Hin Hnd) as [t' Hu].
    assert (Ht : t' = table w).
    { rewrite (TableFacts.update_where_map _ _ _ _ _ Hnd Hu).
      apply UpdateMoreFacts.rewrite_at_eq. intros x Hx E.
      rewrite (UpdateMoreFacts.key_injective _ _ _ Hnd Hx Hin E).
      now apply DeleteMoreFacts.mark_unavailable_fixed. }
    rewrite (DeleteMoreFacts.mark_unavailable_fixed r Hav) in Hu. subst t'.
    unfold PrismaProductRepository.softDelete, Prisma.product_update, try_catch, bind.
    rewrite (RunFacts.call_ok _ _ Hhd). simpl. fold mark_unavailable. rewrite Hu. simpl.
    unfold lift. rewrite TableFacts.mapToDomain_row_ok; [reflexivity|].
    unfold prices_ok in Hp. rewrite Forall_forall in Hp. now apply Hp.
Qed.

Lemma wf_world_abc : wf_table (table world_abc).
Proof.
  split; [repeat constructor; simpl; intuition discriminate
         | repeat constructor; discriminate].
Qed.

Lemma X12_softDelete_missing_and_repeated_witness :
  no_outage 1 world_abc /\ Prisma.has_id "zz" (table world_abc) = false
  /\ fst (PrismaProductRepository.softDelete "zz" world_abc)
     = Throw (RpcException 404 "Product with ID zz not found for deletion.")
  /\ PrismaProductRepository.softDelete "c" world_abc
     = (Ok (Product.mk "c" "C" (30 # 1) false), advance call_update world_abc).
Proof.
  split; [reflexivity|]. split; [reflexivity|].
  destruct (X12_softDelete_missing_and_repeated world_abc "zz" eq_refl) as [Hmiss _].
  destruct (X12_softDelete_missing_and_repeated world_abc "c" eq_refl) as [_ Hrep].
  split; [exact (f_equal fst (Hmiss eq_refl))|].
  exact (Hrep (mkRow "c" "C" (30 # 1) false) wf_world_abc
           (or_intror (or_intror (or_introl eq_refl))) eq_refl eq_refl).
Defined.

(** ** What the handlers throw *)

Module FailureFacts.

Lemma throws_ret {A} S (a : A) : throws_only S (ret a).
Proof. intros w e H. discriminate. Qed.

Lemma throws_throw {A} (S : exn -> Prop) e : S e -> throws_only S (@throw A e).
Proof. intros He w e' H. inversion H. now subst. Qed.

Lemma throws_lift {A} (S : exn -> Prop) (r : Result A) :
  (forall e, r = Throw e -> S e) -> throws_only S (lift r).
Proof. intros Hr w e H. now apply Hr. Qed.

Lemma throws_bind {A B} S (m : M A) (k : A -> M B) :
  throws_only S m -> (forall a, throws_only S (k a)) -> throws_only S (bind m k).
Proof.
  intros Hm Hk w e. unfold bind. specialize (Hm w).
  destruct (m w) as [[a|e'] w']; simpl in *.
  - apply Hk.
  - intros H. inversion H. subst. now apply Hm.
Qed.

Lemma throws_try_catch {A} S' S (m : M A) (h : exn -> M A) :
  throws_only S' m -> (forall e, S' e -> throws_only S (h e)) ->
  throws_only S (try_catch m h).
Proof.
  intros Hm Hh w e. unfold try_catch. specialize (Hm w).
  destruct (m w) as [[a|e'] w']; simpl in *; [discriminate|].
  apply Hh. now apply Hm.
Qed.

Lemma throws_any {A} (m : M A) : throws_only (fun _ => True) m.
Proof. intros w e _. exact I. Qed.

Lemma throws_map_M {A B} S (f : A -> B) (m : M A) :
  throws_only S m -> throws_only S (map_M f m).
Proof. intros H. apply throws_bind; [exact H | intros a; apply throws_ret]. Qed.

(** *** The repository *)

Lemma create_throws d :
  throws_only (eq (RpcException 500 "Database error creating product."))
              (PrismaProductRepository.create d).
Proof.
  unfold PrismaProductRepository.create.
  eapply throws_try_catch; [apply throws_any|]. intros e _. now apply throws_throw.
Qed.

Lemma findById_throws id : throws_only (fun _ => False) (PrismaProductRepository.findById id).
Proof.
  intros w e H. destruct (RunFacts.findById_returns id w) as [o Ho].
  rewrite Ho in H. discriminate.
Qed.

Lemma findAll_throws dto :
  throws_only (eq (RpcException 500 "Database error finding products."))
              (PrismaProductRepository.findAllAvailablePaginated dto).
Proof.
  unfold PrismaProductRepository.findAllAvailablePaginated. cbv zeta.
  eapply throws_try_catch; [apply throws_any|]. intros e _. now apply throws_throw.
Qed.

Lemma update_throws id changes :
  throws_only
    (fun e => e = RpcException 404 (update_404_msg id)
              \/ e = RpcException 500 "Database error updating product."
              \/ e = JsError (update_check_msg id))
    (PrismaProductRepository.update id changes).
Proof.
  unfold PrismaProductRepository.update. cbv zeta. destruct (_ =? 0)%nat.
  - apply throws_bind.
    + intros w e H. exfalso. exact (findById_throws id w e H).
    + intros [p|]; [apply throws_ret | apply throws_throw; auto].
  - eapply throws_try_catch; [apply throws_any|]. intros e _.
    destruct (code_is_P2025 e); apply throws_throw; auto.
Qed.

Lemma softDelete_throws id :
  throws_only
    (fun e => e = RpcException 404 ("Product with ID " ++ id ++ " not found for deletion.")
              \/ e = RpcException 500 "Database error deleting product.")
    (PrismaProductRepository.softDelete id).
Proof.
  unfold PrismaProductRepository.softDelete.
  eapply throws_try_catch; [apply throws_any|]. intros e _.
  destruct (code_is_P2025 e); apply throws_throw; auto.
Qed.

Lemma findAvailableByIds_throws ids :
  throws_only (eq (RpcException 500 "Database error finding products by IDs."))
              (PrismaProductRepository.findAvailableByIds ids).
Proof.
  unfold PrismaProductRepository.findAvailableByIds.
  destruct (_ =? 0)%nat; [apply throws_ret|].
  eapply throws_try_catch; [apply throws_any|]. intros e _. now apply throws_throw.
Qed.

(** *** On the wire *)

Lemma on_wire_rpc statuses status message :
  In status statuses -> status <> 0 -> Js.falsy message = false ->
  on_wire statuses (RpcException status message).
Proof.
  intros Hin Hs Hm. exists status, message. split; [reflexivity|]. split; [exact Hin|].
  simpl. unfold Js.or_else. rewrite Hm.
  destruct (Z.eqb_spec status 0); [contradiction | reflexivity].
Qed.

(** The handlers' catch keeps an [RpcException] and turns a plain error
    with a message into a 500. *)
Lemma throws_rethrow {A} S' S (m : M A) dflt :
  throws_only S' m ->
  (forall e, S' e -> S (if instanceof_RpcException e then e else rewrap dflt e)) ->
  throws_only S (try_catch m (rethrow_or_rewrap dflt)).
Proof.
  intros Hm HS. eapply throws_try_catch; [exact Hm|].
  intros e He. unfold rethrow_or_rewrap. specialize (HS e He).
  destruct (instanceof_RpcException e); now apply throws_throw.
Qed.

Ltac wire := apply on_wire_rpc; [simpl; tauto | discriminate | reflexivity].

Lemma create_handler_throws u n p :
  throws_only (on_wire [500]) (CreateProductHandler.execute u n p).
Proof.
  unfold CreateProductHandler.execute. cbv zeta.
  eapply throws_try_catch.
  - apply throws_bind; [apply create_throws | intros a; apply throws_ret].
  - intros e <-. apply throws_throw. wire.
Qed.

Lemma findAll_handler_throws dto :
  throws_only (on_wire [500]) (FindAllProductsHandler.execute dto).
Proof.
  unfold FindAllProductsHandler.execute.
  eapply throws_try_catch; [apply throws_any|]. intros e _. apply throws_throw. wire.
Qed.

Lemma findOne_handler_throws id :
  throws_only (on_wire [404]) (FindOneProductHandler.execute id).
Proof.
  unfold FindOneProductHandler.execute.
  apply throws_rethrow with (S' := eq (RpcException 404 (not_available_msg id))).
  - apply throws_bind.
    + intros w e H. exfalso. exact (findById_throws id w e H).
    + intros [p|]; [apply throws_ret | now apply throws_throw].
  - intros e <-. simpl. unfold not_available_msg. wire.
Qed.

Lemma update_handler_throws id changes :
  throws_only (on_wire [404; 500]) (UpdateProductHandler.execute id changes).
Proof.
  unfold UpdateProductHandler.execute.
  apply throws_rethrow
    with (S' := fun e => e = RpcException 404 (not_available_msg id)
                         \/ e = RpcException 404 (update_404_msg id)
                         \/ e = RpcException 500 "Database error updating product."
                         \/ e = JsError (update_check_msg id)).
  - apply throws_bind.
    + intros w e H. exfalso. exact (findById_throws id w e H).
    + intros [p|]; [|apply throws_throw; auto].
      apply throws_bind; [|intros a; apply throws_ret].
      intros w e H. right. exact (update_throws id changes w e H).
  - intros e [-> | [-> | [-> | ->]]]; simpl;
      unfold not_available_msg, update_404_msg, update_check_msg, rewrap; simpl; wire.
Qed.

Lemma delete_handler_throws id :
  throws_only (on_wire [404; 500]) (DeleteProductHandler.execute id).
Proof.
  unfold DeleteProductHandler.execute.
  apply throws_rethrow
    with (S' := fun e =>
                  e = RpcException 404 (already_unavailable_msg id)
                  \/ e = RpcException 404 ("Product with ID " ++ id ++ " not found for deletion.")
                  \/ e = RpcException 500 "Database error deleting product.").
  - apply throws_bind.
    + intros w e H. exfalso. exact (findById_throws id w e H).
    + intros [p|]; [|apply throws_throw; auto].
      apply throws_bind; [|intros a; apply throws_ret].
      intros w e H. right. exact (softDelete_throws id w e H).
  - intros e [-> | [-> | ->]]; simpl; unfold already_unavailable_msg; wire.
Qed.

Lemma validate_handler_throws ids :
  throws_only (on_wire [400; 500]) (ValidateProductsHandler.execute ids).
Proof.
  unfold ValidateProductsHandler.execute. cbv zeta.
  destruct (_ =? 0)%nat; [apply throws_ret|].
  apply throws_rethrow
    with (S' := fun e =>
                  e = RpcException 500 "Database error finding products by IDs."
                  \/ exists missingIds, e = RpcException 400 (missing_msg missingIds)).
  - apply throws_bind.
    + intros w e H. left. symmetry. exact (findAvailableByIds_throws _ w e H).
    + intros ps. destruct (negb _); [|apply throws_ret].
      apply throws_throw. right. eexists. reflexivity.
  - intros e [-> | [missingIds ->]]; simpl; unfold missing_msg; wire.
Qed.

End FailureFacts.

(** X13.  Whatever the intent, the world and the engine, a handler that
    fails throws an [RpcException], never a plain error or a Prisma
    error: Create and FindAll with status 500, FindOne with 404, Update
    and Delete with 404 or 500, ValidateBatch with 400 or 500; and the
    exception filter puts that status and the exception's message on the
    wire. *)
Theorem X13_failures_are_rpc_exceptions (i : Intent) (w : World) (e : exn) :
  fst (execute i w) = Throw e ->
  exists status message,
    e = RpcException status message
    /\ In status (failure_statuses i)
    /\ AllExceptionsFilter_catch e = (status, message).
Proof.
  revert w e. change (throws_only (on_wire (failure_statuses i)) (execute i)).
  destruct i; simpl; apply FailureFacts.throws_map_M.
  - apply FailureFacts.create_handler_throws.
  - apply FailureFacts.findAll_handler_throws.
  - apply FailureFacts.findOne_handler_throws.
  - apply FailureFacts.update_handler_throws.
  - apply FailureFacts.delete_handler_throws.
  - apply FailureFacts.validate_handler_throws.
Qed.

Lemma X13_failures_are_rpc_exceptions_witness :
  fst (execute (UpdateProduct "a" no_changes) world_a_outage)
  = Throw (RpcException 404 "Product with id #a not found or not available")
  /\ exists status message,
       RpcException 404 "Product with id #a not found or not available"
       = RpcException status message
       /\ In status [404; 500]
       /\ AllExceptionsFilter_catch
            (RpcException 404 "Product with id #a not found or not available")
          = (status, message).
Proof.
  assert (H : fst (execute (UpdateProduct "a" no_changes) world_a_outage)
              = Throw (RpcException 404 "Product with id #a not found or not available"))
    by reflexivity.
  split; [exact H|].
  exact (X13_failures_are_rpc_exceptions _ _ _ H).
Defined.

(** ** Pagination, further *)

Module PageMoreFacts.
Import TableFacts RunFacts.

Lemma findAll_handler_ok (w : World) (page limit : Z) :
  1 <= page -> 1 <= limit <= MAX_SAFE_INTEGER -> (page - 1) * limit <= MAX_SAFE_INTEGER ->
  no_outage 1 w -> prices_ok (table w) ->
  page_data w page limit = page_of page limit (listing (table w)).
Proof.
  intros Hp Hl Hs Ho Hpr.
  unfold page_data, FindAllProductsHandler.execute, try_catch, bind.
  now rewrite (PageFacts.findAllAvailablePaginated_ok w page limit Hp Hl Hs Ho Hpr).
Qed.

Lemma firstn_add {A} (a b : nat) (l : list A) :
  firstn (a + b) l = (firstn a l ++ firstn b (skipn a l))%list.
Proof.
  revert l. induction a as [|a IH]; intros l; simpl; [reflexivity|].
  destruct l as [|x l]; simpl; [now rewrite firstn_nil | now rewrite IH].
Qed.

Lemma map_throwing_fails (rows : list Row) r :
  In r rows -> (row_price r < 0)%Q ->
  exists e, map_throwing PrismaProductRepository.mapToDomain_row rows = Throw e.
Proof.
  intros Hin Hneg. induction rows as [|x rows IH]; simpl; [contradiction|].
  destruct Hin as [->|Hin].
  - rewrite (mapToDomain_row_neg r Hneg). eauto.
  - destruct (PrismaProductRepository.mapToDomain_row x); [|eauto].
    destruct (IH Hin) as [e ->]. eauto.
Qed.

End PageMoreFacts.

(** X14.  When the rows of the requested page, taken from the
    available records in key order, include a record whose stored price
    is negative, FindAllPaginated fails with the 500 exception (the
    engine is up; [page] and [limit] are at least 1). *)
Theorem X14_negative_price_in_page_is_500 (w : World) (page limit : Z) (r : Row) :
  1 <= page -> 1 <= limit -> no_outage 1 w ->
  In r (Prisma.window ((page - 1) * limit) limit
          (Prisma.order_by_id (filter row_available (table w)))) ->
  (row_price r < 0)%Q ->
  FindAllProductsHandler.execute (mkPagination (Some page) (Some limit)) w
  = (Throw (RpcException 500 "Database error finding products."),
     advance call_transaction w).
Proof.
  intros Hp Hl Ho Hin Hneg.
  unfold FindAllProductsHandler.execute,
    PrismaProductRepository.findAllAvailablePaginated,
    Prisma.transaction_count_findMany, try_catch, bind. simpl.
  rewrite (RunFacts.call_ok _ _ (RunFacts.no_outage_hd _ _ Ho)). simpl.
  destruct (_ || _)%bool; simpl; [reflexivity|].
  unfold lift. destruct (PageMoreFacts.map_throwing_fails _ r Hin Hneg) as [e ->].
  reflexivity.
Qed.

Lemma X14_negative_price_in_page_is_500_witness :
  let w := mkWorld [mkRow "a" "A" (10 # 1) true; mkRow "n" "N" (-1 # 1) true] [] [] in
  no_outage 1 w /\ (-1 # 1 < 0)%Q
  /\ fst (FindAllProductsHandler.execute (mkPagination (Some 1) (Some 10)) w)
     = Throw (RpcException 500 "Database error finding products.").
Proof.
  intros w. assert (Hneg : (-1 # 1 < 0)%Q) by reflexivity.
  split; [reflexivity|]. split; [exact Hneg|].
  exact (f_equal fst
           (X14_negative_price_in_page_is_500 w 1 10 (mkRow "n" "N" (-1 # 1) true)
              ltac:(lia) ltac:(lia) eq_refl (or_intror (or_introl eq_refl)) Hneg)).
Defined.

(** X15.  With the engine up, no negative stored price, [limit >= 1]
    and [n * limit] a safe integer, the pages 1 to [n] put one after
    the other are the first [n * limit] available products in key
    order: no product is skipped or repeated between pages, and once
    [n * limit] reaches the total they are all the available
    products. *)
Theorem X15_pages_cover_the_listing (w : World) (limit : Z) (n : nat) :
  1 <= limit -> Z.of_nat n * limit <= MAX_SAFE_INTEGER ->
  no_outage 1 w -> prices_ok (table w) ->
  pages_upto w limit n
  = firstn (n * Z.to_nat limit) (listing (table w))
  /\ (Z.of_nat (List.length (listing (table w))) <= Z.of_nat n * limit ->
      pages_upto w limit n = listing (table w)).
Proof.
  intros Hl Hs Ho Hpr.
  assert (H : pages_upto w limit n
              = firstn (n * Z.to_nat limit) (listing (table w))).
  { unfold pages_upto. induction n as [|n IH]; [reflexivity|].
    rewrite seq_S, map_app, concat_app, IH by nia. cbn [map List.concat].
    rewrite app_nil_r.
    rewrite (PageMoreFacts.findAll_handler_ok w (Z.of_nat (1 + n)) limit
               ltac:(lia) ltac:(nia) ltac:(nia) Ho Hpr).
    unfold page_of.
    replace (Z.to_nat ((Z.of_nat (1 + n) - 1) * limit)) with (n * Z.to_nat limit)%nat
      by nia.
    replace (S n * Z.to_nat limit)%nat with (n * Z.to_nat limit + Z.to_nat limit)%nat
      by lia.
    now rewrite PageMoreFacts.firstn_add. }
  split; [exact H|].
  intros Hall. rewrite H. apply firstn_all2. nia.
Qed.

(** Products "b" and "a" stored in that order: page 1 is "a", page 2
    is "b". *)
Lemma X15_pages_cover_the_listing_witness :
  let w := mkWorld [mkRow "b" "B" (20 # 1) true; mkRow "a" "A" (10 # 1) true] [] [] in
  1 <= 1 /\ 2 * 1 <= MAX_SAFE_INTEGER /\ no_outage 1 w /\ prices_ok (table w)
  /\ pages_upto w 1 2
     = [Product.mk "a" "A" (10 # 1) true; Product.mk "b" "B" (20 # 1) true].
Proof.
  intros w.
  assert (Hpr : prices_ok (table w)) by (repeat constructor; discriminate).
  split; [lia|]. split; [unfold MAX_SAFE_INTEGER; lia|].
  split; [reflexivity|]. split; [exact Hpr|].
  destruct (X15_pages_cover_the_listing w 1 2 ltac:(lia)
              ltac:(unfold MAX_SAFE_INTEGER; lia) eq_refl Hpr) as [_ H].
  apply H. simpl. lia.
Defined.

(** X16.  Under the same conditions, with [limit] and the offset
    [(page - 1) * limit] safe integers, page [page >= 1] holds
    min(limit, total - (page - 1) * limit) rows, none when that is
    negative: every page that ends at or before the total is full. *)
Theorem X16_page_sizes (w : World) (page limit : Z) :
  1 <= page -> 1 <= limit <= MAX_SAFE_INTEGER -> (page - 1) * limit <= MAX_SAFE_INTEGER ->
  no_outage 1 w -> prices_ok (table w) ->
  let T := Z.of_nat (List.length (listing (table w))) in
  Z.of_nat (List.length (page_data w page limit))
  = Z.max 0 (Z.min limit (T - (page - 1) * limit))
  /\ (page * limit <= T -> Z.of_nat (List.length (page_data w page limit)) = limit).
Proof.
  intros Hp Hl Hs Ho Hpr T.
  rewrite (PageMoreFacts.findAll_handler_ok w page limit Hp Hl Hs Ho Hpr).
  unfold page_of. rewrite length_firstn, length_skipn. fold T.
  split; [nia | intros Hfull; nia].
Qed.

Lemma X16_page_sizes_witness :
  1 <= 2 /\ 1 <= 1 <= MAX_SAFE_INTEGER /\ (2 - 1) * 1 <= MAX_SAFE_INTEGER
  /\ no_outage 1 world_ab /\ prices_ok (table world_ab)
  /\ Z.of_nat (List.length (page_data world_ab 2 1)) = 1.
Proof.
  split; [lia|]. split; [unfold MAX_SAFE_INTEGER; lia|].
  split; [unfold MAX_SAFE_INTEGER; lia|].
  split; [reflexivity|]. split; [exact prices_ok_world_ab|].
  destruct (X16_page_sizes world_ab 2 1 ltac:(lia) ltac:(unfold MAX_SAFE_INTEGER; lia)
              ltac:(unfold MAX_SAFE_INTEGER; lia) eq_refl prices_ok_world_ab)
    as [_ H].
  apply H. simpl. lia.
Defined.

(** ** Batch validation, further *)

Module ValidateMoreFacts.
Import JsFacts TableFacts RunFacts ValidateFacts.

Lemma same_elements_filter (ids1 ids2 : list string) (t : list Row) :
  (forall x, In x ids1 <-> In x ids2) ->
  filter (fun r => Js.includes ids1 (row_id r) && row_available r) t
  = filter (fun r => Js.includes ids2 (row_id r) && row_available r) t.
Proof.
  intros H. apply filter_ext. intros r. f_equal.
  destruct (Js.includes ids2 (row_id r)) eqn:E.
  - apply includes_In. apply H. now apply includes_In.
  - apply includes_false. intros Hin. apply H in Hin.
    apply includes_In in Hin. congruence.
Qed.

Lemma same_elements_length (l1 l2 : list string) :
  NoDup l1 -> NoDup l2 -> (forall x, In x l1 <-> In x l2) ->
  List.length l1 = List.length l2.
Proof.
  intros H1 H2 H. apply Nat.le_antisymm; apply NoDup_incl_length; try assumption;
    intros x Hx; now apply H.
Qed.

Lemma filter_includes_nil (t : list Row) :
  filter (fun r => Js.includes [] (row_id r) && row_available r) t = [].
Proof. induction t; simpl; auto. Qed.

(** What [findAvailableByIds] returns, when it returns. *)
Lemma findAvailableByIds_Ok ids w ps :
  fst (PrismaProductRepository.findAvailableByIds ids w) = Ok ps ->
  ps = found_for ids (table w)
  /\ prices_ok (filter (fun r => Js.includes ids (row_id r) && row_available r) (table w)).
Proof.
  unfold PrismaProductRepository.findAvailableByIds.
  destruct ids as [|i ids].
  - unfold found_for. rewrite !filter_includes_nil. simpl. intros H. inversion H.
    split; [reflexivity | constructor].
  - simpl (_ =? _)%nat. cbv iota.
    unfold Prisma.product_findMany_in, try_catch, bind.
    destruct (call_cases call_findMany w) as [-> | ->]; simpl; [|discriminate].
    unfold lift.
    rewrite (same_elements_filter (Js.Array_from_Set (i :: ids)) (i :: ids))
      by apply Array_from_Set_In.
    destruct (map_throwing _ _) as [qs|] eqn:E; simpl; [|discriminate].
    intros H. inversion H; subst qs. exact (map_throwing_Ok _ _ E).
Qed.

(** What ValidateBatch returns, when it returns. *)
Lemma validate_Ok ids w ps :
  fst (ValidateProductsHandler.execute ids w) = Ok ps ->
  ps = found_for ids (table w)
  /\ List.length ps = List.length (Js.Array_from_Set ids)
  /\ prices_ok (filter (fun r => Js.includes ids (row_id r) && row_available r) (table w)).
Proof.
  unfold ValidateProductsHandler.execute. cbv zeta.
  destruct (Nat.eqb_spec (List.length (Js.Array_from_Set ids)) 0) as [E|NE].
  - intros H. inversion H.
    assert (ids = []) as ->.
    { apply Array_from_Set_nil. now destruct (Js.Array_from_Set ids). }
    unfold found_for. rewrite !filter_includes_nil. repeat split. constructor.
  - unfold try_catch, bind.
    destruct (PrismaProductRepository.findAvailableByIds (Js.Array_from_Set ids) w)
      as [[qs|e] w1] eqn:Hf; simpl.
    + destruct (Nat.eqb_spec (List.length qs) (List.length (Js.Array_from_Set ids)))
        as [El|_]; simpl; [|unfold rethrow_or_rewrap; simpl; discriminate].
      intros H. inversion H; subst qs.
      destruct (findAvailableByIds_Ok _ w ps (f_equal fst Hf)) as [Hps Hp].
      unfold found_for in Hps |- *.
      rewrite (same_elements_filter _ ids) in Hps, Hp by apply Array_from_Set_In.
      auto.
    + unfold rethrow_or_rewrap. destruct (instanceof_RpcException e); discriminate.
Qed.

(** Two inputs with the same elements are answered alike when one of
    them passes. *)
Lemma validate_same_elements ids1 ids2 w ps :
  (forall x, In x ids1 <-> In x ids2) ->
  fst (ValidateProductsHandler.execute ids1 w) = Ok ps ->
  fst (ValidateProductsHandler.execute ids2 w) = Ok ps.
Proof.
  intros Hsame.
  assert (HU : forall x, In x (Js.Array_from_Set ids1) <-> In x (Js.Array_from_Set ids2)).
  { intros x. rewrite !Array_from_Set_In. apply Hsame. }
  assert (Hlen : List.length (Js.Array_from_Set ids1) = List.length (Js.Array_from_Set ids2)).
  { apply same_elements_length; auto using Array_from_Set_NoDup. }
  unfold ValidateProductsHandler.execute. cbv zeta. rewrite <- Hlen.
  destruct (Nat.eqb_spec (List.length (Js.Array_from_Set ids1)) 0) as [E|NE]; [auto|].
  unfold try_catch, bind, PrismaProductRepository.findAvailableByIds.
  rewrite <- Hlen. destruct (Nat.eqb_spec (List.length (Js.Array_from_Set ids1)) 0);
    [contradiction|].
  rewrite !Array_from_Set_idem.
  unfold Prisma.product_findMany_in, try_catch, bind.
  destruct (call_cases call_findMany w) as [-> | ->]; simpl; [|auto].
  rewrite (same_elements_filter _ _ (table w) HU).
  unfold lift. destruct (map_throwing _ _) as [qs|]; simpl; [|auto].
  destruct (Nat.eqb_spec (List.length qs) (List.length (Js.Array_from_Set ids1)));
    simpl; [auto | discriminate].
Qed.

End ValidateMoreFacts.

(** X17.  ValidateBatch looks at the set of ids: two inputs with the
    same elements, in any order and with any repetitions, pass together,
    with the same products in the same order (that of the table). *)
Theorem X17_validate_depends_on_the_set (w : World) (ids1 ids2 : list string)
    (ps : list Product.t) :
  (forall x, In x ids1 <-> In x ids2) ->
  (fst (ValidateProductsHandler.execute ids1 w) = Ok ps
   <-> fst (ValidateProductsHandler.execute ids2 w) = Ok ps).
Proof.
  intros H. split; apply ValidateMoreFacts.validate_same_elements; [exact H|].
  intros x. symmetry. apply H.
Qed.

Lemma X17_validate_depends_on_the_set_witness :
  (forall x, In x ["b"; "a"; "b"] <-> In x ["a"; "b"])
  /\ fst (ValidateProductsHandler.execute ["b"; "a"; "b"] world_abc)
     = Ok [Product.mk "a" "A" (10 # 1) true; Product.mk "b" "B" (20 # 1) true].
Proof.
  assert (H : forall x : string, In x ["b"; "a"; "b"] <-> In x ["a"; "b"])
    by (intros x; simpl; tauto).
  split; [exact H|].
  apply (proj2 (X17_validate_depends_on_the_set world_abc _ _ _ H)). reflexivity.
Defined.

(** X18.  With [id] a key of the table, a ValidateBatch that returns
    has found every requested id: each id of the input is the id of one
    returned product, which is available and whose price is not
    negative; every returned product is a stored record whose id was
    requested; and no id comes twice. *)
Theorem X18_validated_ids_are_all_available
    (w : World) (ids : list string) (ps : list Product.t) :
  NoDup (map row_id (table w)) ->
  fst (ValidateProductsHandler.execute ids w) = Ok ps ->
  (forall id, In id ids ->
     exists p, In p ps /\ Product.id p = id /\ Product.available p = true
               /\ (0 <= Product.price p)%Q)
  /\ (forall p, In p ps ->
        In (Product.id p) ids /\ exists r, In r (table w) /\ p = to_product r)
  /\ NoDup (map Product.id ps).
Proof.
  intros Hnd Hok.
  destruct (ValidateMoreFacts.validate_Ok ids w ps Hok) as [-> [Hlen Hp]].
  assert (Hids : NoDup (map Product.id (found_for ids (table w)))).
  { rewrite ValidateFacts.found_for_ids. now apply ValidateFacts.NoDup_map_filter. }
  assert (Hfacts : forall p, In p (found_for ids (table w)) ->
            In (Product.id p) ids /\ Product.available p = true
            /\ (0 <= Product.price p)%Q /\ exists r, In r (table w) /\ p = to_product r).
  { intros p Hin. unfold found_for in Hin. apply in_map_iff in Hin.
    destruct Hin as [r [<- Hr]].
    unfold prices_ok in Hp. rewrite Forall_forall in Hp. pose proof (Hp r Hr) as Hprice.
    apply filter_In in Hr. destruct Hr as [Hin Hb].
    apply andb_true_iff in Hb. destruct Hb as [Hi Ha]. apply JsFacts.includes_In in Hi.
    simpl. repeat split; try assumption. now exists r. }
  split; [|split; [|exact Hids]].
  - intros id Hin.
    assert (Hincl : incl (Js.Array_from_Set ids) (map Product.id (found_for ids (table w)))).
    { apply NoDup_length_incl; [exact Hids | rewrite length_map; lia |].
      intros x Hx. apply in_map_iff in Hx. destruct Hx as [p [<- Hp']].
      apply JsFacts.Array_from_Set_In. now apply Hfacts. }
    apply JsFacts.Array_from_Set_In in Hin. apply Hincl in Hin.
    apply in_map_iff in Hin. destruct Hin as [p [He Hp']].
    exists p. destruct (Hfacts p Hp') as [_ [Ha [Hpr _]]]. auto.
  - intros p Hin. destruct (Hfacts p Hin) as [Hi [_ [_ Hr]]]. auto.
Qed.

Lemma X18_validated_ids_are_all_available_witness :
  NoDup (map row_id (table world_abc))
  /\ fst (ValidateProductsHandler.execute ["b"; "a"] world_abc)
     = Ok [Product.mk "a" "A" (10 # 1) true; Product.mk "b" "B" (20 # 1) true]
  /\ exists p, In p [Product.mk "a" "A" (10 # 1) true; Product.mk "b" "B" (20 # 1) true]
               /\ Product.id p = "b" /\ Product.available p = true
               /\ (0 <= Product.price p)%Q.
Proof.
  assert (Hnd : NoDup (map row_id (table world_abc))) by exact (proj1 wf_world_abc).
  assert (Hok : fst (ValidateProductsHandler.execute ["b"; "a"] world_abc)
                = Ok [Product.mk "a" "A" (10 # 1) true; Product.mk "b" "B" (20 # 1) true])
    by reflexivity.
  split; [exact Hnd|]. split; [exact Hok|].
  destruct (X18_validated_ids_are_all_available world_abc _ _ Hnd Hok) as [H _].
  exact (H "b" (or_introl eq_refl)).
Defined.

(** ** The Prisma calls a request makes *)

Module CallFacts.

Section Spending.
Variable allowed : Call -> bool.

Lemma spends_nothing {A} (m : M A) n :
  (forall w, log (snd (m w)) = log w /\ outages (snd (m w)) = outages w) ->
  spends n allowed m.
Proof.
  intros H w. destruct (H w) as [Hl Ho]. exists []. simpl.
  repeat split; [exact Hl | lia | exact Ho].
Qed.

Lemma spends_ret {A} (a : A) n : spends n allowed (ret a).
Proof. apply spends_nothing. intros w. split; reflexivity. Qed.

Lemma spends_throw {A} e n : spends n allowed (@throw A e).
Proof. apply spends_nothing. intros w. split; reflexivity. Qed.

Lemma spends_lift {A} (r : Result A) n : spends n allowed (lift r).
Proof. apply spends_nothing. intros w. split; reflexivity. Qed.

Lemma spends_get_table n : spends n allowed Prisma.get_table.
Proof. apply spends_nothing. intros w. split; reflexivity. Qed.

Lemma spends_set_table t n : spends n allowed (Prisma.set_table t).
Proof. apply spends_nothing. intros w. split; reflexivity. Qed.

Lemma spends_call c : allowed c = true -> spends 1 allowed (Prisma.call c).
Proof.
  intros Hc w. exists [c]. unfold Prisma.call.
  destruct (outages w) as [|[|] o]; simpl; rewrite Hc; repeat split; lia.
Qed.

Lemma spends_more {A} (m : M A) n n' :
  (n <= n')%nat -> spends n allowed m -> spends n' allowed m.
Proof.
  intros Hn H w. destruct (H w) as [calls [Hl [Hlen [Hall Ho]]]].
  exists calls. repeat split; try assumption. lia.
Qed.

(** One computation after the other: the budgets add up. *)
Lemma spends_then (w w1 w2 : World) n1 n2 calls1 calls2 :
  log w1 = (calls1 ++ log w)%list -> (List.length calls1 <= n1)%nat ->
  forallb allowed calls1 = true -> outages w1 = skipn (List.length calls1) (outages w) ->
  log w2 = (calls2 ++ log w1)%list -> (List.length calls2 <= n2)%nat ->
  forallb allowed calls2 = true -> outages w2 = skipn (List.length calls2) (outages w1) ->
  exists calls,
    log w2 = (calls ++ log w)%list /\ (List.length calls <= n1 + n2)%nat
    /\ forallb allowed calls = true /\ outages w2 = skipn (List.length calls) (outages w).
Proof.
  intros Hl1 Hn1 Ha1 Ho1 Hl2 Hn2 Ha2 Ho2. exists (calls2 ++ calls1)%list.
  rewrite Hl2, Hl1, Ho2, Ho1, length_app, forallb_app, Ha1, Ha2, skipn_skipn, app_assoc.
  repeat split. lia.
Qed.

Lemma spends_bind {A B} (m : M A) (k : A -> M B) n1 n2 :
  spends n1 allowed m -> (forall a, spends n2 allowed (k a)) ->
  spends (n1 + n2) allowed (bind m k).
Proof.
  intros Hm Hk w. unfold bind. destruct (Hm w) as [calls1 [Hl1 [Hn1 [Ha1 Ho1]]]].
  destruct (m w) as [[a|e] w1]; simpl in *.
  - destruct (Hk a w1) as [calls2 [Hl2 [Hn2 [Ha2 Ho2]]]].
    destruct (spends_then w w1 (snd (k a w1)) n1 n2 calls1 calls2)
      as [calls [H1 [H2 [H3 H4]]]]; try assumption.
    exists calls. auto.
  - exists calls1. repeat split; try assumption. lia.
Qed.

Lemma spends_try_catch {A} (m : M A) (h : exn -> M A) n1 n2 :
  spends n1 allowed m -> (forall e, spends n2 allowed (h e)) ->
  spends (n1 + n2) allowed (try_catch m h).
Proof.
  intros Hm Hh w. unfold try_catch. destruct (Hm w) as [calls1 [Hl1 [Hn1 [Ha1 Ho1]]]].
  destruct (m w) as [[a|e] w1]; simpl in *.
  - exists calls1. repeat split; try assumption. lia.
  - destruct (Hh e w1) as [calls2 [Hl2 [Hn2 [Ha2 Ho2]]]].
    destruct (spends_then w w1 (snd (h e w1)) n1 n2 calls1 calls2)
      as [calls [H1 [H2 [H3 H4]]]]; try assumption.
    exists calls. auto.
Qed.

Lemma spends_rethrow {A} dflt e : spends 0 allowed (@rethrow_or_rewrap A dflt e).
Proof. unfold rethrow_or_rewrap. destruct (instanceof_RpcException e); apply spends_throw. Qed.

(** A try block that makes one call, with a catch that makes none. *)
Lemma spends_one_call {A B} c (k : unit -> M B) (after : B -> M A) (h : exn -> M A) :
  allowed c = true ->
  (forall u, spends 0 allowed (k u)) -> (forall b, spends 0 allowed (after b)) ->
  (forall e, spends 0 allowed (h e)) ->
  spends 1 allowed (try_catch (bind (bind (Prisma.call c) k) after) h).
Proof.
  intros Hc Hk Ha Hh.
  apply (spends_try_catch _ _ 1 0); [|exact Hh].
  apply (spends_bind _ _ 1 0); [|exact Ha].
  apply (spends_bind _ _ 1 0); [now apply spends_call | exact Hk].
Qed.

Lemma findById_spends id :
  allowed call_findFirst = true -> spends 1 allowed (PrismaProductRepository.findById id).
Proof.
  intros Hc. unfold PrismaProductRepository.findById, Prisma.product_findFirst_available.
  apply spends_one_call; [exact Hc | | |]; intros.
  - apply (spends_bind _ _ 0 0); [apply spends_get_table | intros; apply spends_ret].
  - apply spends_lift.
  - apply spends_ret.
Qed.

Lemma product_update_spends id d k :
  allowed call_update = true ->
  (forall e, spends 0 allowed (k e)) ->
  spends 1 allowed
    (try_catch (r <- Prisma.product_update id d ;;
                lift (PrismaProductRepository.mapToDomain_row r)) k).
Proof.
  intros Hc Hk. unfold Prisma.product_update.
  apply spends_one_call; [exact Hc | | | exact Hk]; intros.
  - apply (spends_bind _ _ 0 0); [apply spends_get_table|]. intros t.
    destruct (Prisma.update_where id d t) as [[r' t']|]; [|apply spends_throw].
    apply (spends_bind _ _ 0 0); [apply spends_set_table | intros; apply spends_ret].
  - apply spends_lift.
Qed.

(** A lookup, then at most [n] more calls. *)
Lemma guarded_spends {A} id msg dflt (k : M A) n :
  allowed call_findFirst = true -> spends n allowed k ->
  spends (1 + n) allowed
    (try_catch
       (existing <- PrismaProductRepository.findById id ;;
        match existing with
        | None => throw (RpcException 404 msg)
        | Some _ => x <- k ;; ret x
        end)
       (rethrow_or_rewrap dflt)).
Proof.
  intros Hc Hk.
  apply (spends_more _ (1 + n + 0)); [lia|].
  apply spends_try_catch; [|intros; apply spends_rethrow].
  apply spends_bind; [now apply findById_spends|].
  intros [p|]; [|apply spends_throw].
  apply (spends_more _ (n + 0)); [lia|].
  apply spends_bind; [exact Hk | intros; apply spends_ret].
Qed.

End Spending.

Lemma map_M_spends {A B} allowed (f : A -> B) (m : M A) n :
  spends n allowed m -> spends n allowed (map_M f m).
Proof.
  intros H. apply (spends_more _ _ (n + 0)); [lia|].
  apply spends_bind; [exact H | intros; apply spends_ret].
Qed.

End CallFacts.

(** X19.  Every request is answered with at most two Prisma calls, a
    Create or a query with at most one, and a query makes no write
    call; the calls are added to the log in front of the earlier ones,
    and each uses up one entry of the outage script. *)
Theorem X19_calls_within_budget (i : Intent) :
  spends (call_budget i) (allowed_calls i) (execute i).
Proof.
  destruct i; unfold execute, call_budget, allowed_calls; simpl is_query; cbv iota;
    apply CallFacts.map_M_spends.
  - unfold CreateProductHandler.execute, PrismaProductRepository.create. cbv zeta.
    apply (CallFacts.spends_more _ _ (1 + 0 + 0)); [lia|].
    apply CallFacts.spends_try_catch; [|intros; apply CallFacts.spends_throw].
    apply CallFacts.spends_bind; [|intros; apply CallFacts.spends_ret].
    unfold Prisma.product_create.
    apply CallFacts.spends_one_call; [reflexivity | | |]; intros.
    + apply (CallFacts.spends_bind _ _ _ 0 0); [apply CallFacts.spends_get_table|].
      intros t. destruct (Prisma.has_id _ t); [apply CallFacts.spends_throw|].
      apply (CallFacts.spends_bind _ _ _ 0 0);
        [apply CallFacts.spends_set_table | intros; apply CallFacts.spends_ret].
    + apply CallFacts.spends_lift.
    + apply CallFacts.spends_throw.
  - unfold FindAllProductsHandler.execute,
      PrismaProductRepository.findAllAvailablePaginated. cbv zeta.
    apply (CallFacts.spends_more _ _ (1 + 0 + 0)); [lia|].
    apply CallFacts.spends_try_catch; [|intros; apply CallFacts.spends_throw].
    apply CallFacts.spends_bind; [|intros; apply CallFacts.spends_ret].
    unfold Prisma.transaction_count_findMany.
    apply CallFacts.spends_one_call; [reflexivity | | |]; intros.
    + apply (CallFacts.spends_bind _ _ _ 0 0); [apply CallFacts.spends_get_table|].
      intros t. destruct (_ || _)%bool;
        [apply CallFacts.spends_throw | apply CallFacts.spends_ret].
    + apply (CallFacts.spends_bind _ _ _ 0 0);
        [apply CallFacts.spends_lift | intros; apply CallFacts.spends_ret].
    + apply CallFacts.spends_throw.
  - unfold FindOneProductHandler.execute.
    apply (CallFacts.spends_more _ _ (1 + 0)); [lia|].
    apply CallFacts.spends_try_catch; [|intros; apply CallFacts.spends_rethrow].
    apply (CallFacts.spends_bind _ _ _ 1 0);
      [now apply CallFacts.findById_spends|].
    intros [p|]; [apply CallFacts.spends_ret | apply CallFacts.spends_throw].
  - unfold UpdateProductHandler.execute.
    apply (CallFacts.guarded_spends _ id _ _ _ 1); [reflexivity|].
    unfold PrismaProductRepository.update. cbv zeta. destruct (_ =? 0)%nat.
    + apply (CallFacts.spends_bind _ _ _ 1 0); [now apply CallFacts.findById_spends|].
      intros [p|]; [apply CallFacts.spends_ret | apply CallFacts.spends_throw].
    + apply CallFacts.product_update_spends; [reflexivity|].
      intros e. destruct (code_is_P2025 e); apply CallFacts.spends_throw.
  - unfold DeleteProductHandler.execute.
    apply (CallFacts.guarded_spends _ id _ _ _ 1); [reflexivity|].
    unfold PrismaProductRepository.softDelete.
    apply CallFacts.product_update_spends; [reflexivity|].
    intros e. destruct (code_is_P2025 e); apply CallFacts.spends_throw.
  - unfold ValidateProductsHandler.execute. cbv zeta.
    destruct (_ =? 0)%nat; [apply CallFacts.spends_ret|].
    apply (CallFacts.spends_more _ _ (1 + 0 + 0)); [lia|].
    apply CallFacts.spends_try_catch; [|intros; apply CallFacts.spends_rethrow].
    apply CallFacts.spends_bind;
      [|intros ps; destruct (negb _); [apply CallFacts.spends_throw | apply CallFacts.spends_ret]].
    unfold PrismaProductRepository.findAvailableByIds.
    destruct (_ =? 0)%nat; [apply CallFacts.spends_ret|]. cbv zeta.
    unfold Prisma.product_findMany_in.
    apply CallFacts.spends_one_call; [reflexivity | | |]; intros.
    + apply (CallFacts.spends_bind _ _ _ 0 0);
        [apply CallFacts.spends_get_table | intros; apply CallFacts.spends_ret].
    + apply CallFacts.spends_lift.
    + apply CallFacts.spends_throw.
Qed.

(** ** The entity, further *)

Module TrimFacts.

Lemma trimEnd_idem (s : string) : Js.trimEnd (Js.trimEnd s) = Js.trimEnd s.
Proof.
  induction s as [|c s IH]; simpl; [reflexivity|].
  destruct (Js.trimEnd s) as [|c' t] eqn:E.
  - destruct (Js.isWhiteSpace c) eqn:Ec; simpl; [reflexivity | now rewrite Ec].
  - simpl in IH |- *. now rewrite IH.
Qed.

Lemma trimEnd_head c (s : string) :
  Js.isWhiteSpace c = false -> exists t, Js.trimEnd (String c s) = String c t.
Proof.
  intros Hc. simpl. destruct (Js.trimEnd s); [rewrite Hc|]; eauto.
Qed.

Lemma trimStart_cases (s : string) :
  Js.trimStart s = EmptyString
  \/ exists c t, Js.trimStart s = String c t /\ Js.isWhiteSpace c = false.
Proof.
  induction s as [|c s IH]; simpl; [now left|].
  destruct (Js.isWhiteSpace c) eqn:Ec; [exact IH | right; eauto].
Qed.

(** Trimming what is trimmed changes nothing. *)
Lemma trim_idem (s : string) : Js.trim (Js.trim s) = Js.trim s.
Proof.
  unfold Js.trim. destruct (trimStart_cases s) as [-> | [c [t [-> Hc]]]]; [reflexivity|].
  destruct (trimEnd_head c t Hc) as [u Hu]. rewrite Hu.
  simpl Js.trimStart. rewrite Hc. rewrite <- Hu. apply trimEnd_idem.
Qed.

End TrimFacts.

(** X20.  When [updateDetails] returns normally, the object has its id
    and availability as before, the supplied name in trimmed form and
    not empty, the supplied price, which is not negative, and the fields
    that were not supplied unchanged; and the stored name, given back to
    [updateDetails], is accepted and left as it is. *)
Theorem X20_updateDetails_success
    (this : Product.t) (name' : option string) (price' : option Q) :
  snd (Product.updateDetails this name' price') = None ->
  let this' := fst (Product.updateDetails this name' price') in
  this' = Product.mk (Product.id this)
            (match name' with Some n => Js.trim n | None => Product.name this end)
            (match price' with Some p => p | None => Product.price this end)
            (Product.available this)
  /\ (forall n, name' = Some n -> Product.name this' <> "")
  /\ (forall p, price' = Some p -> (0 <= p)%Q)
  /\ (forall n, name' = Some n ->
        Product.updateDetails this' (Some (Product.name this')) None = (this', None)).
Proof.
  unfold Product.updateDetails.
  destruct name' as [n|].
  - destruct (Js.falsy n || (String.length (Js.trim n) =? 0)%nat) eqn:Hn;
      [simpl; discriminate|].
    apply orb_false_iff in Hn. destruct Hn as [_ Hlen].
    assert (Hne : Js.trim n <> "").
    { intros E. rewrite E in Hlen. discriminate. }
    assert (Hagain : (Js.falsy (Js.trim n)
                      || (String.length (Js.trim (Js.trim n)) =? 0)%nat) = false).
    { rewrite TrimFacts.trim_idem, Hlen. destruct (Js.trim n); [congruence | reflexivity]. }
    destruct price' as [p|]; [destruct (Qlt_le_dec p 0) as [|Hle]; [simpl; discriminate|]|];
      simpl; intros _; (split; [reflexivity|]); (split; [intros ? _; exact Hne|]);
      (split; [intros q Hq; inversion Hq; subst; try exact Hle|]);
      intros ? _; rewrite Hagain, TrimFacts.trim_idem; reflexivity.
  - destruct price' as [p|]; [destruct (Qlt_le_dec p 0) as [|Hle]; [simpl; discriminate|]|];
      simpl; intros _; (split; [now destruct this|]);
      (split; [discriminate|]);
      (split; [intros q Hq; inversion Hq; subst; try exact Hle | discriminate]).
Qed.

Lemma X20_updateDetails_success_witness :
  let this := Product.mk "1" "A" (10 # 1) true in
  snd (Product.updateDetails this (Some "  B b ") (Some (5 # 1)%Q)) = None
  /\ fst (Product.updateDetails this (Some "  B b ") (Some (5 # 1)%Q))
     = Product.mk "1" "B b" (5 # 1) true.
Proof.
  intros this.
  assert (H : snd (Product.updateDetails this (Some "  B b ") (Some (5 # 1)%Q)) = None)
    by reflexivity.
  split; [exact H|].
  exact (proj1 (X20_updateDetails_success this _ _ H)).
Defined.

(** ** Invariants of the table, further *)

(** X21.  The key constraint survives every sequence of intents,
    whatever their inputs and the outages; and a well-formed table (key
    constraint, no negative stored price) stays well-formed under
    intents whose supplied prices are not negative. *)
Theorem X21_table_invariants (w : World) (intents : list Intent) :
  (NoDup (map row_id (table w)) -> NoDup (map row_id (table (run intents w))))
  /\ (Forall (intent_prices price_ok) intents ->
      wf_table (table w) -> wf_table (table (run intents w))).
Proof.
  split.
  - apply (WriteFacts.writes_keep_key any_price).
    apply WriteFacts.run_writes, WriteFacts.any_intents.
  - apply WriteFacts.wf_table_run.
Qed.

Lemma X21_table_invariants_witness :
  let intents := [CreateProduct "c" " C " (0 # 1); UpdateProduct "a" (mkUpdateData None (Some (7 # 2)%Q));
                  DeleteProduct "b"; CreateProduct "a" "dup" (1 # 1)] in
  Forall (intent_prices price_ok) intents /\ wf_table (table world_ab)
  /\ wf_table (table (run intents world_ab)).
Proof.
  intros intents.
  assert (Hi : Forall (intent_prices price_ok) intents).
  { repeat constructor; simpl; unfold price_ok; try discriminate.
    intros p Hp. inversion Hp. discriminate. }
  split; [exact Hi|]. split; [exact wf_world_ab|].
  exact (proj2 (X21_table_invariants world_ab intents) Hi wf_world_ab).
Defined.

(** ** Reading back an update *)

(** X22.  Update, then FindOne: on a well-formed table, with the engine
    up for both requests, FindOne of a product right after an Update of
    it with prices that are not negative returns what the Update
    returned. *)
Theorem X22_find_one_after_update (w : World) (r : Row) (changes : UpdateProductData) :
  wf_table (table w) -> no_outage 3 w -> In r (table w) -> row_available r = true ->
  (forall p, update_price changes = Some p -> (0 <= p)%Q) ->
  let w' := snd (UpdateProductHandler.execute (row_id r) changes w) in
  exists updated,
    fst (UpdateProductHandler.execute (row_id r) changes w) = Ok updated
    /\ fst (FindOneProductHandler.execute (row_id r) w') = Ok updated.
Proof.
  intros Hwf Ho Hin Hav Hp w'.
  assert (Ho2 : no_outage 2 w).
  { unfold no_outage in *. destruct (outages w) as [|[|] [|[|] [|[|] o]]]; auto. }
  destruct (UpdateOkFacts.update_handler_ok r changes w Hwf Ho2 Hin Hav Hp)
    as [w1 [Hex [Ht Hout]]].
  exists (to_product (updated_row changes r)). unfold w'. rewrite Hex. simpl fst. simpl snd.
  split; [reflexivity|].
  assert (Hf : PrismaProductRepository.findById (row_id (updated_row changes r)) w1
               = (Ok (Some (to_product (updated_row changes r))),
                  advance call_findFirst w1)).
  { apply RunFacts.findById_found.
    - rewrite Ht. now apply UpdateOkFacts.wf_after_update.
    - rewrite Hout. unfold no_outage in Ho.
      destruct (outages w) as [|[|] [|[|] [|[|] o]]]; simpl in *; auto; discriminate.
    - rewrite Ht. unfold rewrite_at. apply in_map_iff. exists r.
      now rewrite String.eqb_refl.
    - exact Hav. }
  simpl row_id in Hf.
  unfold FindOneProductHandler.execute, try_catch, bind. now rewrite Hf.
Qed.

Lemma X22_find_one_after_update_witness :
  wf_table (table world_ab) /\ no_outage 3 world_ab
  /\ fst (FindOneProductHandler.execute "a"
            (snd (UpdateProductHandler.execute "a" (mkUpdateData None (Some (7 # 2)%Q))
                    world_ab)))
     = Ok (Product.mk "a" "A" (7 # 2) true).
Proof.
  split; [exact wf_world_ab|]. split; [reflexivity|].
  destruct (X22_find_one_after_update world_ab (mkRow "a" "A" (10 # 1) true)
              (mkUpdateData None (Some (7 # 2)%Q)) wf_world_ab eq_refl
              (or_introl eq_refl) eq_refl) as [updated [Hu Hf]].
  - intros p Hp. inversion Hp. discriminate.
  - simpl in Hu. inversion Hu; subst updated. exact Hf.
Defined.

(** ** When the engine fails *)

Module OutageFacts.
Import RunFacts.

Lemma findAll_outage dto w :
  outage_next w ->
  FindAllProductsHandler.execute dto w
  = (Throw (RpcException 500 "Database error finding products."),
     advance call_transaction w).
Proof.
  intros Ho. unfold FindAllProductsHandler.execute,
    PrismaProductRepository.findAllAvailablePaginated,
    Prisma.transaction_count_findMany, try_catch, bind. cbv zeta.
  now rewrite (call_outage _ _ Ho).
Qed.

Lemma validate_outage ids w :
  ids <> [] -> outage_next w ->
  ValidateProductsHandler.execute ids w
  = (Throw (RpcException 500 "Database error finding products by IDs."),
     advance call_findMany w).
Proof.
  intros Hne Ho. unfold ValidateProductsHandler.execute. cbv zeta.
  destruct (Nat.eqb_spec (List.length (Js.Array_from_Set ids)) 0) as [E|NE].
  - exfalso. apply Hne. apply JsFacts.Array_from_Set_nil.
    now destruct (Js.Array_from_Set ids).
  - unfold PrismaProductRepository.findAvailableByIds.
    destruct (Nat.eqb_spec (List.length (Js.Array_from_Set ids)) 0); [contradiction|].
    unfold Prisma.product_findMany_in, try_catch, bind.
    now rewrite (call_outage _ _ Ho).
Qed.

End OutageFacts.

(** X23.  When the engine fails on the first Prisma call of a request,
    the request changes nothing in the table; and it fails, unless it
    is a ValidateBatch of no ids, which makes no call. *)
Theorem X23_outage_changes_nothing (w : World) (i : Intent) :
  outage_next w ->
  table (snd (execute i w)) = table w
  /\ (i <> ValidateProducts [] -> exists e, fst (execute i w) = Throw e).
Proof.
  intros Ho.
  destruct i as [u n p | d | id | id d | id | ids]; unfold execute, map_M, bind.
  - rewrite CreateMoreFacts.create_refused by (now left). simpl. eauto.
  - rewrite (OutageFacts.findAll_outage d w Ho). simpl. eauto.
  - unfold FindOneProductHandler.execute.
    rewrite (RunFacts.lookup_404 id (not_available_msg id))
      by (now apply RunFacts.findById_outage).
    simpl. eauto.
  - unfold UpdateProductHandler.execute.
    rewrite (RunFacts.lookup_404 id (not_available_msg id))
      by (now apply RunFacts.findById_outage).
    simpl. eauto.
  - unfold DeleteProductHandler.execute.
    rewrite (RunFacts.lookup_404 id (already_unavailable_msg id))
      by (now apply RunFacts.findById_outage).
    simpl. eauto.
  - destruct ids as [|x ids]; [simpl; split; [reflexivity | congruence]|].
    rewrite (OutageFacts.validate_outage (x :: ids) w) by (discriminate || exact Ho).
    simpl. eauto.
Qed.

Lemma X23_outage_changes_nothing_witness :
  outage_next world_a_outage
  /\ table (snd (execute (DeleteProduct "a") world_a_outage)) = table world_a_outage
  /\ exists e, fst (execute (CreateProduct "u" "U" (1 # 1)) world_a_outage) = Throw e.
Proof.
  assert (Ho : outage_next world_a_outage) by reflexivity.
  split; [exact Ho|]. split.
  - exact (proj1 (X23_outage_changes_nothing world_a_outage (DeleteProduct "a") Ho)).
  - apply (proj2 (X23_outage_changes_nothing world_a_outage
                    (CreateProduct "u" "U" (1 # 1)) Ho)).
    discriminate.
Defined.
